(** * CorridorOS: the memqosd skeleton and the HELIOPASS simulator

    A shallow embedding of Go programs of the repository:

    - [CorridorOS/daemons/memqosd_skeleton.go], the Free-Form Memory daemon
      skeleton (module [Memqosd]), and the SDK client that talks to it
      ([sdk/go/clients/ffm], module [FFMClient]);
    - the HELIOPASS calibration simulator (labs/helio-sim, modules
      [Heliopass] and [HeliopassF64]) and its HTTP handler (module
      [HeliopassHTTP]);
    - [formatBytes] of the FFM demo (module [FFMDemo]).

    Integers are [Z], strings are [string], slices are lists.  In module
    [Heliopass] a [float64] is a real number, [math.Exp] and [math.Sin] are
    the real functions, and NaN appears only as the result of the one
    division whose divisor is a slice length (see [calculatePowerSavings]):
    this is the simulator as long as every value stays finite.  Module
    [HeliopassF64] is the simulator with the bit error rate, the one value
    that can leave the finite range, as a [float64] with its infinities
    and NaN (module [Float64]); rounding to 53 bits is modelled in neither.
    The global [math/rand] generator is modelled by the sequence of values
    its [Float64] calls return and a cursor into that sequence, threaded
    through every function that draws.

    The definitions come first, the properties after them (the modules
    whose names end in [Props] or [More]). *)

From Stdlib Require Import ZArith Lia List Ascii String Bool Arith.
From Stdlib Require Import DecimalString.
From Stdlib Require Import Reals Lra.
Import ListNotations.

Set Implicit Arguments.

(* ================================================================= *)
(** * memqosd skeleton *)
(* ================================================================= *)

Module Memqosd.

Local Open Scope string_scope.
Local Open Scope Z_scope.

(** [FFMAllocRequest]: [Bytes] is a [uint64], [BandwidthFloorGBs] a
    [uint32]. *)
Record FFMAllocRequest : Type := {
  Bytes : Z;
  LatencyClass : string;
  BandwidthFloorGBs : Z;
  Persistence : string;
  Shareable : bool;
  SecurityDomain : string
}.

Record FFMAllocReply : Type := {
  Handle : string;
  FDs : list string;
  PolicyLeaseTTLsec : Z
}.

(** What [json.NewDecoder(r.Body).Decode(&req)] yields on a request body. *)
Inductive Decoded : Type :=
| DecodeError (err : string)
| DecodeOK (req : FFMAllocRequest).

(** An HTTP request as the handlers see it.  [URLPath] is [r.URL.Path]. *)
Record Request : Type := {
  Method : string;
  URLPath : string;
  Body : Decoded
}.

(** What a handler writes: [http.Error] with its status and message
    arguments, or a JSON-encoded reply under the implicit status 200. *)
Inductive Response : Type :=
| HttpError (status : Z) (msg : string)
| HttpJSON (status : Z) (reply : FFMAllocReply).

Definition ffmAlloc (r : Request) : Response :=
  match Body r with
  | DecodeError err => HttpError 400 err
  | DecodeOK _req =>
      let reply := {| Handle := "ffm-9c2e";
                      FDs := ["/proc/self/fd/37"];
                      PolicyLeaseTTLsec := 3600 |} in
      HttpJSON 200 reply
  end.

(** The patterns [main] registers on the default mux: only the allocation
    endpoint; bandwidth, latency-class and telemetry are left as TODO and no
    release endpoint exists. *)
Definition handlers : list (string * (Request -> Response)) :=
  [("/v1/ffm/alloc", ffmAlloc)].

(** Pattern lookup of the mux.  A pattern that does not end in a slash
    matches exactly its own path. *)
Fixpoint findHandler (hs : list (string * (Request -> Response)))
    (path : string) : option (Request -> Response) :=
  match hs with
  | [] => None
  | (pat, h) :: rest =>
      if String.eqb pat path then Some h else findHandler rest path
  end.

(** [http.ListenAndServe(":7070", nil)]: a request goes to the handler
    registered for its path, or to [http.NotFound].  This is the routing of
    a path in the form the mux matches patterns against, with no empty, "."
    or ".." segment; for any other path the mux answers with a redirect to
    that form, which is not modelled, and nothing below is stated of such a
    path but that it is not granted. *)
Definition serve (r : Request) : Response :=
  match findHandler handlers (URLPath r) with
  | Some h => h r
  | None => HttpError 404 "404 page not found"
  end.

(** The daemon holds no variable between two requests, so a run is the list
    of the answers to each request. *)
Definition run (rs : list Request) : list Response := map serve rs.

Definition isGrant (resp : Response) : bool :=
  match resp with
  | HttpJSON 200 _ => true
  | _ => false
  end.

(** The allocation requests of a run that were answered with a grant. *)
Fixpoint granted (rs : list Request) : list FFMAllocRequest :=
  match rs with
  | [] => []
  | r :: rest =>
      match Body r with
      | DecodeOK req =>
          if isGrant (serve r) then req :: granted rest else granted rest
      | DecodeError _ => granted rest
      end
  end.

(** Sum of the bandwidth floors of the requests granted in tier [tier]. *)
Fixpoint committedFloor (tier : string) (reqs : list FFMAllocRequest) : Z :=
  match reqs with
  | [] => 0
  | q :: rest =>
      (if String.eqb (LatencyClass q) tier then BandwidthFloorGBs q else 0)
      + committedFloor tier rest
  end.

(** An allocation call of the API, as the client posts it. *)
Definition allocRequest (req : FFMAllocRequest) : Request :=
  {| Method := "POST"; URLPath := "/v1/ffm/alloc"; Body := DecodeOK req |}.

Definition theGrant : Response :=
  HttpJSON 200 {| Handle := "ffm-9c2e";
                  FDs := ["/proc/self/fd/37"];
                  PolicyLeaseTTLsec := 3600 |}.

Definition GB : Z := 1024 * 1024 * 1024.

(** Scenario A of the specification. *)
Definition scenarioA_first : FFMAllocRequest :=
  {| Bytes := 16 * GB; LatencyClass := "T0"; BandwidthFloorGBs := 500;
     Persistence := "none"; Shareable := true; SecurityDomain := "demo-tier0" |}.

Definition scenarioA_second : FFMAllocRequest :=
  {| Bytes := 16 * GB; LatencyClass := "T0"; BandwidthFloorGBs := 600;
     Persistence := "none"; Shareable := true; SecurityDomain := "demo-tier0" |}.

End Memqosd.

(* ================================================================= *)
(** * HELIOPASS simulator *)
(* ================================================================= *)

Module Heliopass.

Local Open Scope string_scope.
Local Open Scope R_scope.

(** ** Data *)

(** Go lets two structs share a field name; here the simulator's
    [DriftRate] and [NoiseLevel] are [SimDriftRate] and [SimNoiseLevel], the
    request's [AmbientProfile] and [Temperature] are [AmbientProfileName] and
    [ReqTemperature], the response's [CorridorID] is [RespCorridorID], and
    the [Time] of the three kinds of profile points is [TPTime], [BPTime]
    and [EPTime]. *)

Record HELIOPASSSimulator : Type := {
  BaseTemperature : R;
  BaseHumidity : R;
  BaseVibration : R;
  BaseEMI : R;
  SimDriftRate : R;
  SimNoiseLevel : R;
  ConvergenceRate : R;
  MaxIterations : Z
}.

Record SimulationRequest : Type := {
  CorridorID : string;
  TargetBER : R;
  AmbientProfileName : string;
  LambdaCount : Z;
  InitialBER : R;
  InitialEyeMargin : R;
  ReqTemperature : R;
  Duration : Z
}.

Record TemperaturePoint : Type := {
  TPTime : R;
  TPTemperature : R
}.

Record BERPoint : Type := {
  BPTime : R;
  BER : R
}.

Record EyeMarginPoint : Type := {
  EPTime : R;
  EyeMargin : R
}.

(** [PowerSavings] is the one field that can hold NaN; [None] stands for
    it. *)
Record SimulationResponse : Type := {
  RespCorridorID : string;
  Status : string;
  Converged : bool;
  FinalBER : R;
  FinalEyeMargin : R;
  ConvergenceTime : R;
  Iterations : Z;
  BiasVoltages : list R;
  LambdaShifts : list R;
  LaserPowerAdjust : list R;
  PowerSavings : option R;
  TemperatureProfile : list TemperaturePoint;
  BERProfile : list BERPoint;
  EyeMarginProfile : list EyeMarginPoint;
  Error : string
}.

Record AmbientProfile : Type := {
  Name : string;
  Temperature : R;
  Humidity : R;
  VibrationRMS : R;
  EMINoise : R;
  DriftRate : R;
  StabilityClass : string;
  NoiseLevel : R
}.

Definition NewHELIOPASSSimulator : HELIOPASSSimulator :=
  {| BaseTemperature := 22.0;
     BaseHumidity := 45.0;
     BaseVibration := 0.1;
     BaseEMI := -80.0;
     SimDriftRate := 0.001;
     SimNoiseLevel := 0.1;
     ConvergenceRate := 0.8;
     MaxIterations := 50 |}.

(** The map literal of [GetAmbientProfiles], key by key. *)
Definition ambientProfiles : list (string * AmbientProfile) :=
  [ ("lab_default",
     {| Name := "Laboratory Default"; Temperature := 22.0; Humidity := 45.0;
        VibrationRMS := 0.1; EMINoise := -80.0; DriftRate := 0.001;
        StabilityClass := "excellent"; NoiseLevel := 0.05 |});
    ("field_noise_low",
     {| Name := "Field Low Noise"; Temperature := 25.0; Humidity := 60.0;
        VibrationRMS := 1.0; EMINoise := -70.0; DriftRate := 0.01;
        StabilityClass := "good"; NoiseLevel := 0.1 |});
    ("field_noise_high",
     {| Name := "Field High Noise"; Temperature := 30.0; Humidity := 80.0;
        VibrationRMS := 5.0; EMINoise := -60.0; DriftRate := 0.1;
        StabilityClass := "fair"; NoiseLevel := 0.2 |});
    ("datacenter",
     {| Name := "Data Center"; Temperature := 24.0; Humidity := 50.0;
        VibrationRMS := 0.5; EMINoise := -75.0; DriftRate := 0.005;
        StabilityClass := "excellent"; NoiseLevel := 0.08 |});
    ("space_sim",
     {| Name := "Space Simulation"; Temperature := -50.0; Humidity := 0.0;
        VibrationRMS := 0.01; EMINoise := -90.0; DriftRate := 0.0001;
        StabilityClass := "excellent"; NoiseLevel := 0.01 |}) ].

Fixpoint lookupProfile (m : list (string * AmbientProfile)) (key : string)
    : option AmbientProfile :=
  match m with
  | [] => None
  | (k, p) :: rest => if String.eqb k key then Some p else lookupProfile rest key
  end.

(** [profiles[req.AmbientProfile]] with its [exists] flag. *)
Definition GetAmbientProfiles (key : string) : option AmbientProfile :=
  lookupProfile ambientProfiles key.

Definition knownProfile (key : string) : bool :=
  match GetAmbientProfiles key with
  | Some _ => true
  | None => false
  end.

(** ** Comparisons and slices *)

Definition fle (x y : R) : bool := if Rle_dec x y then true else false.
Definition flt (x y : R) : bool := if Rlt_dec x y then true else false.
Definition fzero (x : R) : bool := if Req_dec_T x 0 then true else false.

(** The longest [[]float64] the run-time agrees to create: [maxAlloc] over
    the element size, 2^48 / 8 on the 64-bit platforms. *)
Definition maxSliceLen : Z := 2 ^ 45.

(** [make([]float64, n)]: the run-time panic "makeslice: len out of range"
    for a negative length and for one whose 8 n bytes exceed [maxAlloc],
    else [n] zeros.  A process that the operating system refuses the memory
    dies; that is no outcome of the function and is not modelled. *)
Definition make_float64s (n : Z) : option (list R) :=
  if ((n <? 0) || (maxSliceLen <? n))%Z%bool then None
  else Some (repeat 0 (Z.to_nat n)).

(** The "Set defaults" block of [Simulate]. *)
Definition setDefaults (req : SimulationRequest) (profile : AmbientProfile)
    : SimulationRequest :=
  {| CorridorID := CorridorID req;
     TargetBER := TargetBER req;
     AmbientProfileName := AmbientProfileName req;
     LambdaCount := if (LambdaCount req =? 0)%Z then 8%Z else LambdaCount req;
     InitialBER := if fzero (InitialBER req) then 1e-9 else InitialBER req;
     InitialEyeMargin :=
       if fzero (InitialEyeMargin req) then 0.5 else InitialEyeMargin req;
     ReqTemperature :=
       if fzero (ReqTemperature req) then Temperature profile
       else ReqTemperature req;
     Duration := if (Duration req =? 0)%Z then 60%Z else Duration req |}.

(** ** Power savings *)

(** The two accumulation loops of [calculatePowerSavings]. *)
Fixpoint sumVoltageSavings (acc : R) (vs : list R) : R :=
  match vs with
  | [] => acc
  | v :: rest => sumVoltageSavings (acc + (1.2 - v) * 10.0) rest
  end.

Fixpoint sumLaserSavings (acc : R) (ps : list R) : R :=
  match ps with
  | [] => acc
  | p :: rest =>
      sumLaserSavings (if flt p 0 then acc + Rabs p * 5.0 else acc) rest
  end.

(** Division by [float64(len(s))].  On an empty slice both loops leave
    their accumulator at 0.0 and the quotient 0.0/0.0 is NaN, which
    [math.Min] and [math.Max] hand on; [None] is that NaN.  The sums are
    real numbers: this is the function on lanes whose sums stay in the
    float64 range, as the clamped lanes that [Simulate] passes do; sums
    that overflow (a lane of 1e308) are not represented. *)
Definition divByLen (x : R) (len : nat) : option R :=
  match len with
  | O => None
  | S _ => Some (x / INR len)
  end.

Definition calculatePowerSavings (biasVoltages laserPowerAdjust : list R)
    : option R :=
  match divByLen (sumVoltageSavings 0.0 biasVoltages) (List.length biasVoltages),
        divByLen (sumLaserSavings 0.0 laserPowerAdjust)
                 (List.length laserPowerAdjust)
  with
  | Some voltageSavings, Some laserSavings =>
      Some (Rmax 0 (Rmin 20 (voltageSavings + laserSavings)))
  | _, _ => None
  end.

(** ** The random source and the functions that draw from it *)

Section Generator.

(** [src k] is the value the [k]-th call of [rand.Float64] returns. *)
Variable src : nat -> R.

(** A computation that draws: from the cursor to a result and the new
    cursor. *)
Definition Rand (A : Type) : Type := nat -> A * nat.

Definition ret {A : Type} (a : A) : Rand A := fun c => (a, c).

Definition bind {A B : Type} (m : Rand A) (k : A -> Rand B) : Rand B :=
  fun c => let (a, c') := m c in k a c'.

Definition rand_Float64 : Rand R := fun c => (src c, S c).

Notation "x <- m ;; k" := (bind m (fun x => k))
  (at level 61, m at next level, right associativity).

(** A [for i := range s] loop that rewrites every element, one draw each. *)
Fixpoint forRange (f : R -> Rand R) (s : list R) : Rand (list R) :=
  match s with
  | [] => ret []
  | x :: rest =>
      y <- f x ;;
      rest' <- forRange f rest ;;
      ret (y :: rest')
  end.

Variable h : HELIOPASSSimulator.

Definition simulateTemperatureNoise (time : R) (profile : AmbientProfile)
    : Rand R :=
  let drift := sin (time * 0.1) * 0.5 in
  r <- rand_Float64 ;;
  let noise := (r - 0.5) * NoiseLevel profile * 2 in
  ret (drift + noise).

Definition calculateImprovement (iteration : nat) (noiseLevel : R) : Rand R :=
  let baseImprovement := exp (- INR iteration * ConvergenceRate h) in
  r <- rand_Float64 ;;
  let noise := (r - 0.5) * noiseLevel in
  ret (baseImprovement + noise).

Definition calculateBERNoise (time : R) (profile : AmbientProfile) : Rand R :=
  let baseNoise := NoiseLevel profile * 1e-12 in
  let timeNoise := sin (time * 0.5) * baseNoise * 0.5 in
  r <- rand_Float64 ;;
  let randomNoise := (r - 0.5) * baseNoise in
  ret (timeNoise + randomNoise).

Definition calculateEyeImprovement (iteration : nat) (noiseLevel : R)
    : Rand R :=
  let baseImprovement := exp (- INR iteration * ConvergenceRate h * 0.8) in
  r <- rand_Float64 ;;
  let noise := (r - 0.5) * noiseLevel * 0.1 in
  ret (baseImprovement + noise).

Definition calculateEyeNoise (time : R) (profile : AmbientProfile) : Rand R :=
  let baseNoise := NoiseLevel profile * 0.01 in
  let timeNoise := sin (time * 0.3) * baseNoise * 0.5 in
  r <- rand_Float64 ;;
  let randomNoise := (r - 0.5) * baseNoise in
  ret (timeNoise + randomNoise).

Definition updateBiasVoltages (voltages : list R) (time : R)
    (profile : AmbientProfile) : Rand (list R) :=
  forRange (fun v =>
    let tempFactor := 1.0 + (Temperature profile - BaseTemperature h) * 0.001 in
    let driftFactor := 1.0 + sin (time * 0.2) * DriftRate profile * 0.1 in
    r <- rand_Float64 ;;
    let randomAdjust := (r - 0.5) * 0.01 in
    let v' := v * tempFactor * driftFactor + randomAdjust in
    ret (Rmax 0.8 (Rmin 1.5 v'))) voltages.

Definition updateLambdaShifts (shifts : list R) (time : R)
    (profile : AmbientProfile) : Rand (list R) :=
  forRange (fun s =>
    let drift := sin (time * 0.15) * DriftRate profile * 0.01 in
    r <- rand_Float64 ;;
    let randomAdjust := (r - 0.5) * 0.001 in
    let s' := s + drift + randomAdjust in
    ret (Rmax (-0.1) (Rmin 0.1 s'))) shifts.

Definition updateLaserPower (powerAdjust : list R) (time : R)
    (profile : AmbientProfile) : Rand (list R) :=
  forRange (fun p =>
    let tempFactor := 1.0 + (Temperature profile - BaseTemperature h) * 0.0005 in
    r <- rand_Float64 ;;
    let randomAdjust := (r - 0.5) * 0.1 in
    let p' := p * tempFactor + randomAdjust in
    ret (Rmax (-2.0) (Rmin 2.0 p'))) powerAdjust.

(** The initialisation loop: lane by lane, one draw for each of the three
    slices, which all have [req.LambdaCount] elements. *)
Fixpoint initLanes (bias lambda laser : list R)
    : Rand (list R * list R * list R) :=
  match bias, lambda, laser with
  | _ :: bias', _ :: lambda', _ :: laser' =>
      r1 <- rand_Float64 ;;
      r2 <- rand_Float64 ;;
      r3 <- rand_Float64 ;;
      rest <- initLanes bias' lambda' laser' ;;
      let '(b, l, p) := rest in
      ret ((1.2 + (r1 - 0.5) * 0.2) :: b,
           ((r2 - 0.5) * 0.02) :: l,
           ((r3 - 0.5) * 0.5) :: p)
  | _, _, _ => ret (bias, lambda, laser)
  end.

(** ** The calibration loop *)

(** The local variables of [Simulate] that the loop reads and writes. *)
Record LoopState : Type := {
  currentBER : R;
  currentEyeMargin : R;
  biasVoltages : list R;
  lambdaShifts : list R;
  laserPowerAdjust : list R;
  temperatureProfile : list TemperaturePoint;
  berProfile : list BERPoint;
  eyeMarginProfile : list EyeMarginPoint;
  converged : bool;
  iterations : nat
}.

Definition setConverged (st : LoopState) : LoopState :=
  {| currentBER := currentBER st;
     currentEyeMargin := currentEyeMargin st;
     biasVoltages := biasVoltages st;
     lambdaShifts := lambdaShifts st;
     laserPowerAdjust := laserPowerAdjust st;
     temperatureProfile := temperatureProfile st;
     berProfile := berProfile st;
     eyeMarginProfile := eyeMarginProfile st;
     converged := true;
     iterations := iterations st |}.

Section Loop.

Variable profile : AmbientProfile.
Variable targetBER : R.
Variable dt : R.

(** One pass through the loop body, up to the convergence check.  The
    BER is a real number here; [HeliopassF64.iteration] is the same body
    with the BER as a float64 that can overflow. *)
Definition iteration (i : nat) (st : LoopState) : Rand LoopState :=
  let time := INR i * dt in
  tnoise <- simulateTemperatureNoise time profile ;;
  let temperature := Temperature profile + tnoise in
  improvement <- calculateImprovement i (NoiseLevel profile) ;;
  let ber1 := targetBER + (currentBER st - targetBER) * improvement in
  berNoise <- calculateBERNoise time profile ;;
  let ber := Rmax (ber1 + berNoise) 1e-15 in
  eyeImprovement <- calculateEyeImprovement i (NoiseLevel profile) ;;
  let eye1 := 0.8 + (currentEyeMargin st - 0.8) * eyeImprovement in
  eyeNoise <- calculateEyeNoise time profile ;;
  let eye := Rmax 0.1 (Rmin 1.5 (eye1 + eyeNoise)) in
  bias <- updateBiasVoltages (biasVoltages st) time profile ;;
  lambda <- updateLambdaShifts (lambdaShifts st) time profile ;;
  laser <- updateLaserPower (laserPowerAdjust st) time profile ;;
  ret {| currentBER := ber;
         currentEyeMargin := eye;
         biasVoltages := bias;
         lambdaShifts := lambda;
         laserPowerAdjust := laser;
         temperatureProfile :=
           (temperatureProfile st
              ++ [{| TPTime := time; TPTemperature := temperature |}])%list;
         berProfile :=
           (berProfile st ++ [{| BPTime := time; BER := ber |}])%list;
         eyeMarginProfile :=
           (eyeMarginProfile st
              ++ [{| EPTime := time; EyeMargin := eye |}])%list;
         converged := converged st;
         iterations := S (iterations st) |}.

(** The "Check convergence" test. *)
Definition checkConvergence (st : LoopState) : bool :=
  fle (currentBER st) (targetBER * 1.1) && fle 0.7 (currentEyeMargin st).

(** [for i := 0; i < h.MaxIterations; i++], with [fuel] the number of values
    of [i] still to come. *)
Fixpoint loop (fuel : nat) (i : nat) (st : LoopState) : Rand LoopState :=
  match fuel with
  | O => ret st
  | S fuel' =>
      st' <- iteration i st ;;
      if checkConvergence st' then ret (setConverged st')
      else loop fuel' (S i) st'
  end.

(** [n] passes through the loop body without the convergence check: the
    state after the [n]-th iteration of a run that has not stopped before. *)
Fixpoint iterN (n : nat) (i : nat) (st : LoopState) : Rand LoopState :=
  match n with
  | O => ret st
  | S n' =>
      st' <- iteration i st ;;
      iterN n' (S i) st'
  end.

End Loop.

(** ** Simulate *)

Inductive Outcome : Type :=
| Returned (resp : SimulationResponse)
| Failed (err : string)
| Panicked (msg : string).

(** "Initialize simulation state": the loop's variables before the first
    iteration, the three slices being those [initLanes] filled. *)
Definition initialState (req : SimulationRequest)
    (lanes : list R * list R * list R) : LoopState :=
  let '(bias0, lambda0, laser0) := lanes in
  {| currentBER := InitialBER req;
     currentEyeMargin := InitialEyeMargin req;
     biasVoltages := bias0;
     lambdaShifts := lambda0;
     laserPowerAdjust := laser0;
     temperatureProfile := [];
     berProfile := [];
     eyeMarginProfile := [];
     converged := false;
     iterations := O |}.

(** "Calculate final metrics" and the response that [Simulate] returns. *)
Definition finalResponse (req : SimulationRequest) (dt : R) (st : LoopState)
    : SimulationResponse :=
  let convergenceTime := INR (iterations st) * dt in
  let powerSavings :=
    calculatePowerSavings (biasVoltages st) (laserPowerAdjust st) in
  let status :=
    if converged st then "converged" else "partial_convergence" in
  {| RespCorridorID := CorridorID req;
     Status := status;
     Converged := converged st;
     FinalBER := currentBER st;
     FinalEyeMargin := currentEyeMargin st;
     ConvergenceTime := convergenceTime;
     Iterations := Z.of_nat (iterations st);
     BiasVoltages := biasVoltages st;
     LambdaShifts := lambdaShifts st;
     LaserPowerAdjust := laserPowerAdjust st;
     PowerSavings := powerSavings;
     TemperatureProfile := temperatureProfile st;
     BERProfile := berProfile st;
     EyeMarginProfile := eyeMarginProfile st;
     Error := "" |}.

Definition Simulate (req0 : SimulationRequest) : Rand Outcome :=
  match GetAmbientProfiles (AmbientProfileName req0) with
  | None =>
      ret (Failed ("unknown ambient profile: " ++ AmbientProfileName req0))
  | Some profile =>
      let req := setDefaults req0 profile in
      let targetBER := TargetBER req in
      match make_float64s (LambdaCount req) with
      | None => ret (Panicked "makeslice: len out of range")
      | Some zeros =>
          lanes <- initLanes zeros zeros zeros ;;
          let dt := IZR (Duration req) / IZR (MaxIterations h) in
          st <- loop profile targetBER dt (Z.to_nat (MaxIterations h)) O
                  (initialState req lanes) ;;
          ret (Returned (finalResponse req dt st))
      end
  end.

End Generator.

Local Open Scope list_scope.

(** ** Vocabulary of the properties *)

(** The ranges the three update functions clamp to. *)
Definition biasOK (v : R) : Prop := 0.8 <= v <= 1.5.
Definition shiftOK (s : R) : Prop := -0.1 <= s <= 0.1.
Definition powerOK (p : R) : Prop := -2.0 <= p <= 2.0.

Definition lanesOK (bias lambda laser : list R) : Prop :=
  Forall biasOK bias /\ Forall shiftOK lambda /\ Forall powerOK laser.

(** The two conditions of the convergence check, as a proposition. *)
Definition targetsMet (targetBER ber eye : R) : Prop :=
  ber <= targetBER * 1.1 /\ 0.7 <= eye.

(** Draws of one loop iteration over [lanes] lanes: five measurements and
    one adjustment per lane in each of the three update functions. *)
Definition drawsPerIteration (lanes : nat) : nat := 5 + 3 * lanes.

(** The lane count [Simulate] works with, and the number of draws a run of
    [iters] iterations makes: three per lane to initialise, then
    [drawsPerIteration] in each iteration. *)
Definition effectiveLanes (req : SimulationRequest) : nat :=
  Z.to_nat (if (LambdaCount req =? 0)%Z then 8%Z else LambdaCount req).

Definition drawsOfRun (req : SimulationRequest) (iters : nat) : nat :=
  3 * effectiveLanes req + iters * drawsPerIteration (effectiveLanes req).

(** Two generators agree on the next [n] draws from their cursors. *)
Definition sameDraws (src1 : nat -> R) (c1 : nat) (src2 : nat -> R) (c2 : nat)
    (n : nat) : Prop :=
  forall k, (k < n)%nat -> src1 (c1 + k)%nat = src2 (c2 + k)%nat.

(** What one pass through the loop body, at loop index [i] and from state
    [st] and cursor [c], establishes of the state [st'] and cursor [c'] it
    ends in. *)
Record IterationPost (dt : R) (i : nat) (st : LoopState) (c : nat)
    (st' : LoopState) (c' : nat) : Prop := {
  post_ber : 1e-15 <= currentBER st';
  post_eye : 0.1 <= currentEyeMargin st' <= 1.5;
  post_lanes :
    lanesOK (biasVoltages st') (lambdaShifts st') (laserPowerAdjust st');
  post_len_bias : List.length (biasVoltages st') = List.length (biasVoltages st);
  post_len_lambda :
    List.length (lambdaShifts st') = List.length (lambdaShifts st);
  post_len_laser :
    List.length (laserPowerAdjust st') = List.length (laserPowerAdjust st);
  post_cursor :
    c' = (c + 5 + List.length (biasVoltages st)
          + List.length (lambdaShifts st)
          + List.length (laserPowerAdjust st))%nat;
  post_temperatureProfile :
    exists t, temperatureProfile st'
              = temperatureProfile st
                  ++ [{| TPTime := INR i * dt; TPTemperature := t |}];
  post_berProfile :
    berProfile st'
    = berProfile st ++ [{| BPTime := INR i * dt; BER := currentBER st' |}];
  post_eyeMarginProfile :
    eyeMarginProfile st'
    = eyeMarginProfile st
        ++ [{| EPTime := INR i * dt; EyeMargin := currentEyeMargin st' |}];
  post_converged : converged st' = converged st;
  post_iterations : iterations st' = S (iterations st)
}.

(** ** Sample inputs *)

(** A recalibration request that leaves every optional field at its zero
    value: eight lanes, sixty seconds. *)
Definition sampleRequest : SimulationRequest :=
  {| CorridorID := "cor-7af3";
     TargetBER := 1e-12;
     AmbientProfileName := "lab_default";
     LambdaCount := 0;
     InitialBER := 0;
     InitialEyeMargin := 0;
     ReqTemperature := 0;
     Duration := 0 |}.

(** A request that leaves target_ber at its zero value too, over one lane
    and one second. *)
Definition stuckRequest : SimulationRequest :=
  {| CorridorID := "cor-7af3";
     TargetBER := 0;
     AmbientProfileName := "lab_default";
     LambdaCount := 1;
     InitialBER := 0;
     InitialEyeMargin := 0;
     ReqTemperature := 0;
     Duration := 1 |}.

(** A request with a negative lane count, as
    [{"ambient_profile":"lab_default","lambda_count":-1}] decodes. *)
Definition negativeLanesRequest : SimulationRequest :=
  {| CorridorID := "";
     TargetBER := 0;
     AmbientProfileName := "lab_default";
     LambdaCount := (-1);
     InitialBER := 0;
     InitialEyeMargin := 0;
     ReqTemperature := 0;
     Duration := 0 |}.

(** A generator whose every draw is one half. *)
Definition midSource : nat -> R := fun _ => 0.5.

(** A generator whose draw number 24 is 0 and every other draw one half.
    With eight lanes, draw 24 is the temperature noise of the first
    iteration of a run that starts at cursor 0. *)
Definition spikeSource : nat -> R :=
  fun k => if (k =? 24)%nat then 0 else 0.5.

(** With one lane a run started at cursor 0 takes draws 0 to 2 for the
    lane and eight draws per iteration, so the pass at loop index [i]
    starts at draw [3 + 8 * i].  Draws 388 and 389 are the improvement and
    BER noise at loop index 48, draw 397 the BER noise at loop index 49;
    all others are one half. *)
Definition lateNoiseSource : nat -> R :=
  fun k =>
    if (k =? 388)%nat then 0
    else if (k =? 389)%nat then 0
    else if (k =? 397)%nat then 0.9
    else 0.5.

(** ** Further vocabulary *)

(** The values [rand.Float64] can return. *)
Definition inUnit (src : nat -> R) : Prop := forall k, 0 <= src k < 1.

(** The request with its temperature_c field replaced. *)
Definition withTemperature (req : SimulationRequest) (t : R)
    : SimulationRequest :=
  {| CorridorID := CorridorID req;
     TargetBER := TargetBER req;
     AmbientProfileName := AmbientProfileName req;
     LambdaCount := LambdaCount req;
     InitialBER := InitialBER req;
     InitialEyeMargin := InitialEyeMargin req;
     ReqTemperature := t;
     Duration := Duration req |}.

(** The time between two iterations of the shipped simulator: the
    request's duration, 60 when it is left at zero, over MaxIterations. *)
Definition timeStep (req : SimulationRequest) : R :=
  IZR (if (Duration req =? 0)%Z then 60%Z else Duration req)
  / IZR (MaxIterations NewHELIOPASSSimulator).

(** The time stamps of a run of [n] iterations. *)
Definition timeStamps (req : SimulationRequest) (n : nat) : list R :=
  map (fun k => INR k * timeStep req) (seq 0 n).

End Heliopass.

(* ================================================================= *)
(** * float64 with its infinities and NaN *)
(* ================================================================= *)

Module Float64.

Local Open Scope R_scope.

(** A [float64] value: a finite number, an infinity or NaN.  A finite value
    is a real number: rounding to 53 bits and the sign of zero are not
    modelled; overflow to an infinity and the arithmetic of the infinities
    and of NaN are. *)
Inductive float64 : Type :=
| Finite (x : R)
| PosInf
| NegInf
| NaN.

(** [math.MaxFloat64], the largest finite value, 1.7976931348623157e308. *)
Definition MaxFloat64 : R := (2 - / 2 ^ 52) * 2 ^ 1023.

(** Round-to-nearest replaces an exact result by an infinity from
    2^1024 - 2^970 on, half a unit in the last place above [MaxFloat64]. *)
Definition overflowThreshold : R := (2 - / 2 ^ 53) * 2 ^ 1023.

(** The value an arithmetic operation delivers for the exact result [x]. *)
Definition fromReal (x : R) : float64 :=
  if Rle_dec overflowThreshold x then PosInf
  else if Rle_dec x (- overflowThreshold) then NegInf
  else Finite x.

Definition neg (a : float64) : float64 :=
  match a with
  | Finite x => Finite (- x)
  | PosInf => NegInf
  | NegInf => PosInf
  | NaN => NaN
  end.

(** [a + b]. *)
Definition add (a b : float64) : float64 :=
  match a, b with
  | NaN, _ | _, NaN => NaN
  | PosInf, NegInf | NegInf, PosInf => NaN
  | PosInf, _ | _, PosInf => PosInf
  | NegInf, _ | _, NegInf => NegInf
  | Finite x, Finite y => fromReal (x + y)
  end.

(** [a - b]. *)
Definition sub (a b : float64) : float64 := add a (neg b).

(** An infinity, positive when [positive], times [b]: NaN when [b] is zero
    or NaN. *)
Definition mulInf (positive : bool) (b : float64) : float64 :=
  match b with
  | NaN => NaN
  | PosInf => if positive then PosInf else NegInf
  | NegInf => if positive then NegInf else PosInf
  | Finite y =>
      if Req_dec_T y 0 then NaN
      else if Rlt_dec 0 y then (if positive then PosInf else NegInf)
      else (if positive then NegInf else PosInf)
  end.

(** [a * b]. *)
Definition mul (a b : float64) : float64 :=
  match a, b with
  | NaN, _ | _, NaN => NaN
  | Finite x, Finite y => fromReal (x * y)
  | PosInf, _ => mulInf true b
  | NegInf, _ => mulInf false b
  | _, PosInf => mulInf true a
  | _, NegInf => mulInf false a
  end.

(** [math.Max]: +Inf if either argument is +Inf, else NaN if either is NaN,
    else the larger. *)
Definition Max (x y : float64) : float64 :=
  match x, y with
  | PosInf, _ | _, PosInf => PosInf
  | NaN, _ | _, NaN => NaN
  | NegInf, b => b
  | a, NegInf => a
  | Finite a, Finite b => Finite (Rmax a b)
  end.

(** [a <= b]: false when either side is NaN. *)
Definition le (a b : float64) : bool :=
  match a, b with
  | NaN, _ | _, NaN => false
  | NegInf, _ => true
  | _, PosInf => true
  | PosInf, _ => false
  | _, NegInf => false
  | Finite x, Finite y => if Rle_dec x y then true else false
  end.

(** [!math.IsNaN(a) && !math.IsInf(a, 0)]: the values [encoding/json] can
    write. *)
Definition isFinite (a : float64) : bool :=
  match a with
  | Finite _ => true
  | _ => false
  end.

(** The value is NaN, or it is not below [floor]: what [math.Max] against
    a finite floor leaves. *)
Definition atLeast (floor : R) (a : float64) : Prop :=
  a = NaN \/ le (Finite floor) a = true.

End Float64.

(* ================================================================= *)
(** * HELIOPASS simulator: the bit error rate as a float64 *)
(* ================================================================= *)

(** [Simulate] once more, with the one variable that can leave the finite
    range kept as a [float64]: [currentBER], which is clamped from below
    only, so that an overflow to +Inf stays from one iteration to the next
    and NaN, once there, stays for good.  Everything else is as in module
    [Heliopass] and is taken from there: the lane values are clamped to
    finite ranges in the iteration that computes them, the noise terms and
    time stamps are small, and so is the eye margin, whose update is clamped
    from both sides at once (an overflow inside it is cut to the same bound
    that the real number is cut to). *)

Module HeliopassF64.

Import Float64.

Local Open Scope string_scope.
Local Open Scope R_scope.

Record BERPoint : Type := {
  BPTime : R;
  BER : float64
}.

Record SimulationResponse : Type := {
  RespCorridorID : string;
  Status : string;
  Converged : bool;
  FinalBER : float64;
  FinalEyeMargin : R;
  ConvergenceTime : R;
  Iterations : Z;
  BiasVoltages : list R;
  LambdaShifts : list R;
  LaserPowerAdjust : list R;
  PowerSavings : option R;
  TemperatureProfile : list Heliopass.TemperaturePoint;
  BERProfile : list BERPoint;
  EyeMarginProfile : list Heliopass.EyeMarginPoint;
  Error : string
}.

(** The local variables of [Simulate] that the loop reads and writes. *)
Record LoopState : Type := {
  currentBER : float64;
  currentEyeMargin : R;
  biasVoltages : list R;
  lambdaShifts : list R;
  laserPowerAdjust : list R;
  temperatureProfile : list Heliopass.TemperaturePoint;
  berProfile : list BERPoint;
  eyeMarginProfile : list Heliopass.EyeMarginPoint;
  converged : bool;
  iterations : nat
}.

Definition setConverged (st : LoopState) : LoopState :=
  {| currentBER := currentBER st;
     currentEyeMargin := currentEyeMargin st;
     biasVoltages := biasVoltages st;
     lambdaShifts := lambdaShifts st;
     laserPowerAdjust := laserPowerAdjust st;
     temperatureProfile := temperatureProfile st;
     berProfile := berProfile st;
     eyeMarginProfile := eyeMarginProfile st;
     converged := true;
     iterations := iterations st |}.

Section Loop.

Variable src : nat -> R.
Variable h : Heliopass.HELIOPASSSimulator.
Variable profile : Heliopass.AmbientProfile.
Variable targetBER : R.
Variable dt : R.

Notation "x <- m ;; k" := (Heliopass.bind m (fun x => k))
  (at level 61, m at next level, right associativity).

(** One pass through the loop body, up to the convergence check. *)
Definition iteration (i : nat) (st : LoopState) : Heliopass.Rand LoopState :=
  let time := INR i * dt in
  tnoise <- Heliopass.simulateTemperatureNoise src time profile ;;
  let temperature := Heliopass.Temperature profile + tnoise in
  improvement <-
    Heliopass.calculateImprovement src h i (Heliopass.NoiseLevel profile) ;;
  let ber1 :=
    add (Finite targetBER)
        (mul (sub (currentBER st) (Finite targetBER)) (Finite improvement)) in
  berNoise <- Heliopass.calculateBERNoise src time profile ;;
  let ber := Max (add ber1 (Finite berNoise)) (Finite 1e-15) in
  eyeImprovement <-
    Heliopass.calculateEyeImprovement src h i (Heliopass.NoiseLevel profile) ;;
  let eye1 := 0.8 + (currentEyeMargin st - 0.8) * eyeImprovement in
  eyeNoise <- Heliopass.calculateEyeNoise src time profile ;;
  let eye := Rmax 0.1 (Rmin 1.5 (eye1 + eyeNoise)) in
  bias <- Heliopass.updateBiasVoltages src h (biasVoltages st) time profile ;;
  lambda <- Heliopass.updateLambdaShifts src (lambdaShifts st) time profile ;;
  laser <-
    Heliopass.updateLaserPower src h (laserPowerAdjust st) time profile ;;
  Heliopass.ret
    {| currentBER := ber;
       currentEyeMargin := eye;
       biasVoltages := bias;
       lambdaShifts := lambda;
       laserPowerAdjust := laser;
       temperatureProfile :=
         (temperatureProfile st
            ++ [{| Heliopass.TPTime := time;
                   Heliopass.TPTemperature := temperature |}])%list;
       berProfile :=
         (berProfile st ++ [{| BPTime := time; BER := ber |}])%list;
       eyeMarginProfile :=
         (eyeMarginProfile st
            ++ [{| Heliopass.EPTime := time;
                   Heliopass.EyeMargin := eye |}])%list;
       converged := converged st;
       iterations := S (iterations st) |}.

(** The "Check convergence" test. *)
Definition checkConvergence (st : LoopState) : bool :=
  le (currentBER st) (mul (Finite targetBER) (Finite 1.1))
  && Heliopass.fle 0.7 (currentEyeMargin st).

(** [for i := 0; i < h.MaxIterations; i++], with [fuel] the number of values
    of [i] still to come. *)
Fixpoint loop (fuel : nat) (i : nat) (st : LoopState)
    : Heliopass.Rand LoopState :=
  match fuel with
  | O => Heliopass.ret st
  | S fuel' =>
      st' <- iteration i st ;;
      if checkConvergence st' then Heliopass.ret (setConverged st')
      else loop fuel' (S i) st'
  end.

End Loop.

(** What one pass through the loop body, at loop index [i] and from state
    [st] and cursor [c], establishes of the state [st'] and cursor [c'] it
    ends in.  The second draw of the pass is that of the improvement factor,
    the third that of the BER noise. *)
Record IterationPost (src : nat -> R) (h : Heliopass.HELIOPASSSimulator)
    (profile : Heliopass.AmbientProfile) (targetBER dt : R)
    (i : nat) (st : LoopState) (c : nat)
    (st' : LoopState) (c' : nat) : Prop := {
  post_ber :
    currentBER st'
    = Max (add (add (Finite targetBER)
                    (mul (sub (currentBER st) (Finite targetBER))
                         (Finite
                            (fst (Heliopass.calculateImprovement src h i
                                    (Heliopass.NoiseLevel profile) (S c))))))
               (Finite
                  (fst (Heliopass.calculateBERNoise src (INR i * dt) profile
                          (S (S c))))))
          (Finite 1e-15);
  post_eye : 0.1 <= currentEyeMargin st' <= 1.5;
  post_lanes :
    Heliopass.lanesOK (biasVoltages st') (lambdaShifts st')
      (laserPowerAdjust st');
  post_len_bias : List.length (biasVoltages st') = List.length (biasVoltages st);
  post_len_lambda :
    List.length (lambdaShifts st') = List.length (lambdaShifts st);
  post_len_laser :
    List.length (laserPowerAdjust st') = List.length (laserPowerAdjust st);
  post_cursor :
    c' = (c + 5 + List.length (biasVoltages st)
          + List.length (lambdaShifts st)
          + List.length (laserPowerAdjust st))%nat;
  post_temperatureProfile :
    exists t, temperatureProfile st'
              = (temperatureProfile st
                   ++ [{| Heliopass.TPTime := INR i * dt;
                          Heliopass.TPTemperature := t |}])%list;
  post_berProfile :
    berProfile st'
    = (berProfile st
         ++ [{| BPTime := INR i * dt; BER := currentBER st' |}])%list;
  post_eyeMarginProfile :
    eyeMarginProfile st'
    = (eyeMarginProfile st
         ++ [{| Heliopass.EPTime := INR i * dt;
                Heliopass.EyeMargin := currentEyeMargin st' |}])%list;
  post_converged : converged st' = converged st;
  post_iterations : iterations st' = S (iterations st)
}.

Inductive Outcome : Type :=
| Returned (resp : SimulationResponse)
| Failed (err : string)
| Panicked (msg : string).

(** "Initialize simulation state". *)
Definition initialState (req : Heliopass.SimulationRequest)
    (lanes : list R * list R * list R) : LoopState :=
  let '(bias0, lambda0, laser0) := lanes in
  {| currentBER := Finite (Heliopass.InitialBER req);
     currentEyeMargin := Heliopass.InitialEyeMargin req;
     biasVoltages := bias0;
     lambdaShifts := lambda0;
     laserPowerAdjust := laser0;
     temperatureProfile := [];
     berProfile := [];
     eyeMarginProfile := [];
     converged := false;
     iterations := O |}.

(** "Calculate final metrics" and the response that [Simulate] returns. *)
Definition finalResponse (req : Heliopass.SimulationRequest) (dt : R)
    (st : LoopState) : SimulationResponse :=
  let convergenceTime := INR (iterations st) * dt in
  let powerSavings :=
    Heliopass.calculatePowerSavings (biasVoltages st) (laserPowerAdjust st) in
  let status :=
    if converged st then "converged" else "partial_convergence" in
  {| RespCorridorID := Heliopass.CorridorID req;
     Status := status;
     Converged := converged st;
     FinalBER := currentBER st;
     FinalEyeMargin := currentEyeMargin st;
     ConvergenceTime := convergenceTime;
     Iterations := Z.of_nat (iterations st);
     BiasVoltages := biasVoltages st;
     LambdaShifts := lambdaShifts st;
     LaserPowerAdjust := laserPowerAdjust st;
     PowerSavings := powerSavings;
     TemperatureProfile := temperatureProfile st;
     BERProfile := berProfile st;
     EyeMarginProfile := eyeMarginProfile st;
     Error := "" |}.

(** [Simulate], for a request decoded from JSON, whose float fields are
    finite. *)
Definition Simulate (src : nat -> R) (h : Heliopass.HELIOPASSSimulator)
    (req0 : Heliopass.SimulationRequest) : Heliopass.Rand Outcome :=
  match Heliopass.GetAmbientProfiles (Heliopass.AmbientProfileName req0) with
  | None =>
      Heliopass.ret
        (Failed ("unknown ambient profile: "
                 ++ Heliopass.AmbientProfileName req0))
  | Some profile =>
      let req := Heliopass.setDefaults req0 profile in
      let targetBER := Heliopass.TargetBER req in
      match Heliopass.make_float64s (Heliopass.LambdaCount req) with
      | None => Heliopass.ret (Panicked "makeslice: len out of range")
      | Some zeros =>
          Heliopass.bind (Heliopass.initLanes src zeros zeros zeros)
            (fun lanes =>
               let dt :=
                 IZR (Heliopass.Duration req)
                 / IZR (Heliopass.MaxIterations h) in
               Heliopass.bind
                 (loop src h profile targetBER dt
                    (Z.to_nat (Heliopass.MaxIterations h)) O
                    (initialState req lanes))
                 (fun st =>
                    Heliopass.ret (Returned (finalResponse req dt st))))
      end
  end.

(** ** The real-number run inside the float64 run *)

(** The states and responses of module [Heliopass], read as those of this
    module: every BER is a finite number. *)
Definition embedBERPoint (pt : Heliopass.BERPoint) : BERPoint :=
  {| BPTime := Heliopass.BPTime pt; BER := Finite (Heliopass.BER pt) |}.

Definition embedState (st : Heliopass.LoopState) : LoopState :=
  {| currentBER := Finite (Heliopass.currentBER st);
     currentEyeMargin := Heliopass.currentEyeMargin st;
     biasVoltages := Heliopass.biasVoltages st;
     lambdaShifts := Heliopass.lambdaShifts st;
     laserPowerAdjust := Heliopass.laserPowerAdjust st;
     temperatureProfile := Heliopass.temperatureProfile st;
     berProfile := map embedBERPoint (Heliopass.berProfile st);
     eyeMarginProfile := Heliopass.eyeMarginProfile st;
     converged := Heliopass.converged st;
     iterations := Heliopass.iterations st |}.

Definition embedResponse (resp : Heliopass.SimulationResponse)
    : SimulationResponse :=
  {| RespCorridorID := Heliopass.RespCorridorID resp;
     Status := Heliopass.Status resp;
     Converged := Heliopass.Converged resp;
     FinalBER := Finite (Heliopass.FinalBER resp);
     FinalEyeMargin := Heliopass.FinalEyeMargin resp;
     ConvergenceTime := Heliopass.ConvergenceTime resp;
     Iterations := Heliopass.Iterations resp;
     BiasVoltages := Heliopass.BiasVoltages resp;
     LambdaShifts := Heliopass.LambdaShifts resp;
     LaserPowerAdjust := Heliopass.LaserPowerAdjust resp;
     PowerSavings := Heliopass.PowerSavings resp;
     TemperatureProfile := Heliopass.TemperatureProfile resp;
     BERProfile := map embedBERPoint (Heliopass.BERProfile resp);
     EyeMarginProfile := Heliopass.EyeMarginProfile resp;
     Error := Heliopass.Error resp |}.

Definition embedOutcome (o : Heliopass.Outcome) : Outcome :=
  match o with
  | Heliopass.Returned resp => Returned (embedResponse resp)
  | Heliopass.Failed err => Failed err
  | Heliopass.Panicked msg => Panicked msg
  end.

(** A request field far from the end of the float64 range. *)
Definition moderate (x : R) : Prop := Rabs x <= 1e300.

(** ** The request and the draws of an overflowing run *)

(** The request that
    [{"corridor_id":"cor-7af3","target_ber":1e-12,
      "ambient_profile":"lab_default","lambda_count":1,
      "initial_ber":1.7976931348623157e308}] decodes to. *)
Definition overflowRequest : Heliopass.SimulationRequest :=
  {| Heliopass.CorridorID := "cor-7af3";
     Heliopass.TargetBER := 1e-12;
     Heliopass.AmbientProfileName := "lab_default";
     Heliopass.LambdaCount := 1;
     Heliopass.InitialBER := MaxFloat64;
     Heliopass.InitialEyeMargin := 0;
     Heliopass.ReqTemperature := 0;
     Heliopass.Duration := 0 |}.

(** The draw at which the improvement factor of loop index 5 is zero for
    the noise level 0.05 of lab_default: exp(-4) + (r - 0.5) * 0.05 = 0. *)
Definition cancellingDraw : R :=
  0.5 - exp (- INR 5
             * Heliopass.ConvergenceRate Heliopass.NewHELIOPASSSimulator)
        / 0.05.

(** With one lane a run started at cursor 0 takes draws 0 to 2 for the lane
    and eight draws per iteration, the second of them for the improvement
    factor.  Draw 4 is that of loop index 0, draw 44 that of loop index 5;
    all others are one half. *)
Definition overflowSource : nat -> R :=
  fun k =>
    if (k =? 4)%nat then 0.9
    else if (k =? 44)%nat then cancellingDraw
    else 0.5.

End HeliopassF64.
(* ================================================================= *)
(** * HELIOPASS simulator: the HTTP handler *)
(* ================================================================= *)

Module HeliopassHTTP.

Local Open Scope string_scope.
Local Open Scope Z_scope.

(** What [json.NewDecoder(r.Body).Decode(&req)] yields on a request body. *)
Inductive DecodedBody : Type :=
| BadBody (err : string)
| GoodBody (req : Heliopass.SimulationRequest).

(** Whether [encoding/json] can write the response: it refuses NaN and the
    infinities ("json: unsupported value").  The fields that can hold one
    are the BER values and the power savings. *)
Definition encodable (resp : HeliopassF64.SimulationResponse) : bool :=
  Float64.isFinite (HeliopassF64.FinalBER resp)
  && forallb (fun pt => Float64.isFinite (HeliopassF64.BER pt))
       (HeliopassF64.BERProfile resp)
  && match HeliopassF64.PowerSavings resp with
     | Some _ => true
     | None => false
     end.

(** What the client of [handleSimulate] gets: [http.Error] with its status
    and message; the JSON encoding of a response under the implicit status
    200; that status with an empty body, when [Encode] fails and the handler
    drops its error; or nothing when the handler panics (the server recovers
    the panic and closes the connection). *)
Inductive Reply : Type :=
| ReplyError (status : Z) (msg : string)
| ReplyJSON (status : Z) (resp : HeliopassF64.SimulationResponse)
| ReplyEmpty (status : Z)
| NoReply (panic : string).

Definition handleSimulate (src : nat -> R) (h : Heliopass.HELIOPASSSimulator)
    (body : DecodedBody) : Heliopass.Rand Reply :=
  match body with
  | BadBody _ => Heliopass.ret (ReplyError 400 "Invalid request body")
  | GoodBody req =>
      fun c =>
        match HeliopassF64.Simulate src h req c with
        | (HeliopassF64.Failed err, c') => (ReplyError 500 err, c')
        | (HeliopassF64.Returned response, c') =>
            (if encodable response then ReplyJSON 200 response
             else ReplyEmpty 200, c')
        | (HeliopassF64.Panicked msg, c') => (NoReply msg, c')
        end
  end.

End HeliopassHTTP.

(* ================================================================= *)
(** * The Go SDK client of memqosd *)
(* ================================================================= *)

Module FFMClient.

Local Open Scope string_scope.
Local Open Scope Z_scope.

(** [AllocateRequest] of the client: unlike the daemon's request type its
    [BandwidthFloorGBs] is a [uint64], and it has two attestation fields. *)
Record AllocateRequest : Type := {
  Bytes : Z;
  LatencyClass : string;
  BandwidthFloorGBs : Z;
  Persistence : string;
  Shareable : bool;
  SecurityDomain : string;
  AttestationRequired : bool;
  AttestationTicket : string
}.

Record Handle : Type := {
  ID : string;
  HandleBytes : Z
}.

Record Telemetry : Type := {
  AchievedGBs : Z
}.

(** What [c.HTTP.Post] and [c.HTTP.Get] return: an error, or the server's
    answer. *)
Inductive RoundTrip : Type :=
| NetError (err : string)
| Answer (resp : Memqosd.Response).

Definition StatusCode (resp : Memqosd.Response) : Z :=
  match resp with
  | Memqosd.HttpError status _ => status
  | Memqosd.HttpJSON status _ => status
  end.

(** The errors of the client: the transport's, the
    [fmt.Errorf("HTTP %d: %s", status, body)] of an unexpected status, kept
    with the answer it was built from, and the decoder's. *)
Inductive ClientError : Type :=
| TransportError (err : string)
| HTTPStatusError (status : Z) (resp : Memqosd.Response)
| BodyError (err : string).

Section Client.

(** The server side of the client's [BaseURL]: what a POST of an
    allocation request to a path, and a GET of a path, come back with. *)
Variable post : string -> AllocateRequest -> RoundTrip.
Variable get : string -> RoundTrip.

(** [json.NewDecoder(resp.Body).Decode(&v)] on an answer: the value left in
    [v] and the decoder's error, if any. *)
Variable decodeHandle : Memqosd.Response -> Handle * option string.
Variable decodeTelemetry : Memqosd.Response -> Telemetry * option string.

(** The methods return a pointer and an error; both can be non-nil. *)
Definition Result (A : Type) : Type := option A * option ClientError.

Definition Allocate (req : AllocateRequest) : Result Handle :=
  match post "/v1/ffm/alloc" req with
  | NetError err => (None, Some (TransportError err))
  | Answer resp =>
      if negb (StatusCode resp =? 201)
      then (None, Some (HTTPStatusError (StatusCode resp) resp))
      else let (h, err) := decodeHandle resp in
           (Some h, option_map BodyError err)
  end.

Definition Get (id : string) : Result Handle :=
  match get ("/v1/ffm/" ++ id) with
  | NetError err => (None, Some (TransportError err))
  | Answer resp =>
      if negb (StatusCode resp =? 200)
      then (None, Some (HTTPStatusError (StatusCode resp) resp))
      else let (h, err) := decodeHandle resp in
           (Some h, option_map BodyError err)
  end.

Definition GetTelemetry (id : string) : Result Telemetry :=
  match get ("/v1/ffm/" ++ id ++ "/telemetry") with
  | NetError err => (None, Some (TransportError err))
  | Answer resp =>
      if negb (StatusCode resp =? 200)
      then (None, Some (HTTPStatusError (StatusCode resp) resp))
      else let (t, err) := decodeTelemetry resp in
           (Some t, option_map BodyError err)
  end.

End Client.

(** A client whose [BaseURL] is the memqosd skeleton.  [wire] is what the
    daemon's decoder makes of the JSON of a client request; a GET carries no
    body, on which the decoder reports the end of the input. *)
Definition skeletonPost (wire : AllocateRequest -> Memqosd.Decoded)
    (path : string) (req : AllocateRequest) : RoundTrip :=
  Answer (Memqosd.serve {| Memqosd.Method := "POST";
                           Memqosd.URLPath := path;
                           Memqosd.Body := wire req |}).

(** The characters of a plain path segment: letters, digits, '-' and '_'. *)
Definition plainChar (a : Ascii.ascii) : bool :=
  let n := Ascii.nat_of_ascii a in
  ((48 <=? n) && (n <=? 57))%nat
  || ((65 <=? n) && (n <=? 90))%nat
  || ((97 <=? n) && (n <=? 122))%nat
  || (n =? 45)%nat || (n =? 95)%nat.

Fixpoint allPlain (s : string) : bool :=
  match s with
  | EmptyString => true
  | String a rest => plainChar a && allPlain rest
  end.

(** A handle id that is one plain segment. *)
Definition plainID (id : string) : bool :=
  negb (String.eqb id "") && allPlain id.

(** A path made of plain segments, each after one slash: [segment] tells
    whether the segment being read has a character yet. *)
Fixpoint plainSegments (segment : bool) (s : string) : bool :=
  match s with
  | EmptyString => segment
  | String a rest =>
      if Ascii.eqb a "/"%char then segment && plainSegments false rest
      else plainChar a && plainSegments true rest
  end.

Definition plainPath (path : string) : bool :=
  match path with
  | String a rest => Ascii.eqb a "/"%char && plainSegments false rest
  | EmptyString => false
  end.

(** What a GET of [BaseURL + path] comes back with when the base URL is the
    skeleton's, for a plain path: the URL parses, has neither query nor
    fragment, and its path is the one the mux routes.  For any other path
    (an escape that does not parse, a '?', a ".." segment) the client or
    the mux does something else; [None] leaves that open. *)
Definition skeletonGet (path : string) : option RoundTrip :=
  if plainPath path
  then Some (Answer (Memqosd.serve
                       {| Memqosd.Method := "GET";
                          Memqosd.URLPath := path;
                          Memqosd.Body := Memqosd.DecodeError "EOF" |}))
  else None.

(** A transport that reaches the skeleton: it behaves as [skeletonGet] says
    wherever that says something. *)
Definition reachesSkeleton (get : string -> RoundTrip) : Prop :=
  forall path rt, skeletonGet path = Some rt -> get path = rt.

(** One such transport, which reports an error for every other path. *)
Definition plainTransport (path : string) : RoundTrip :=
  match skeletonGet path with
  | Some rt => rt
  | None => NetError "unsupported URL"
  end.

End FFMClient.

(* ================================================================= *)
(** * The FFM demo: formatBytes *)
(* ================================================================= *)

Module FFMDemo.

Local Open Scope string_scope.
Local Open Scope Z_scope.

(** What a call of [formatBytes] ends in: the string it returns, or the
    run-time panic of an index out of range in ["KMGTPE"[exp]]. *)
Inductive Formatted : Type :=
| Printed (text : string)
| IndexOutOfRange (exp : Z)
| OutOfFuel.

(** Wrap-around of [int64] arithmetic. *)
Definition wrap_int64 (z : Z) : Z :=
  (z + 2 ^ 63) mod 2 ^ 64 - 2 ^ 63.

(** [for n := bytes / unit; n >= unit; n /= unit { div *= unit; exp++ }] *)
Fixpoint scaleLoop (fuel : nat) (n div exp : Z) : option (Z * Z) :=
  match fuel with
  | O => None
  | S fuel' =>
      if n >=? 1024
      then scaleLoop fuel' (n / 1024) (wrap_int64 (div * 1024)) (exp + 1)
      else Some (div, exp)
  end.

(** ["%d"] of a number that is not negative. *)
Definition decimal (n : Z) : string :=
  NilZero.string_of_uint (N.to_uint (Z.to_N n)).

(** The integer nearest to [a / b], for [b > 0]; of two equally near, the
    even one. *)
Definition roundHalfEven (a b : Z) : Z :=
  let q := a / b in
  let r := a mod b in
  if 2 * r <? b then q
  else if b <? 2 * r then q + 1
  else if Z.even q then q else q + 1.

(** [float64(bytes)] for a [uint64]: the number rounded to 53 significant
    bits, to nearest and ties to even.  The result is an integer again. *)
Definition float64_of_uint64 (n : Z) : Z :=
  let k := Z.max 0 (Z.log2 n - 52) in
  roundHalfEven n (2 ^ k) * 2 ^ k.

(** The number of tenths that ["%.1f"] prints for
    [float64(bytes) / float64(div)], where [div] is a power of two: the
    conversion of [div] and the division are then exact, and [Sprintf]
    rounds the exact quotient to one decimal, ties to even. *)
Definition tenthsOf (bytes div : Z) : Z :=
  roundHalfEven (10 * float64_of_uint64 bytes) div.

(** [fmt.Sprintf("%.1f %cB", q, unit)] for the value [q] of [tenths] tenths. *)
Definition sprintf_1f_cB (tenths : Z) (unit : Ascii.ascii) : string :=
  decimal (tenths / 10) ++ "." ++ decimal (tenths mod 10)
  ++ " " ++ String unit "B".

(** [bytes] is a [uint64]; 64 iterations are more than its bits allow. *)
Definition formatBytes (bytes : Z) : Formatted :=
  if bytes <? 1024 then Printed (decimal bytes ++ " B")
  else
    match scaleLoop 64 (bytes / 1024) 1024 0 with
    | None => OutOfFuel
    | Some (div, exp) =>
        match (if exp <? 0 then None else String.get (Z.to_nat exp) "KMGTPE") with
        | Some unit => Printed (sprintf_1f_cB (tenthsOf bytes div) unit)
        | None => IndexOutOfRange exp
        end
    end.

End FFMDemo.

(* ================================================================= *)
(** * Properties of the memqosd skeleton *)
(* ================================================================= *)

Module MemqosdProps.
Import Memqosd.

Local Open Scope string_scope.
Local Open Scope list_scope.
Local Open Scope Z_scope.

Lemma serve_alloc_path (r : Request) :
  URLPath r = "/v1/ffm/alloc" -> serve r = ffmAlloc r.
Proof.
  intros Hp. unfold serve, handlers, findHandler. rewrite Hp.
  rewrite String.eqb_refl. reflexivity.
Qed.

Lemma serve_other_path (r : Request) :
  URLPath r <> "/v1/ffm/alloc" -> serve r = HttpError 404 "404 page not found".
Proof.
  intros Hp. unfold serve, handlers, findHandler.
  destruct (String.eqb_spec "/v1/ffm/alloc" (URLPath r)) as [E | _].
  - exfalso. apply Hp. symmetry. exact E.
  - reflexivity.
Qed.

Lemma serve_allocRequest (req : FFMAllocRequest) :
  serve (allocRequest req) = theGrant.
Proof. reflexivity. Qed.

Lemma granted_app (rs1 rs2 : list Request) :
  granted (rs1 ++ rs2) = granted rs1 ++ granted rs2.
Proof.
  induction rs1 as [| r rs1 IH]; simpl.
  - reflexivity.
  - destruct (Body r); [exact IH |].
    destruct (isGrant (serve r)); simpl; rewrite IH; reflexivity.
Qed.

(** C1 (as stated) fails on the skeleton: with a 500 GB/s ceiling on T0, the
    second allocation of Scenario A, asking for a 600 GB/s floor after 500
    GB/s were granted, is granted too, and the floors granted in T0 add up
    to 1100 GB/s. *)
Lemma scenarioA_second_is_granted :
  let rs := [allocRequest scenarioA_first; allocRequest scenarioA_second] in
  run rs = [theGrant; theGrant]
  /\ committedFloor "T0" (granted rs) = 1100
  /\ ~ committedFloor "T0" (granted rs) <= 500.
Proof.
  cbv zeta. split; [reflexivity | split; [reflexivity |]].
  vm_compute. intros H. apply H. reflexivity.
Qed.

(** C1 (amended): the skeleton does no admission control.  Whatever tiers
    and bandwidth floors a sequence of allocation requests asks for, every
    one of them gets the same fixed grant, so the floors granted in a tier
    are all the floors requested for it. *)
Theorem ffmAlloc_admits_every_floor (reqs : list FFMAllocRequest) (tier : string) :
  run (map allocRequest reqs) = map (fun _ => theGrant) reqs
  /\ granted (map allocRequest reqs) = reqs
  /\ committedFloor tier (granted (map allocRequest reqs))
     = committedFloor tier reqs.
Proof.
  assert (Hg : granted (map allocRequest reqs) = reqs).
  { induction reqs as [| q reqs IH]; simpl; [reflexivity |].
    rewrite IH. reflexivity. }
  split; [| split].
  - unfold run. rewrite map_map. apply map_ext. intros q.
    apply serve_allocRequest.
  - exact Hg.
  - rewrite Hg. reflexivity.
Qed.

(** C2 (as stated) fails on the skeleton: taking 16 GB as the capacity of
    T0, an allocation of one byte more is granted, not refused. *)
Lemma oversized_alloc_is_granted :
  let capacityT0 := 16 * GB in
  serve (allocRequest
           {| Bytes := capacityT0 + 1; LatencyClass := "T0";
              BandwidthFloorGBs := 0; Persistence := "none";
              Shareable := false; SecurityDomain := "demo" |})
  = theGrant.
Proof. reflexivity. Qed.

(** C2 (amended): an allocation request never fails for its size.  A
    request to the allocation endpoint fails exactly when its body does not
    decode (status 400); every decoded request, of any size, gets the
    grant. *)
Theorem ffmAlloc_fails_only_on_decode_error (r : Request) :
  URLPath r = "/v1/ffm/alloc" ->
  match Body r with
  | DecodeOK _ => serve r = theGrant
  | DecodeError err => serve r = HttpError 400 err
  end.
Proof.
  intros Hp. rewrite (serve_alloc_path r Hp). unfold ffmAlloc.
  destruct (Body r); reflexivity.
Qed.

Lemma ffmAlloc_fails_only_on_decode_error_witness :
  serve (allocRequest scenarioA_first) = theGrant
  /\ serve {| Method := "POST"; URLPath := "/v1/ffm/alloc";
              Body := DecodeError "unexpected EOF" |}
     = HttpError 400 "unexpected EOF".
Proof.
  split.
  - exact (ffmAlloc_fails_only_on_decode_error
             (allocRequest scenarioA_first) eq_refl).
  - exact (ffmAlloc_fails_only_on_decode_error
             {| Method := "POST"; URLPath := "/v1/ffm/alloc";
                Body := DecodeError "unexpected EOF" |} eq_refl).
Defined.




End MemqosdProps.

(* ================================================================= *)
(** * Properties of the HELIOPASS simulator *)
(* ================================================================= *)

Module HeliopassProps.
Import Heliopass.

Local Open Scope string_scope.
Local Open Scope list_scope.
Local Open Scope R_scope.

(** ** Clamping *)

Lemma clamp_range (lo hi x : R) :
  lo <= hi -> lo <= Rmax lo (Rmin hi x) <= hi.
Proof.
  intros Hle. unfold Rmax, Rmin.
  destruct (Rle_dec hi x); destruct (Rle_dec lo _); lra.
Qed.

Lemma clamp_mono (lo hi x y : R) :
  x <= y -> Rmax lo (Rmin hi x) <= Rmax lo (Rmin hi y).
Proof.
  intros Hxy. apply Rle_max_compat_l. apply Rle_min_compat_l. exact Hxy.
Qed.

(** ** Range loops *)

Section RangeLoops.

Variable f : R -> Rand R.
Hypothesis f_one_draw : forall x c, snd (f x c) = S c.

Lemma forRange_cursor (s : list R) (c : nat) :
  snd (forRange f s c) = (c + List.length s)%nat.
Proof.
  revert c. induction s as [| x s IH]; intros c; simpl.
  - unfold ret. simpl. lia.
  - unfold bind. specialize (f_one_draw x c).
    destruct (f x c) as [y c1]. simpl in f_one_draw. subst c1.
    specialize (IH (S c)). destruct (forRange f s (S c)) as [s' c2].
    simpl in IH. unfold ret. simpl. lia.
Qed.

Lemma forRange_length (s : list R) (c : nat) :
  List.length (fst (forRange f s c)) = List.length s.
Proof.
  revert c. induction s as [| x s IH]; intros c; simpl.
  - reflexivity.
  - unfold bind. destruct (f x c) as [y c1].
    specialize (IH c1). destruct (forRange f s c1) as [s' c2].
    simpl in *. congruence.
Qed.

Lemma forRange_Forall (P : R -> Prop) (s : list R) (c : nat) :
  (forall x c', P (fst (f x c'))) ->
  Forall P (fst (forRange f s c)).
Proof.
  intros HP. revert c. induction s as [| x s IH]; intros c; simpl.
  - constructor.
  - unfold bind. specialize (HP x c). destruct (f x c) as [y c1].
    specialize (IH c1). destruct (forRange f s c1) as [s' c2].
    simpl in *. constructor; assumption.
Qed.

End RangeLoops.

(** ** One iteration *)

Ltac unfold_measurements :=
  unfold iteration, simulateTemperatureNoise, calculateImprovement,
    calculateBERNoise, calculateEyeImprovement, calculateEyeNoise,
    rand_Float64, bind, ret.


Section Iteration.

Variable src : nat -> R.
Variable h : HELIOPASSSimulator.
Variable profile : AmbientProfile.
Variable targetBER dt : R.

Lemma updateBiasVoltages_spec (vs : list R) (time : R) (c : nat) :
  Forall biasOK (fst (updateBiasVoltages src h vs time profile c))
  /\ List.length (fst (updateBiasVoltages src h vs time profile c))
     = List.length vs
  /\ snd (updateBiasVoltages src h vs time profile c)
     = (c + List.length vs)%nat.
Proof.
  unfold updateBiasVoltages. split; [| split].
  - apply forRange_Forall. intros x c'. simpl. apply clamp_range. lra.
  - apply forRange_length.
  - apply forRange_cursor. intros x c'. reflexivity.
Qed.

Lemma updateLambdaShifts_spec (ss : list R) (time : R) (c : nat) :
  Forall shiftOK (fst (updateLambdaShifts src ss time profile c))
  /\ List.length (fst (updateLambdaShifts src ss time profile c))
     = List.length ss
  /\ snd (updateLambdaShifts src ss time profile c)
     = (c + List.length ss)%nat.
Proof.
  unfold updateLambdaShifts. split; [| split].
  - apply forRange_Forall. intros x c'. simpl. apply clamp_range. lra.
  - apply forRange_length.
  - apply forRange_cursor. intros x c'. reflexivity.
Qed.

Lemma updateLaserPower_spec (ps : list R) (time : R) (c : nat) :
  Forall powerOK (fst (updateLaserPower src h ps time profile c))
  /\ List.length (fst (updateLaserPower src h ps time profile c))
     = List.length ps
  /\ snd (updateLaserPower src h ps time profile c)
     = (c + List.length ps)%nat.
Proof.
  unfold updateLaserPower. split; [| split].
  - apply forRange_Forall. intros x c'. simpl. apply clamp_range. lra.
  - apply forRange_length.
  - apply forRange_cursor. intros x c'. reflexivity.
Qed.

Lemma iteration_post (i : nat) (st : LoopState) (c : nat) :
  IterationPost dt i st c
    (fst (iteration src h profile targetBER dt i st c))
    (snd (iteration src h profile targetBER dt i st c)).
Proof.
  unfold_measurements.
  pose proof (updateBiasVoltages_spec (biasVoltages st) (INR i * dt)
                (S (S (S (S (S c)))))) as (Hb1 & Hb2 & Hb3).
  destruct (updateBiasVoltages src h (biasVoltages st) (INR i * dt) profile
              (S (S (S (S (S c)))))) as [bias c1].
  simpl in Hb1, Hb2, Hb3.
  pose proof (updateLambdaShifts_spec (lambdaShifts st) (INR i * dt) c1)
    as (Hl1 & Hl2 & Hl3).
  destruct (updateLambdaShifts src (lambdaShifts st) (INR i * dt) profile c1)
    as [lambda c2].
  simpl in Hl1, Hl2, Hl3.
  pose proof (updateLaserPower_spec (laserPowerAdjust st) (INR i * dt) c2)
    as (Hp1 & Hp2 & Hp3).
  destruct (updateLaserPower src h (laserPowerAdjust st) (INR i * dt) profile c2)
    as [laser c3].
  simpl in Hp1, Hp2, Hp3.
  constructor; simpl.
  - apply Rmax_r.
  - apply clamp_range. lra.
  - repeat split; assumption.
  - exact Hb2.
  - exact Hl2.
  - exact Hp2.
  - lia.
  - eexists. reflexivity.
  - reflexivity.
  - reflexivity.
  - reflexivity.
  - reflexivity.
Qed.

End Iteration.
(** ** The loop *)

Section LoopFacts.

Variable src : nat -> R.
Variable h : HELIOPASSSimulator.
Variable profile : AmbientProfile.
Variable targetBER dt : R.

Local Abbreviation iteration' := (iteration src h profile targetBER dt).
Local Abbreviation iterN' := (iterN src h profile targetBER dt).
Local Abbreviation loop' := (loop src h profile targetBER dt).
Local Abbreviation check := (checkConvergence targetBER).

Lemma iterN_snoc (n i : nat) (st : LoopState) (c : nat) :
  iterN' (S n) i st c
  = iteration' (i + n)%nat (fst (iterN' n i st c)) (snd (iterN' n i st c)).
Proof.
  revert i st c. induction n as [| n IH]; intros i st c.
  - simpl. unfold bind, ret. rewrite Nat.add_0_r.
    destruct (iteration' i st c); reflexivity.
  - assert (Hstep : forall k, iterN' (S k) i st c
                     = iterN' k (S i) (fst (iteration' i st c))
                         (snd (iteration' i st c))).
    { intros k. simpl iterN. unfold bind.
      destruct (iteration' i st c); reflexivity. }
    rewrite (Hstep (S n)), (Hstep n), IH.
    replace (i + S n)%nat with (S i + n)%nat by lia. reflexivity.
Qed.

(** The loop runs the body until the check first succeeds or the fuel is
    spent. *)
Lemma loop_iterN (fuel i : nat) (st : LoopState) (c : nat) :
  exists n,
    (n <= fuel)%nat
    /\ (forall k, (0 < k < n)%nat -> check (fst (iterN' k i st c)) = false)
    /\ ((n = fuel
         /\ (n = O \/ check (fst (iterN' n i st c)) = false)
         /\ loop' fuel i st c = iterN' n i st c)
        \/ ((0 < n)%nat
            /\ check (fst (iterN' n i st c)) = true
            /\ loop' fuel i st c
               = (setConverged (fst (iterN' n i st c)),
                  snd (iterN' n i st c)))).
Proof.
  revert i st c. induction fuel as [| fuel IH]; intros i st c.
  - exists O. split; [lia |]. split; [intros k Hk; lia |].
    left. split; [reflexivity |]. split; [left; reflexivity |]. reflexivity.
  - destruct (iteration' i st c) as [st1 c1] eqn:E.
    assert (Hloop : loop' (S fuel) i st c
                    = if check st1 then (setConverged st1, c1)
                      else loop' fuel (S i) st1 c1).
    { simpl loop. unfold bind, ret. rewrite E.
      destruct (check st1); reflexivity. }
    assert (Hstep : forall k, iterN' (S k) i st c = iterN' k (S i) st1 c1).
    { intros k. simpl iterN. unfold bind. rewrite E. reflexivity. }
    rewrite Hloop. destruct (check st1) eqn:Hc.
    + exists 1%nat. split; [lia |]. split; [intros k Hk; lia |].
      right. rewrite Hstep. simpl.
      split; [lia |]. split; [exact Hc | reflexivity].
    + destruct (IH (S i) st1 c1) as (n & Hn & Hbefore & Hend).
      exists (S n). split; [lia |]. split.
      * intros k Hk. destruct k as [| k]; [lia |].
        rewrite Hstep. destruct k as [| k].
        -- simpl. exact Hc.
        -- apply Hbefore. lia.
      * rewrite Hstep.
        destruct Hend as [(Hn' & Hlast & Heq) | (Hpos & Hlast & Heq)].
        -- left. split; [lia |]. split; [| exact Heq].
           right. destruct Hlast as [Hz | Hlast]; [| exact Hlast].
           rewrite Hz. simpl. exact Hc.
        -- right. split; [lia |]. split; [exact Hlast | exact Heq].
Qed.

(** The state after [n] iterations. *)
Lemma iterN_facts (n i : nat) (st : LoopState) (c : nat) :
  let st' := fst (iterN' n i st c) in
  List.length (biasVoltages st') = List.length (biasVoltages st)
  /\ List.length (lambdaShifts st') = List.length (lambdaShifts st)
  /\ List.length (laserPowerAdjust st') = List.length (laserPowerAdjust st)
  /\ snd (iterN' n i st c)
     = (c + n * (5 + List.length (biasVoltages st)
                 + List.length (lambdaShifts st)
                 + List.length (laserPowerAdjust st)))%nat
  /\ converged st' = converged st
  /\ iterations st' = (iterations st + n)%nat
  /\ List.length (berProfile st') = (List.length (berProfile st) + n)%nat
  /\ List.length (eyeMarginProfile st')
     = (List.length (eyeMarginProfile st) + n)%nat
  /\ List.length (temperatureProfile st')
     = (List.length (temperatureProfile st) + n)%nat.
Proof.
  induction n as [| n IH].
  - simpl. repeat split; lia.
  - cbv zeta in *. rewrite iterN_snoc.
    destruct IH as (H1 & H2 & H3 & H4 & H5 & H6 & H7 & H8 & H9).
    pose proof (iteration_post src h profile targetBER dt (i + n)%nat
                  (fst (iterN' n i st c)) (snd (iterN' n i st c))) as P.
    destruct P as [_ _ _ Pb Pl Pp Pc [t Pt] Pber Peye Pcv Pit].
    rewrite Pb, Pl, Pp, Pc, Pcv, Pit, Pber, Peye, Pt.
    rewrite !length_app. simpl List.length.
    rewrite H1, H2, H3, H4, H5, H6, H7, H8, H9.
    repeat split; lia.
Qed.

(** After at least one iteration the measurements and the lanes are within
    their clamping ranges, and the last profile entries are the current
    values. *)
Lemma iterN_clamped (n i : nat) (st : LoopState) (c : nat) :
  let st' := fst (iterN' (S n) i st c) in
  1e-15 <= currentBER st'
  /\ 0.1 <= currentEyeMargin st' <= 1.5
  /\ lanesOK (biasVoltages st') (lambdaShifts st') (laserPowerAdjust st')
  /\ (exists front, berProfile st'
        = front ++ [{| BPTime := INR (i + n) * dt; BER := currentBER st' |}])
  /\ (exists front, eyeMarginProfile st'
        = front ++ [{| EPTime := INR (i + n) * dt;
                       EyeMargin := currentEyeMargin st' |}]).
Proof.
  cbv zeta. rewrite iterN_snoc.
  pose proof (iteration_post src h profile targetBER dt (i + n)%nat
                (fst (iterN' n i st c)) (snd (iterN' n i st c))) as P.
  destruct P as [Pber Peye Planes _ _ _ _ _ Pbp Pep _ _].
  split; [exact Pber |]. split; [exact Peye |]. split; [exact Planes |].
  split; eexists; [exact Pbp | exact Pep].
Qed.

End LoopFacts.
(** ** Simulate *)

Section SimulateFacts.

Variable src : nat -> R.
Variable h : HELIOPASSSimulator.

Lemma initLanes_spec (bias lambda laser : list R) (c : nat) :
  List.length lambda = List.length bias ->
  List.length laser = List.length bias ->
  let '(b, l, p) := fst (initLanes src bias lambda laser c) in
  List.length b = List.length bias
  /\ List.length l = List.length bias
  /\ List.length p = List.length bias
  /\ snd (initLanes src bias lambda laser c) = (c + 3 * List.length bias)%nat.
Proof.
  revert lambda laser c.
  induction bias as [| x bias IH]; intros lambda laser c Hl Hp.
  - destruct lambda; [| discriminate]. destruct laser; [| discriminate].
    simpl. repeat split; lia.
  - destruct lambda as [| y lambda]; [discriminate |].
    destruct laser as [| z laser]; [discriminate |].
    simpl in Hl, Hp. injection Hl as Hl. injection Hp as Hp.
    simpl initLanes. unfold bind, ret, rand_Float64.
    specialize (IH lambda laser (S (S (S c))) Hl Hp).
    destruct (initLanes src bias lambda laser (S (S (S c)))) as [[[b l] p] c1].
    simpl in *. destruct IH as (H1 & H2 & H3 & H4).
    repeat split; lia.
Qed.

(** [make] on lengths inside and outside the run-time's range. *)
Lemma maxSliceLen_value : maxSliceLen = 35184372088832%Z.
Proof. reflexivity. Qed.

Lemma make_float64s_in_range (n : Z) :
  (0 <= n <= maxSliceLen)%Z ->
  make_float64s n = Some (repeat 0 (Z.to_nat n)).
Proof.
  intros Hn. unfold make_float64s.
  destruct (Z.ltb_spec n 0); [lia |].
  destruct (Z.ltb_spec maxSliceLen n); [lia |]. reflexivity.
Qed.

Lemma make_float64s_out_of_range (n : Z) :
  (n < 0 \/ maxSliceLen < n)%Z -> make_float64s n = None.
Proof.
  intros Hn. unfold make_float64s.
  destruct (Z.ltb_spec n 0); [reflexivity |].
  destruct (Z.ltb_spec maxSliceLen n); [reflexivity | lia].
Qed.

Lemma make_float64s_Some (n : Z) (zeros : list R) :
  make_float64s n = Some zeros ->
  (0 <= n <= maxSliceLen)%Z /\ zeros = repeat 0 (Z.to_nat n).
Proof.
  unfold make_float64s.
  destruct (Z.ltb_spec n 0); [discriminate |].
  destruct (Z.ltb_spec maxSliceLen n); [discriminate |].
  simpl. intros E. injection E as <-. split; [lia | reflexivity].
Qed.

(** The effective lane count: [req.LambdaCount] after the defaults. *)
Lemma setDefaults_LambdaCount (req : SimulationRequest) (profile : AmbientProfile) :
  (0 <= LambdaCount req)%Z ->
  (1 <= LambdaCount (setDefaults req profile))%Z.
Proof.
  intros Hn. simpl. destruct (Z.eqb_spec (LambdaCount req) 0); lia.
Qed.

Lemma setDefaults_LambdaCount_max (req : SimulationRequest)
    (profile : AmbientProfile) :
  (LambdaCount req <= maxSliceLen)%Z ->
  (LambdaCount (setDefaults req profile) <= maxSliceLen)%Z.
Proof.
  intros Hn. simpl. rewrite maxSliceLen_value in *.
  destruct (Z.eqb_spec (LambdaCount req) 0); lia.
Qed.

Lemma setDefaults_LambdaCount_neg (req : SimulationRequest)
    (profile : AmbientProfile) :
  (LambdaCount req < 0)%Z ->
  LambdaCount (setDefaults req profile) = LambdaCount req.
Proof.
  intros Hn. simpl. destruct (Z.eqb_spec (LambdaCount req) 0); [lia | reflexivity].
Qed.

Lemma setDefaults_LambdaCount_nonzero (req : SimulationRequest)
    (profile : AmbientProfile) :
  LambdaCount req <> 0%Z ->
  LambdaCount (setDefaults req profile) = LambdaCount req.
Proof.
  intros Hn. simpl.
  destruct (Z.eqb_spec (LambdaCount req) 0); [contradiction | reflexivity].
Qed.

(** The outcomes of [Simulate], case by case. *)
Lemma Simulate_unknown (req : SimulationRequest) (c : nat) :
  GetAmbientProfiles (AmbientProfileName req) = None ->
  Simulate src h req c
  = (Failed ("unknown ambient profile: " ++ AmbientProfileName req)%string, c).
Proof. intros Hp. unfold Simulate. rewrite Hp. reflexivity. Qed.

Lemma Simulate_out_of_range (req : SimulationRequest) (profile : AmbientProfile)
    (c : nat) :
  GetAmbientProfiles (AmbientProfileName req) = Some profile ->
  (LambdaCount req < 0 \/ maxSliceLen < LambdaCount req)%Z ->
  Simulate src h req c = (Panicked "makeslice: len out of range", c).
Proof.
  intros Hp Hn. unfold Simulate. rewrite Hp. cbv zeta.
  rewrite setDefaults_LambdaCount_nonzero.
  - rewrite (make_float64s_out_of_range Hn). reflexivity.
  - rewrite maxSliceLen_value in Hn. lia.
Qed.

Lemma Simulate_negative (req : SimulationRequest) (profile : AmbientProfile)
    (c : nat) :
  GetAmbientProfiles (AmbientProfileName req) = Some profile ->
  (LambdaCount req < 0)%Z ->
  Simulate src h req c = (Panicked "makeslice: len out of range", c).
Proof.
  intros Hp Hn. apply (Simulate_out_of_range req c Hp). left. exact Hn.
Qed.

Lemma Simulate_runs (req : SimulationRequest) (profile : AmbientProfile)
    (c : nat) :
  GetAmbientProfiles (AmbientProfileName req) = Some profile ->
  (0 <= LambdaCount req <= maxSliceLen)%Z ->
  let req' := setDefaults req profile in
  let lanes := Z.to_nat (LambdaCount req') in
  let dt := IZR (Duration req') / IZR (MaxIterations h) in
  exists st0,
    List.length (biasVoltages st0) = lanes
    /\ List.length (lambdaShifts st0) = lanes
    /\ List.length (laserPowerAdjust st0) = lanes
    /\ currentBER st0 = InitialBER req'
    /\ currentEyeMargin st0 = InitialEyeMargin req'
    /\ temperatureProfile st0 = []
    /\ berProfile st0 = []
    /\ eyeMarginProfile st0 = []
    /\ converged st0 = false
    /\ iterations st0 = O
    /\ Simulate src h req c
       = (Returned
            (finalResponse req' dt
               (fst (loop src h profile (TargetBER req) dt
                       (Z.to_nat (MaxIterations h)) O st0 (c + 3 * lanes)%nat))),
          snd (loop src h profile (TargetBER req) dt
                 (Z.to_nat (MaxIterations h)) O st0 (c + 3 * lanes)%nat)).
Proof.
  intros Hp [Hn Hmax]. cbv zeta.
  pose proof (setDefaults_LambdaCount req profile Hn) as Hpos.
  pose proof (setDefaults_LambdaCount_max req profile Hmax) as Hle.
  unfold Simulate. rewrite Hp. cbv zeta.
  set (req' := setDefaults req profile) in *.
  rewrite (@make_float64s_in_range (LambdaCount req')) by lia.
  set (zeros := repeat 0 (Z.to_nat (LambdaCount req'))).
  assert (Hz : List.length zeros = Z.to_nat (LambdaCount req'))
    by apply repeat_length.
  pose proof (initLanes_spec zeros zeros zeros c eq_refl eq_refl) as Hi.
  unfold bind at 1.
  destruct (initLanes src zeros zeros zeros c) as [[[b l] p] c1].
  simpl in Hi. destruct Hi as (H1 & H2 & H3 & H4). rewrite Hz in *.
  exists (initialState req' (b, l, p)). simpl.
  repeat (split; [first [assumption | reflexivity] |]).
  unfold bind, ret. subst c1.
  change (TargetBER req') with (TargetBER req).
  destruct (loop src h profile (TargetBER req) _ _ _ _ _) as [st c2].
  reflexivity.
Qed.

End SimulateFacts.
(** ** Runs of the shipped simulator *)

Section Runs.

Variable src : nat -> R.

Local Abbreviation h0 := NewHELIOPASSSimulator.

Lemma knownProfile_true (key : string) :
  knownProfile key = true -> exists profile, GetAmbientProfiles key = Some profile.
Proof.
  unfold knownProfile. destruct (GetAmbientProfiles key) as [p |].
  - intros _. exists p. reflexivity.
  - discriminate.
Qed.

(** Every response comes from a run of one to fifty iterations that stops
    at the first iteration whose check succeeds. *)
Lemma Simulate_returned (req : SimulationRequest) (c : nat)
    (resp : SimulationResponse) (c' : nat) :
  Simulate src h0 req c = (Returned resp, c') ->
  exists profile st0 n,
    let req' := setDefaults req profile in
    let lanes := Z.to_nat (LambdaCount req') in
    let dt := IZR (Duration req') / IZR (MaxIterations h0) in
    let run k := iterN src h0 profile (TargetBER req) dt k O st0
                   (c + 3 * lanes)%nat in
    GetAmbientProfiles (AmbientProfileName req) = Some profile
    /\ (1 <= LambdaCount req')%Z
    /\ List.length (biasVoltages st0) = lanes
    /\ List.length (lambdaShifts st0) = lanes
    /\ List.length (laserPowerAdjust st0) = lanes
    /\ berProfile st0 = [] /\ eyeMarginProfile st0 = []
    /\ temperatureProfile st0 = []
    /\ converged st0 = false /\ iterations st0 = O
    /\ currentBER st0 = InitialBER req'
    /\ currentEyeMargin st0 = InitialEyeMargin req'
    /\ (1 <= n <= 50)%nat
    /\ (forall k, (0 < k < n)%nat ->
          checkConvergence (TargetBER req) (fst (run k)) = false)
    /\ c' = snd (run n)
    /\ ((n = 50%nat
         /\ checkConvergence (TargetBER req) (fst (run n)) = false
         /\ resp = finalResponse req' dt (fst (run n)))
        \/ (checkConvergence (TargetBER req) (fst (run n)) = true
            /\ resp = finalResponse req' dt (setConverged (fst (run n))))).
Proof.
  intros Hsim.
  destruct (GetAmbientProfiles (AmbientProfileName req)) as [profile |] eqn:Hp.
  2:{ rewrite (Simulate_unknown src h0 req c Hp) in Hsim. discriminate. }
  destruct (Z.lt_ge_cases (LambdaCount req) 0) as [Hneg | Hnn].
  { rewrite (Simulate_negative src h0 req c Hp Hneg) in Hsim. discriminate. }
  destruct (Z.lt_ge_cases maxSliceLen (LambdaCount req)) as [Hbig | Hmax].
  { rewrite (Simulate_out_of_range src h0 req c Hp (or_intror Hbig)) in Hsim.
    discriminate. }
  destruct (Simulate_runs src h0 req c Hp (conj Hnn Hmax))
    as (st0 & L1 & L2 & L3 & B0 & E0 & T0 & BP0 & EP0 & C0 & I0 & Heq).
  rewrite Heq in Hsim. clear Heq.
  change (Z.to_nat (MaxIterations h0)) with 50%nat in Hsim.
  set (req' := setDefaults req profile) in *.
  set (dt := IZR (Duration req') / IZR (MaxIterations h0)) in *.
  set (c0 := (c + 3 * Z.to_nat (LambdaCount req'))%nat) in *.
  destruct (loop_iterN src h0 profile (TargetBER req) dt 50 O st0 c0)
    as (n & Hn & Hbefore & Hend).
  exists profile, st0, n. cbv zeta. fold req' dt c0.
  split; [reflexivity |].
  split; [apply setDefaults_LambdaCount; exact Hnn |].
  do 10 (split; [assumption |]).
  destruct Hend as [(Hn' & Hlast & Hloop) | (Hpos & Hlast & Hloop)];
    rewrite Hloop in Hsim; simpl in Hsim;
    injection Hsim as Hresp Hc'.
  - destruct Hlast as [Hz | Hlast]; [lia |].
    split; [lia |]. split; [exact Hbefore |]. split; [symmetry; exact Hc' |].
    left. split; [exact Hn' |]. split; [exact Hlast | symmetry; exact Hresp].
  - split; [lia |]. split; [exact Hbefore |]. split; [symmetry; exact Hc' |].
    right. split; [exact Hlast | symmetry; exact Hresp].
Qed.

End Runs.
(** ** Termination and bounds *)

Local Abbreviation h0 := NewHELIOPASSSimulator.

(** C3, the failing input and the extent of the defect.  The claim holds of
    every request whose profile is known and whose lane count [make] can
    serve, 0 to [maxSliceLen]: [Simulate] returns a response whose iteration
    count lies between 1 and MaxIterations = 50.  For the other lane counts,
    as for lambda_count = -1, [Simulate] panics before the loop, without a
    draw, and returns no iteration count at all. *)
Theorem calibration_loop_terminates (src : nat -> R)
    (req : SimulationRequest) (c : nat) :
  knownProfile (AmbientProfileName req) = true ->
  ((0 <= LambdaCount req <= maxSliceLen)%Z ->
   exists resp c',
     Simulate src h0 req c = (Returned resp, c')
     /\ (1 <= Iterations resp <= 50)%Z
     /\ MaxIterations h0 = 50%Z)
  /\ ((LambdaCount req < 0 \/ maxSliceLen < LambdaCount req)%Z ->
      Simulate src h0 req c = (Panicked "makeslice: len out of range", c)).
Proof.
  intros Hk.
  destruct (knownProfile_true _ Hk) as [profile Hp].
  split.
  - intros Hn.
    destruct (Simulate_runs src h0 req c Hp Hn)
      as (st0 & _ & _ & _ & _ & _ & _ & _ & _ & _ & _ & Hsim).
    match type of Hsim with _ = (Returned ?r, ?c1) =>
      set (resp := r) in *; set (c' := c1) in * end.
    exists resp, c'. split; [exact Hsim |]. split; [| reflexivity].
    destruct (Simulate_returned src req c Hsim)
      as (profile' & st1 & n & Hshape).
    cbv zeta in Hshape.
    destruct Hshape as (_ & _ & _ & _ & _ & _ & _ & _ & _ & I0 & _ & _ & Hn'
                        & _ & _ & Hend).
    pose proof (iterN_facts src h0 profile' (TargetBER req)
                  (IZR (Duration (setDefaults req profile')) / IZR (MaxIterations h0))
                  n O st1
                  (c + 3 * Z.to_nat (LambdaCount (setDefaults req profile')))%nat)
      as F.
    cbv zeta in F. destruct F as (_ & _ & _ & _ & _ & Hit & _).
    rewrite I0 in Hit. simpl in Hit.
    destruct Hend as [(_ & _ & Hr) | (_ & Hr)];
      rewrite Hr; simpl; rewrite Hit; lia.
  - intros Hn. exact (Simulate_out_of_range src h0 req c Hp Hn).
Qed.

Lemma calibration_loop_terminates_witness :
  ((0 <= LambdaCount negativeLanesRequest <= maxSliceLen)%Z ->
   exists resp c',
     Simulate midSource NewHELIOPASSSimulator negativeLanesRequest O
     = (Returned resp, c')
     /\ (1 <= Iterations resp <= 50)%Z
     /\ MaxIterations NewHELIOPASSSimulator = 50%Z)
  /\ ((LambdaCount negativeLanesRequest < 0
       \/ maxSliceLen < LambdaCount negativeLanesRequest)%Z ->
      Simulate midSource NewHELIOPASSSimulator negativeLanesRequest O
      = (Panicked "makeslice: len out of range", O)).
Proof.
  apply (calibration_loop_terminates midSource negativeLanesRequest O).
  reflexivity.
Defined.

(** The sample request is answered with a response. *)
Lemma sampleRequest_returns (src : nat -> R) (c : nat) :
  exists resp c', Simulate src h0 sampleRequest c = (Returned resp, c').
Proof.
  destruct (knownProfile_true (AmbientProfileName sampleRequest) eq_refl)
    as [profile Hp].
  assert (Hn : (0 <= LambdaCount sampleRequest <= maxSliceLen)%Z)
    by (rewrite maxSliceLen_value; simpl; lia).
  destruct (Simulate_runs src h0 sampleRequest c Hp Hn) as (st0 & Hrest).
  do 10 (destruct Hrest as (_ & Hrest)).
  eexists. eexists. exact Hrest.
Qed.

(** The state a response is built from has gone through at least one
    iteration, so it carries clamped values; and it has at least one lane. *)
Lemma Simulate_final_state (src : nat -> R) (req : SimulationRequest) (c : nat)
    (resp : SimulationResponse) (c' : nat) :
  Simulate src h0 req c = (Returned resp, c') ->
  exists st,
    1e-15 <= currentBER st
    /\ 0.1 <= currentEyeMargin st <= 1.5
    /\ lanesOK (biasVoltages st) (lambdaShifts st) (laserPowerAdjust st)
    /\ (1 <= iterations st)%nat
    /\ biasVoltages st <> [] /\ laserPowerAdjust st <> []
    /\ FinalBER resp = currentBER st
    /\ FinalEyeMargin resp = currentEyeMargin st
    /\ Iterations resp = Z.of_nat (iterations st)
    /\ BiasVoltages resp = biasVoltages st
    /\ LambdaShifts resp = lambdaShifts st
    /\ LaserPowerAdjust resp = laserPowerAdjust st
    /\ PowerSavings resp
       = calculatePowerSavings (biasVoltages st) (laserPowerAdjust st).
Proof.
  intros Hsim.
  destruct (Simulate_returned src req c Hsim) as (profile & st0 & n & Hshape).
  cbv zeta in Hshape.
  destruct Hshape as (_ & Hlanes & Lb & _ & Lp & _ & _ & _ & _ & I0 & _ & _ & Hn
                      & _ & _ & Hend).
  destruct n as [| m]; [lia |].
  set (dt := IZR (Duration (setDefaults req profile)) / IZR (MaxIterations h0)) in *.
  set (c0 := (c + 3 * Z.to_nat (LambdaCount (setDefaults req profile)))%nat) in *.
  pose proof (iterN_clamped src h0 profile (TargetBER req) dt m O st0 c0) as C.
  pose proof (iterN_facts src h0 profile (TargetBER req) dt (S m) O st0 c0) as F.
  cbv zeta in C, F.
  destruct C as (Cb & Ce & Cl & _).
  destruct F as (Fb & _ & Fp & _ & _ & Hit & _).
  exists (fst (iterN src h0 profile (TargetBER req) dt (S m) O st0 c0)).
  split; [exact Cb |]. split; [exact Ce |]. split; [exact Cl |].
  split; [lia |].
  split; [intros E; rewrite E in Fb; simpl in Fb; lia |].
  split; [intros E; rewrite E in Fp; simpl in Fp; lia |].
  destruct Hend as [(_ & _ & Hr) | (_ & Hr)]; rewrite Hr; simpl;
    repeat split; reflexivity.
Qed.

(** C5: the per-lane corrections are clamped.  Every pass through the loop
    body, from any state, leaves every bias voltage in [0.8, 1.5], every
    wavelength shift in [-0.1, 0.1] and every laser power adjustment in
    [-2.0, 2.0]; and so are the three vectors of every response. *)
Theorem lane_corrections_clamped (src : nat -> R) :
  (forall (h : HELIOPASSSimulator) (profile : AmbientProfile)
     (targetBER dt : R) (i : nat) (st : LoopState) (c : nat),
     let st' := fst (iteration src h profile targetBER dt i st c) in
     Forall biasOK (biasVoltages st')
     /\ Forall shiftOK (lambdaShifts st')
     /\ Forall powerOK (laserPowerAdjust st'))
  /\ (forall (req : SimulationRequest) (c : nat) (resp : SimulationResponse)
        (c' : nat),
        Simulate src h0 req c = (Returned resp, c') ->
        Forall biasOK (BiasVoltages resp)
        /\ Forall shiftOK (LambdaShifts resp)
        /\ Forall powerOK (LaserPowerAdjust resp)).
Proof.
  split.
  - intros h profile targetBER dt i st c. cbv zeta.
    destruct (iteration_post src h profile targetBER dt i st c)
      as [_ _ Pl _ _ _ _ _ _ _ _ _].
    exact Pl.
  - intros req c resp c' Hsim.
    destruct (Simulate_final_state src req c Hsim)
      as (st & _ & _ & Hl & _ & _ & _ & _ & _ & _ & -> & -> & -> & _).
    exact Hl.
Qed.

Lemma lane_corrections_clamped_witness :
  exists resp c',
    Simulate midSource NewHELIOPASSSimulator sampleRequest O = (Returned resp, c')
    /\ Forall biasOK (BiasVoltages resp)
    /\ Forall shiftOK (LambdaShifts resp)
    /\ Forall powerOK (LaserPowerAdjust resp).
Proof.
  destruct (sampleRequest_returns midSource O) as (resp & c' & Hsim).
  exists resp, c'. split; [exact Hsim |].
  exact (proj2 (lane_corrections_clamped midSource) _ _ _ _ Hsim).
Defined.
(** ** Power savings *)

Lemma sumVoltageSavings_mono (vs vs' : list R) (acc acc' : R) :
  Forall2 Rle vs' vs -> acc <= acc' ->
  sumVoltageSavings acc vs <= sumVoltageSavings acc' vs'.
Proof.
  intros Hvs. revert acc acc'.
  induction Hvs as [| v' v vs' vs Hv _ IH]; intros acc acc' Hacc; simpl.
  - exact Hacc.
  - apply IH. lra.
Qed.

Lemma laserTerm_mono (p p' acc acc' : R) :
  p' <= p -> acc <= acc' ->
  (if flt p 0 then acc + Rabs p * 5.0 else acc)
  <= (if flt p' 0 then acc' + Rabs p' * 5.0 else acc').
Proof.
  intros Hp Hacc. unfold flt.
  destruct (Rlt_dec p 0) as [Hn | Hn]; destruct (Rlt_dec p' 0) as [Hn' | Hn'].
  - rewrite !Rabs_left by assumption. lra.
  - lra.
  - pose proof (Rabs_pos p'). lra.
  - exact Hacc.
Qed.

Lemma sumLaserSavings_mono (ps ps' : list R) (acc acc' : R) :
  Forall2 Rle ps' ps -> acc <= acc' ->
  sumLaserSavings acc ps <= sumLaserSavings acc' ps'.
Proof.
  intros Hps. revert acc acc'.
  induction Hps as [| p' p ps' ps Hp _ IH]; intros acc acc' Hacc; simpl.
  - exact Hacc.
  - apply IH. apply laserTerm_mono; assumption.
Qed.

Lemma divByLen_nonempty (x : R) (A : Type) (s : list A) :
  s <> [] -> divByLen x (List.length s) = Some (x / INR (List.length s)).
Proof.
  intros Hs. destruct s as [| a s]; [contradiction |]. reflexivity.
Qed.

Lemma calculatePowerSavings_nonempty (bias laser : list R) :
  bias <> [] -> laser <> [] ->
  calculatePowerSavings bias laser
  = Some (Rmax 0 (Rmin 20
            (sumVoltageSavings 0.0 bias / INR (List.length bias)
             + sumLaserSavings 0.0 laser / INR (List.length laser)))).
Proof.
  intros Hb Hl. unfold calculatePowerSavings.
  rewrite (divByLen_nonempty _ Hb), (divByLen_nonempty _ Hl). reflexivity.
Qed.

Lemma INR_length_pos (A : Type) (s : list A) : s <> [] -> 0 < INR (List.length s).
Proof.
  intros Hs. destruct s as [| a s]; [contradiction |].
  apply lt_0_INR. simpl. lia.
Qed.

Lemma Forall2_nonempty (A : Type) (P : A -> A -> Prop) (s' s : list A) :
  Forall2 P s' s -> s <> [] -> s' <> [].
Proof. intros H Hs. destruct H; [contradiction | discriminate]. Qed.

(** On empty vectors both averages are 0.0/0.0 and the result is NaN;
    [Simulate] never passes one (see [response_power_savings_bounded]). *)
Lemma power_savings_of_no_lane_is_NaN :
  calculatePowerSavings [] [] = None
  /\ ~ (exists s, calculatePowerSavings [] [] = Some s /\ 0 <= s <= 20).
Proof.
  split; [reflexivity |]. intros (s & Hs & _). discriminate Hs.
Qed.

(** The vectors that [Simulate], the only caller, passes to
    [calculatePowerSavings]: those of the final state, with at least one
    lane, every bias voltage in [0.8, 1.5] and every laser power adjustment
    in [-2, 2]. *)
Lemma power_savings_arguments (src : nat -> R) (req : SimulationRequest)
    (c : nat) (resp : SimulationResponse) (c' : nat) :
  Simulate src NewHELIOPASSSimulator req c = (Returned resp, c') ->
  BiasVoltages resp <> [] /\ LaserPowerAdjust resp <> []
  /\ Forall biasOK (BiasVoltages resp)
  /\ Forall powerOK (LaserPowerAdjust resp)
  /\ PowerSavings resp
     = calculatePowerSavings (BiasVoltages resp) (LaserPowerAdjust resp).
Proof.
  intros Hsim.
  destruct (Simulate_final_state src req c Hsim)
    as (st & _ & _ & (Hb & _ & Hp) & _ & Nb & Nl & _ & _ & _ & -> & _ & -> & ->).
  repeat split; assumption.
Qed.

(** C6: on every pair of vectors that the code passes to
    [calculatePowerSavings] -- at least one lane, every bias voltage within
    [0.8, 1.5] and every laser power adjustment within [-2, 2], as
    [Simulate] leaves them -- the reported savings are a number in [0, 20],
    and they are monotonic: lowering bias voltages or laser power
    adjustments, lane by lane, never decreases them.  Every response
    reports the savings of such a pair. *)
Theorem power_savings_bounded_and_monotonic (bias laser : list R) :
  bias <> [] -> laser <> [] ->
  Forall biasOK bias -> Forall powerOK laser ->
  (exists s,
     calculatePowerSavings bias laser = Some s
     /\ 0 <= s <= 20
     /\ forall bias' laser',
          Forall biasOK bias' -> Forall powerOK laser' ->
          Forall2 Rle bias' bias -> Forall2 Rle laser' laser ->
          exists s', calculatePowerSavings bias' laser' = Some s' /\ s <= s')
  /\ forall (src : nat -> R) (req : SimulationRequest) (c : nat)
        (resp : SimulationResponse) (c' : nat),
       Simulate src NewHELIOPASSSimulator req c = (Returned resp, c') ->
       BiasVoltages resp <> [] /\ LaserPowerAdjust resp <> []
       /\ Forall biasOK (BiasVoltages resp)
       /\ Forall powerOK (LaserPowerAdjust resp)
       /\ PowerSavings resp
          = calculatePowerSavings (BiasVoltages resp) (LaserPowerAdjust resp).
Proof.
  intros Hb Hl _ _. split; [| exact power_savings_arguments].
  eexists. split; [apply calculatePowerSavings_nonempty; assumption |].
  split; [apply clamp_range; lra |].
  intros bias' laser' _ _ Hb' Hl'.
  pose proof (Forall2_nonempty Hb' Hb) as Hnb.
  pose proof (Forall2_nonempty Hl' Hl) as Hnl.
  eexists. split; [apply calculatePowerSavings_nonempty; assumption |].
  apply clamp_mono.
  rewrite (Forall2_length Hb'), (Forall2_length Hl').
  pose proof (INR_length_pos Hb) as Hpb.
  pose proof (INR_length_pos Hl) as Hpl.
  pose proof (sumVoltageSavings_mono Hb' (Rle_refl 0.0)) as Hv.
  pose proof (sumLaserSavings_mono Hl' (Rle_refl 0.0)) as Hs.
  apply Rplus_le_compat; unfold Rdiv; apply Rmult_le_compat_r;
    try assumption; apply Rlt_le, Rinv_0_lt_compat; assumption.
Qed.

Lemma power_savings_bounded_and_monotonic_witness :
  exists s,
    calculatePowerSavings [1.3; 1.2] [0.5; -1] = Some s
    /\ 0 <= s <= 20
    /\ forall bias' laser',
         Forall biasOK bias' -> Forall powerOK laser' ->
         Forall2 Rle bias' [1.3; 1.2] -> Forall2 Rle laser' [0.5; -1] ->
         exists s', calculatePowerSavings bias' laser' = Some s' /\ s <= s'.
Proof.
  refine (proj1 (@power_savings_bounded_and_monotonic [1.3; 1.2] [0.5; -1]
                   _ _ _ _)).
  - discriminate.
  - discriminate.
  - repeat constructor; unfold biasOK; lra.
  - repeat constructor; unfold powerOK; lra.
Defined.

(** In every response the reported savings are a number in [0, 20]. *)
Lemma response_power_savings_bounded (src : nat -> R) (req : SimulationRequest)
    (c : nat) (resp : SimulationResponse) (c' : nat) :
  Simulate src NewHELIOPASSSimulator req c = (Returned resp, c') ->
  exists s, PowerSavings resp = Some s /\ 0 <= s <= 20.
Proof.
  intros Hsim.
  destruct (Simulate_final_state src req c Hsim)
    as (st & _ & _ & _ & _ & Hb & Hl & _ & _ & _ & _ & _ & _ & ->).
  eexists. split; [apply calculatePowerSavings_nonempty; assumption |].
  apply clamp_range. lra.
Qed.
(** ** Errors and defaults *)

(** [Simulate] returns an error exactly for an unknown profile name. *)
Lemma Simulate_fails_iff_unknown_profile (src : nat -> R)
    (h : HELIOPASSSimulator) (req : SimulationRequest) (c : nat) :
  (exists err, fst (Simulate src h req c) = Failed err)
  <-> knownProfile (AmbientProfileName req) = false.
Proof.
  unfold knownProfile.
  destruct (GetAmbientProfiles (AmbientProfileName req)) as [profile |] eqn:Hp.
  - split; [| discriminate]. intros [err Herr]. exfalso.
    destruct (Z.lt_ge_cases (LambdaCount req) 0) as [Hneg | Hnn].
    + rewrite (Simulate_negative src h req c Hp Hneg) in Herr. discriminate.
    + destruct (Z.lt_ge_cases maxSliceLen (LambdaCount req)) as [Hbig | Hmax].
      * rewrite (Simulate_out_of_range src h req c Hp (or_intror Hbig)) in Herr.
        discriminate.
      * destruct (Simulate_runs src h req c Hp (conj Hnn Hmax)) as (st0 & Hrest).
        do 10 (destruct Hrest as (_ & Hrest)).
        rewrite Hrest in Herr. discriminate.
  - split; [reflexivity |]. intros _.
    rewrite (Simulate_unknown src h req c Hp). eexists. reflexivity.
Qed.

(** The defaults put in place of zero-valued fields. *)
Lemma setDefaults_of_zero_fields (req : SimulationRequest)
    (profile : AmbientProfile) :
  let req' := setDefaults req profile in
  (LambdaCount req = 0%Z -> LambdaCount req' = 8%Z)
  /\ (InitialBER req = 0 -> InitialBER req' = 1e-9)
  /\ (InitialEyeMargin req = 0 -> InitialEyeMargin req' = 0.5)
  /\ (Duration req = 0%Z -> Duration req' = 60%Z)
  /\ (LambdaCount req <> 0%Z -> LambdaCount req' = LambdaCount req)
  /\ (InitialBER req <> 0 -> InitialBER req' = InitialBER req)
  /\ (InitialEyeMargin req <> 0 -> InitialEyeMargin req' = InitialEyeMargin req)
  /\ (Duration req <> 0%Z -> Duration req' = Duration req).
Proof.
  cbv zeta. simpl. unfold fzero.
  repeat split; intros H;
    repeat match goal with
    | |- context [Z.eqb ?a ?b] => destruct (Z.eqb_spec a b)
    | |- context [Req_dec_T ?a ?b] => destruct (Req_dec_T a b)
    end; try reflexivity; try contradiction; try lia.
Qed.

(** A request that names a known profile and a lane count that [make] can
    serve is answered with a response over the defaulted lane count. *)
Lemma Simulate_succeeds (src : nat -> R) (req : SimulationRequest) (c : nat) :
  knownProfile (AmbientProfileName req) = true ->
  (0 <= LambdaCount req <= maxSliceLen)%Z ->
  exists resp c',
    Simulate src NewHELIOPASSSimulator req c = (Returned resp, c')
    /\ List.length (BiasVoltages resp)
       = Z.to_nat (if (LambdaCount req =? 0)%Z then 8 else LambdaCount req).
Proof.
  intros Hk Hn. destruct (knownProfile_true _ Hk) as [profile Hp].
  destruct (Simulate_runs src NewHELIOPASSSimulator req c Hp Hn)
    as (st0 & Hrest).
  do 10 (destruct Hrest as (_ & Hrest)).
  eexists. eexists. split; [exact Hrest |].
  destruct (Simulate_returned src req c Hrest) as (profile' & st1 & n & Hshape).
  cbv zeta in Hshape.
  destruct Hshape as (_ & _ & Lb & _ & _ & _ & _ & _ & _ & _ & _ & _ & _
                      & _ & _ & Hend).
  match type of Hend with
  | context [iterN ?s ?h ?p ?t ?d n ?i ?st ?cc] =>
      pose proof (iterN_facts s h p t d n i st cc) as F
  end.
  cbv zeta in F. destruct F as (Fb & _).
  destruct Hend as [(_ & _ & Hr) | (_ & Hr)]; rewrite Hr;
    unfold finalResponse; cbn [BiasVoltages setConverged biasVoltages];
    rewrite Fb, Lb; reflexivity.
Qed.

(** C8, the failing input: with a known profile and lambda_count = -1 the
    creation of the slices panics; [Simulate] returns neither a response nor
    an error. *)
Theorem Simulate_panics_on_negative_lane_count (src : nat -> R) (c : nat) :
  knownProfile (AmbientProfileName negativeLanesRequest) = true
  /\ Simulate src NewHELIOPASSSimulator negativeLanesRequest c
     = (Panicked "makeslice: len out of range", c).
Proof. split; reflexivity. Qed.
(** ** Dependence on the random source *)

Lemma sameDraws_head (src1 src2 : nat -> R) (c1 c2 n : nat) :
  sameDraws src1 c1 src2 c2 (S n) -> src1 c1 = src2 c2.
Proof.
  intros H. specialize (H O). rewrite !Nat.add_0_r in H. apply H. lia.
Qed.

Lemma sameDraws_shift (src1 src2 : nat -> R) (c1 c2 m n : nat) :
  sameDraws src1 c1 src2 c2 (m + n) ->
  sameDraws src1 (c1 + m) src2 (c2 + m) n.
Proof.
  intros H k Hk. rewrite <- !Nat.add_assoc. apply H. lia.
Qed.

Lemma sameDraws_weaken (src1 src2 : nat -> R) (c1 c2 m n : nat) :
  (n <= m)%nat -> sameDraws src1 c1 src2 c2 m -> sameDraws src1 c1 src2 c2 n.
Proof. intros Hle H k Hk. apply H. lia. Qed.

Lemma sameDraws_tail (src1 src2 : nat -> R) (c1 c2 n : nat) :
  sameDraws src1 c1 src2 c2 (S n) -> sameDraws src1 (S c1) src2 (S c2) n.
Proof.
  intros H. pose proof (@sameDraws_shift src1 src2 c1 c2 1 n H) as H'.
  rewrite !Nat.add_1_r in H'. exact H'.
Qed.

(** A range loop that makes one draw per element reads only as many draws
    as the slice has elements. *)
Lemma forRange_sameDraws (g : R -> R -> R) (src1 src2 : nat -> R)
    (s : list R) (c1 c2 : nat) :
  sameDraws src1 c1 src2 c2 (List.length s) ->
  fst (forRange (fun x => bind (rand_Float64 src1) (fun r => ret (g x r))) s c1)
  = fst (forRange (fun x => bind (rand_Float64 src2) (fun r => ret (g x r))) s c2).
Proof.
  set (F1 := fun x => bind (rand_Float64 src1) (fun r => ret (g x r))).
  set (F2 := fun x => bind (rand_Float64 src2) (fun r => ret (g x r))).
  assert (Hcons : forall (F : R -> Rand R) x s c,
             forRange F (x :: s) c
             = (fst (F x c) :: fst (forRange F s (snd (F x c))),
                snd (forRange F s (snd (F x c))))).
  { intros F x s0 c. simpl. unfold bind, ret.
    destruct (F x c) as [y k]. simpl.
    destruct (forRange F s0 k); reflexivity. }
  revert c1 c2. induction s as [| x s IH]; intros c1 c2 H.
  - reflexivity.
  - rewrite !Hcons. simpl fst.
    change (F1 x c1) with (g x (src1 c1), S c1).
    change (F2 x c2) with (g x (src2 c2), S c2).
    simpl fst. simpl snd.
    rewrite (sameDraws_head H), (IH (S c1) (S c2) (sameDraws_tail H)).
    reflexivity.
Qed.

Section SameDraws.

Variables src1 src2 : nat -> R.
Variable h : HELIOPASSSimulator.
Variable profile : AmbientProfile.
Variable targetBER dt : R.

Lemma updateBiasVoltages_sameDraws (vs : list R) (time : R) (c1 c2 : nat) :
  sameDraws src1 c1 src2 c2 (List.length vs) ->
  fst (updateBiasVoltages src1 h vs time profile c1)
  = fst (updateBiasVoltages src2 h vs time profile c2).
Proof.
  intros H. unfold updateBiasVoltages.
  exact (forRange_sameDraws
           (fun v r =>
              Rmax 0.8 (Rmin 1.5
                (v * (1.0 + (Temperature profile - BaseTemperature h) * 0.001)
                   * (1.0 + sin (time * 0.2) * DriftRate profile * 0.1)
                 + (r - 0.5) * 0.01)))
           vs H).
Qed.

Lemma updateLambdaShifts_sameDraws (ss : list R) (time : R) (c1 c2 : nat) :
  sameDraws src1 c1 src2 c2 (List.length ss) ->
  fst (updateLambdaShifts src1 ss time profile c1)
  = fst (updateLambdaShifts src2 ss time profile c2).
Proof.
  intros H. unfold updateLambdaShifts.
  exact (forRange_sameDraws
           (fun s r =>
              Rmax (-0.1) (Rmin 0.1
                (s + sin (time * 0.15) * DriftRate profile * 0.01
                 + (r - 0.5) * 0.001)))
           ss H).
Qed.

Lemma updateLaserPower_sameDraws (ps : list R) (time : R) (c1 c2 : nat) :
  sameDraws src1 c1 src2 c2 (List.length ps) ->
  fst (updateLaserPower src1 h ps time profile c1)
  = fst (updateLaserPower src2 h ps time profile c2).
Proof.
  intros H. unfold updateLaserPower.
  exact (forRange_sameDraws
           (fun p r =>
              Rmax (-2.0) (Rmin 2.0
                (p * (1.0 + (Temperature profile - BaseTemperature h) * 0.0005)
                 + (r - 0.5) * 0.1)))
           ps H).
Qed.

Lemma iteration_sameDraws (i : nat) (st : LoopState) (c1 c2 : nat) :
  sameDraws src1 c1 src2 c2
    (5 + List.length (biasVoltages st) + List.length (lambdaShifts st)
     + List.length (laserPowerAdjust st)) ->
  fst (iteration src1 h profile targetBER dt i st c1)
  = fst (iteration src2 h profile targetBER dt i st c2).
Proof.
  intros H.
  set (nb := List.length (biasVoltages st)) in *.
  set (nl := List.length (lambdaShifts st)) in *.
  set (np := List.length (laserPowerAdjust st)) in *.
  assert (D : forall k, (k < 5 + nb + nl + np)%nat ->
                        src1 (c1 + k)%nat = src2 (c2 + k)%nat) by exact H.
  pose proof (D 0%nat ltac:(lia)) as D0. rewrite !Nat.add_0_r in D0.
  pose proof (D 1%nat ltac:(lia)) as D1.
  replace (c1 + 1)%nat with (S c1) in D1 by lia.
  replace (c2 + 1)%nat with (S c2) in D1 by lia.
  pose proof (D 2%nat ltac:(lia)) as D2.
  replace (c1 + 2)%nat with (S (S c1)) in D2 by lia.
  replace (c2 + 2)%nat with (S (S c2)) in D2 by lia.
  pose proof (D 3%nat ltac:(lia)) as D3.
  replace (c1 + 3)%nat with (S (S (S c1))) in D3 by lia.
  replace (c2 + 3)%nat with (S (S (S c2))) in D3 by lia.
  pose proof (D 4%nat ltac:(lia)) as D4.
  replace (c1 + 4)%nat with (S (S (S (S c1)))) in D4 by lia.
  replace (c2 + 4)%nat with (S (S (S (S c2)))) in D4 by lia.
  assert (Hb : sameDraws src1 (S (S (S (S (S c1))))) src2 (S (S (S (S (S c2))))) nb).
  { intros k Hk. specialize (D (5 + k)%nat ltac:(lia)).
    replace (S (S (S (S (S c1)))) + k)%nat with (c1 + (5 + k))%nat by lia.
    replace (S (S (S (S (S c2)))) + k)%nat with (c2 + (5 + k))%nat by lia.
    exact D. }
  assert (Hl : sameDraws src1 (S (S (S (S (S c1)))) + nb) src2
                 (S (S (S (S (S c2)))) + nb) nl).
  { intros k Hk. specialize (D (5 + nb + k)%nat ltac:(lia)).
    replace (S (S (S (S (S c1)))) + nb + k)%nat with (c1 + (5 + nb + k))%nat by lia.
    replace (S (S (S (S (S c2)))) + nb + k)%nat with (c2 + (5 + nb + k))%nat by lia.
    exact D. }
  assert (Hp : sameDraws src1 (S (S (S (S (S c1)))) + nb + nl) src2
                 (S (S (S (S (S c2)))) + nb + nl) np).
  { intros k Hk. specialize (D (5 + nb + nl + k)%nat ltac:(lia)).
    replace (S (S (S (S (S c1)))) + nb + nl + k)%nat
      with (c1 + (5 + nb + nl + k))%nat by lia.
    replace (S (S (S (S (S c2)))) + nb + nl + k)%nat
      with (c2 + (5 + nb + nl + k))%nat by lia.
    exact D. }
  unfold_measurements.
  pose proof (updateBiasVoltages_sameDraws (biasVoltages st) (INR i * dt) Hb) as Eb.
  pose proof (updateBiasVoltages_spec src1 h profile (biasVoltages st)
                (INR i * dt) (S (S (S (S (S c1)))))) as (_ & Lb1 & Cb1).
  pose proof (updateBiasVoltages_spec src2 h profile (biasVoltages st)
                (INR i * dt) (S (S (S (S (S c2)))))) as (_ & _ & Cb2).
  destruct (updateBiasVoltages src1 h (biasVoltages st) (INR i * dt) profile _)
    as [b1 k1].
  destruct (updateBiasVoltages src2 h (biasVoltages st) (INR i * dt) profile _)
    as [b2 k2].
  simpl in Eb, Cb1, Cb2, Lb1. subst b2 k1 k2.
  pose proof (updateLambdaShifts_sameDraws (lambdaShifts st) (INR i * dt) Hl) as El.
  pose proof (updateLambdaShifts_spec src1 profile (lambdaShifts st)
                (INR i * dt) (S (S (S (S (S c1)))) + nb)) as (_ & _ & Cl1).
  pose proof (updateLambdaShifts_spec src2 profile (lambdaShifts st)
                (INR i * dt) (S (S (S (S (S c2)))) + nb)) as (_ & _ & Cl2).
  fold nb.
  destruct (updateLambdaShifts src1 (lambdaShifts st) (INR i * dt) profile _)
    as [l1 k1].
  destruct (updateLambdaShifts src2 (lambdaShifts st) (INR i * dt) profile _)
    as [l2 k2].
  simpl in El, Cl1, Cl2. subst l2 k1 k2.
  pose proof (updateLaserPower_sameDraws (laserPowerAdjust st) (INR i * dt) Hp) as Ep.
  fold nl.
  destruct (updateLaserPower src1 h (laserPowerAdjust st) (INR i * dt) profile _)
    as [p1 k1].
  destruct (updateLaserPower src2 h (laserPowerAdjust st) (INR i * dt) profile _)
    as [p2 k2].
  simpl in Ep. subst p2. simpl.
  rewrite D0, D1, D2, D3, D4. reflexivity.
Qed.

End SameDraws.
Section SameDrawsRun.

Variables src1 src2 : nat -> R.
Variable h : HELIOPASSSimulator.
Variable profile : AmbientProfile.
Variable targetBER dt : R.

Lemma loop_sameDraws (fuel i : nat) (st : LoopState) (c1 c2 : nat) :
  sameDraws src1 c1 src2 c2
    (fuel * (5 + List.length (biasVoltages st) + List.length (lambdaShifts st)
             + List.length (laserPowerAdjust st))) ->
  fst (loop src1 h profile targetBER dt fuel i st c1)
  = fst (loop src2 h profile targetBER dt fuel i st c2).
Proof.
  revert i st c1 c2. induction fuel as [| fuel IH]; intros i st c1 c2 H.
  - reflexivity.
  - set (d := (5 + List.length (biasVoltages st) + List.length (lambdaShifts st)
               + List.length (laserPowerAdjust st))%nat) in *.
    assert (Hd : sameDraws src1 c1 src2 c2 d).
    { apply (@sameDraws_weaken src1 src2 c1 c2 (S fuel * d)); [simpl; lia | exact H]. }
    pose proof (iteration_sameDraws h profile targetBER dt i st Hd) as Est.
    pose proof (iteration_post src1 h profile targetBER dt i st c1) as P1.
    pose proof (iteration_post src2 h profile targetBER dt i st c2) as P2.
    simpl loop. unfold bind.
    destruct (iteration src1 h profile targetBER dt i st c1) as [st1 k1].
    destruct (iteration src2 h profile targetBER dt i st c2) as [st2 k2].
    simpl in Est, P1, P2. subst st2.
    destruct P1 as [_ _ _ Lb Ll Lp Ck1 _ _ _ _ _].
    destruct P2 as [_ _ _ _ _ _ Ck2 _ _ _ _ _].
    destruct (checkConvergence targetBER st1); [reflexivity |].
    apply IH. rewrite Lb, Ll, Lp. fold d.
    replace k1 with (c1 + d)%nat by (unfold d; lia).
    replace k2 with (c2 + d)%nat by (unfold d; lia).
    apply sameDraws_shift. exact H.
Qed.

Lemma initLanes_sameDraws (bias lambda laser : list R) (c1 c2 : nat) :
  List.length lambda = List.length bias ->
  List.length laser = List.length bias ->
  sameDraws src1 c1 src2 c2 (3 * List.length bias) ->
  fst (initLanes src1 bias lambda laser c1)
  = fst (initLanes src2 bias lambda laser c2).
Proof.
  revert lambda laser c1 c2.
  induction bias as [| x bias IH]; intros lambda laser c1 c2 Hl Hp H.
  - destruct lambda; [| discriminate]. destruct laser; [| discriminate].
    reflexivity.
  - destruct lambda as [| y lambda]; [discriminate |].
    destruct laser as [| z laser]; [discriminate |].
    simpl in Hl, Hp. injection Hl as Hl. injection Hp as Hp.
    replace (3 * List.length (x :: bias))%nat
      with (S (S (S (3 * List.length bias)))) in H by (simpl; lia).
    pose proof (sameDraws_head H) as D0.
    pose proof (sameDraws_head (sameDraws_tail H)) as D1.
    pose proof (sameDraws_head (sameDraws_tail (sameDraws_tail H))) as D2.
    pose proof (sameDraws_tail (sameDraws_tail (sameDraws_tail H))) as Hrest.
    specialize (IH lambda laser (S (S (S c1))) (S (S (S c2))) Hl Hp Hrest).
    simpl initLanes. unfold bind, ret, rand_Float64.
    destruct (initLanes src1 bias lambda laser (S (S (S c1)))) as [[[b1 l1] p1] k1].
    destruct (initLanes src2 bias lambda laser (S (S (S c2)))) as [[[b2 l2] p2] k2].
    simpl in IH. injection IH as -> -> ->. simpl.
    rewrite D0, D1, D2. reflexivity.
Qed.

End SameDrawsRun.

(** The outcome of [Simulate] is a function of the request and of the draws
    the run can make. *)
Lemma Simulate_sameDraws (src1 src2 : nat -> R) (req : SimulationRequest)
    (c1 c2 : nat) :
  sameDraws src1 c1 src2 c2 (drawsOfRun req 50) ->
  fst (Simulate src1 NewHELIOPASSSimulator req c1)
  = fst (Simulate src2 NewHELIOPASSSimulator req c2).
Proof.
  intros H. unfold Simulate.
  destruct (GetAmbientProfiles (AmbientProfileName req)) as [profile |];
    [| reflexivity].
  cbv zeta. unfold make_float64s.
  destruct ((LambdaCount (setDefaults req profile) <? 0)%Z
            || (maxSliceLen <? LambdaCount (setDefaults req profile))%Z);
    [reflexivity |].
  change (LambdaCount (setDefaults req profile))
    with (if (LambdaCount req =? 0)%Z then 8%Z else LambdaCount req) in *.
  fold (effectiveLanes req).
  set (L := effectiveLanes req) in *.
  set (zeros := repeat 0 L).
  assert (Hz : List.length zeros = L) by apply repeat_length.
  unfold drawsOfRun, drawsPerIteration in H. fold L in H.
  assert (Hinit : sameDraws src1 c1 src2 c2 (3 * List.length zeros)).
  { rewrite Hz. eapply sameDraws_weaken; [| exact H]. lia. }
  pose proof (initLanes_sameDraws zeros zeros zeros eq_refl eq_refl Hinit) as Ei.
  pose proof (initLanes_spec src1 zeros zeros zeros c1 eq_refl eq_refl) as S1.
  pose proof (initLanes_spec src2 zeros zeros zeros c2 eq_refl eq_refl) as S2.
  unfold bind at 1 3.
  destruct (initLanes src1 zeros zeros zeros c1) as [[[b1 l1] p1] k1].
  destruct (initLanes src2 zeros zeros zeros c2) as [[[b2 l2] p2] k2].
  simpl in Ei, S1, S2. injection Ei as <- <- <-.
  destruct S1 as (Lb & Ll & Lp & ->). destruct S2 as (_ & _ & _ & ->).
  rewrite Hz in *.
  change (Z.to_nat (MaxIterations NewHELIOPASSSimulator)) with 50%nat.
  set (st0 := initialState (setDefaults req profile) (b1, l1, p1)).
  set (dt := IZR (Duration (setDefaults req profile))
             / IZR (MaxIterations NewHELIOPASSSimulator)).
  assert (Hloop : sameDraws src1 (c1 + 3 * L) src2 (c2 + 3 * L)
                    (50 * (5 + List.length (biasVoltages st0)
                           + List.length (lambdaShifts st0)
                           + List.length (laserPowerAdjust st0)))).
  { simpl biasVoltages. simpl lambdaShifts. simpl laserPowerAdjust.
    rewrite Lb, Ll, Lp. apply sameDraws_shift.
    eapply sameDraws_weaken; [| exact H]. lia. }
  pose proof (loop_sameDraws NewHELIOPASSSimulator profile
                (TargetBER (setDefaults req profile)) dt 50 O st0 Hloop) as El.
  unfold bind, ret.
  destruct (loop src1 _ _ _ _ _ _ _ _) as [s1 k1].
  destruct (loop src2 _ _ _ _ _ _ _ _) as [s2 k2].
  simpl in El. subst s2. reflexivity.
Qed.
(** ** Two calls in a row *)

Section ExactForms.

Variable src : nat -> R.
Variable h : HELIOPASSSimulator.
Variable profile : AmbientProfile.
Variable targetBER dt : R.

(** The measurements of one iteration, written out. *)
Lemma iteration_measurements (i : nat) (st : LoopState) (c : nat) :
  let st' := fst (iteration src h profile targetBER dt i st c) in
  temperatureProfile st'
  = temperatureProfile st
      ++ [{| TPTime := INR i * dt;
             TPTemperature :=
               Temperature profile
               + (sin (INR i * dt * 0.1) * 0.5
                  + (src c - 0.5) * NoiseLevel profile * 2) |}]
  /\ currentBER st'
     = Rmax (targetBER
             + (currentBER st - targetBER)
               * (exp (- INR i * ConvergenceRate h)
                  + (src (S c) - 0.5) * NoiseLevel profile)
             + (sin (INR i * dt * 0.5) * (NoiseLevel profile * 1e-12) * 0.5
                + (src (S (S c)) - 0.5) * (NoiseLevel profile * 1e-12)))
          1e-15.
Proof.
  cbv zeta. unfold_measurements.
  destruct (updateBiasVoltages src h _ _ _ _) as [b k1].
  destruct (updateLambdaShifts src _ _ _ _) as [l k2].
  destruct (updateLaserPower src h _ _ _ _) as [p k3].
  split; reflexivity.
Qed.

Lemma iterN_step (n i : nat) (st : LoopState) (c : nat) :
  iterN src h profile targetBER dt (S n) i st c
  = iterN src h profile targetBER dt n (S i)
      (fst (iteration src h profile targetBER dt i st c))
      (snd (iteration src h profile targetBER dt i st c)).
Proof.
  simpl iterN. unfold bind.
  destruct (iteration src h profile targetBER dt i st c); reflexivity.
Qed.

(** Iterations only append to the temperature profile. *)
Lemma iterN_temperature_prefix (n i : nat) (st : LoopState) (c : nat) :
  exists rest,
    temperatureProfile (fst (iterN src h profile targetBER dt n i st c))
    = temperatureProfile st ++ rest.
Proof.
  revert i st c. induction n as [| n IH]; intros i st c.
  - exists []. simpl. rewrite app_nil_r. reflexivity.
  - rewrite iterN_step.
    destruct (IH (S i) (fst (iteration src h profile targetBER dt i st c))
                (snd (iteration src h profile targetBER dt i st c)))
      as [rest Hrest].
    rewrite Hrest.
    destruct (iteration_post src h profile targetBER dt i st c)
      as [_ _ _ _ _ _ _ [t Ht] _ _ _ _].
    rewrite Ht. rewrite <- app_assoc. eexists. reflexivity.
Qed.

Lemma iterN_first_temperature (n i : nat) (st : LoopState) (c : nat) :
  temperatureProfile st = [] ->
  exists rest,
    temperatureProfile (fst (iterN src h profile targetBER dt (S n) i st c))
    = {| TPTime := INR i * dt;
         TPTemperature :=
           Temperature profile
           + (sin (INR i * dt * 0.1) * 0.5
              + (src c - 0.5) * NoiseLevel profile * 2) |} :: rest.
Proof.
  intros Hnil. rewrite iterN_step.
  destruct (iterN_temperature_prefix n (S i)
              (fst (iteration src h profile targetBER dt i st c))
              (snd (iteration src h profile targetBER dt i st c)))
    as [rest Hrest].
  rewrite Hrest.
  destruct (iteration_measurements i st c) as [Ht _].
  rewrite Ht, Hnil. simpl. eexists. reflexivity.
Qed.

End ExactForms.

(** The cursor after a run, and the first temperature sample of the
    response. *)
Lemma Simulate_draws (src : nat -> R) (req : SimulationRequest) (c : nat)
    (resp : SimulationResponse) (c' : nat) :
  Simulate src NewHELIOPASSSimulator req c = (Returned resp, c') ->
  c' = (c + drawsOfRun req (Z.to_nat (Iterations resp)))%nat
  /\ (1 <= Z.to_nat (Iterations resp))%nat
  /\ exists profile,
       GetAmbientProfiles (AmbientProfileName req) = Some profile
       /\ let dt := IZR (Duration (setDefaults req profile))
                    / IZR (MaxIterations NewHELIOPASSSimulator) in
          hd_error (TemperatureProfile resp)
          = Some {| TPTime := INR 0 * dt;
                    TPTemperature :=
                      Temperature profile
                      + (sin (INR 0 * dt * 0.1) * 0.5
                         + (src (c + 3 * effectiveLanes req)%nat - 0.5)
                           * NoiseLevel profile * 2) |}.
Proof.
  intros Hsim.
  destruct (Simulate_returned src req c Hsim) as (profile & st0 & n & Hshape).
  cbv zeta in Hshape.
  change (LambdaCount (setDefaults req profile))
    with (if (LambdaCount req =? 0)%Z then 8%Z else LambdaCount req) in Hshape.
  fold (effectiveLanes req) in Hshape.
  destruct Hshape as (Hp & _ & Lb & Ll & Lp & _ & _ & T0 & _ & I0 & _ & _ & Hn
                      & _ & Hc' & Hend).
  set (dt := IZR (Duration (setDefaults req profile))
             / IZR (MaxIterations NewHELIOPASSSimulator)) in *.
  set (c0 := (c + 3 * effectiveLanes req)%nat) in *.
  pose proof (iterN_facts src NewHELIOPASSSimulator profile (TargetBER req) dt
                n O st0 c0) as F.
  cbv zeta in F. destruct F as (_ & _ & _ & Fc & _ & Fi & _).
  rewrite Lb, Ll, Lp in Fc. rewrite I0 in Fi. simpl in Fi.
  destruct n as [| m]; [lia |].
  destruct (iterN_first_temperature src NewHELIOPASSSimulator profile
              (TargetBER req) dt m O st0 c0 T0) as [rest Hrest].
  assert (Hit : Z.to_nat (Iterations resp) = S m).
  { destruct Hend as [(_ & _ & Hr) | (_ & Hr)]; rewrite Hr;
      unfold finalResponse; cbn [Iterations setConverged iterations];
      rewrite Fi; lia. }
  rewrite Hit. split.
  - rewrite Hc', Fc. unfold drawsOfRun, drawsPerIteration, c0. lia.
  - split; [lia |]. exists profile. split; [exact Hp |]. cbv zeta. fold dt.
    assert (Htp : TemperatureProfile resp
                  = temperatureProfile
                      (fst (iterN src NewHELIOPASSSimulator profile
                              (TargetBER req) dt (S m) O st0 c0))).
    { destruct Hend as [(_ & _ & Hr) | (_ & Hr)]; rewrite Hr; reflexivity. }
    rewrite Htp, Hrest. reflexivity.
Qed.

(** C9 (as stated) fails: two calls in a row with the same request draw
    from the generator one after the other, and their responses differ
    (here already in the first temperature sample). *)
Lemma successive_calls_differ :
  let first := Simulate spikeSource NewHELIOPASSSimulator sampleRequest O in
  let second :=
    Simulate spikeSource NewHELIOPASSSimulator sampleRequest (snd first) in
  fst first <> fst second.
Proof.
  cbv zeta.
  destruct (sampleRequest_returns spikeSource O) as (r1 & k1 & H1).
  rewrite H1. simpl snd.
  destruct (sampleRequest_returns spikeSource k1) as (r2 & k2 & H2).
  rewrite H2. simpl fst. intros E. injection E as E. subst r2.
  destruct (Simulate_draws spikeSource sampleRequest O H1)
    as (Hk1 & Hn1 & p1 & Hp1 & Hhd1).
  destruct (Simulate_draws spikeSource sampleRequest k1 H2)
    as (_ & _ & p2 & Hp2 & Hhd2).
  rewrite Hp1 in Hp2. injection Hp2 as <-.
  cbv zeta in Hhd1, Hhd2. rewrite Hhd1 in Hhd2.
  injection Hhd2 as Heq.
  cbv [GetAmbientProfiles ambientProfiles lookupProfile String.eqb Ascii.eqb
         Bool.eqb AmbientProfileName sampleRequest] in Hp1.
  injection Hp1 as <-.
  change (effectiveLanes sampleRequest) with 8%nat in *.
  assert (S1 : spikeSource 24 = 0) by reflexivity.
  assert (S2 : spikeSource (k1 + 24) = 0.5).
  { unfold spikeSource. destruct (Nat.eqb_spec (k1 + 24) 24) as [Hk | _];
      [| reflexivity].
    unfold drawsOfRun in Hk1.
    change (effectiveLanes sampleRequest) with 8%nat in Hk1. lia. }
  rewrite S1, S2 in Heq. cbn [NoiseLevel] in Heq. lra.
Qed.

(** C9 (amended): [Simulate] is deterministic in the request and the draws.
    Two calls with the same request whose generators deliver the same
    draws, as many as the longest run can take, produce the same outcome;
    and a call that returns has taken, and moved the generator past, three
    draws per lane plus [drawsPerIteration] for each of its iterations, at
    least one. *)
Theorem Simulate_deterministic_in_request_and_draws (src1 src2 : nat -> R)
    (req : SimulationRequest) (c1 c2 : nat) :
  sameDraws src1 c1 src2 c2 (drawsOfRun req 50) ->
  fst (Simulate src1 NewHELIOPASSSimulator req c1)
  = fst (Simulate src2 NewHELIOPASSSimulator req c2)
  /\ forall resp c1',
       Simulate src1 NewHELIOPASSSimulator req c1 = (Returned resp, c1') ->
       c1' = (c1 + drawsOfRun req (Z.to_nat (Iterations resp)))%nat
       /\ (c1 < c1')%nat.
Proof.
  intros H. split; [apply Simulate_sameDraws; exact H |].
  intros resp c1' Hsim.
  destruct (Simulate_draws src1 req c1 Hsim) as (Hc & Hn & _).
  split; [exact Hc |]. rewrite Hc. unfold drawsOfRun, drawsPerIteration. nia.
Qed.

Lemma Simulate_deterministic_in_request_and_draws_witness :
  fst (Simulate midSource NewHELIOPASSSimulator sampleRequest 0%nat)
  = fst (Simulate midSource NewHELIOPASSSimulator sampleRequest 7%nat)
  /\ forall resp c1',
       Simulate midSource NewHELIOPASSSimulator sampleRequest 0%nat
       = (Returned resp, c1') ->
       c1' = (0 + drawsOfRun sampleRequest (Z.to_nat (Iterations resp)))%nat
       /\ (0 < c1')%nat.
Proof.
  apply (@Simulate_deterministic_in_request_and_draws
           midSource midSource sampleRequest 0 7).
  intros k Hk. reflexivity.
Defined.
(** ** Convergence report *)

Lemma checkConvergence_true (targetBER : R) (st : LoopState) :
  checkConvergence targetBER st = true
  <-> targetsMet targetBER (currentBER st) (currentEyeMargin st).
Proof.
  unfold checkConvergence, targetsMet, fle.
  destruct (Rle_dec (currentBER st) (targetBER * 1.1));
    destruct (Rle_dec 0.7 (currentEyeMargin st)); simpl;
    split; intros H; try discriminate; try reflexivity;
    try (split; assumption); destruct H; contradiction.
Qed.

Lemma checkConvergence_false (targetBER : R) (st : LoopState) :
  checkConvergence targetBER st = false
  <-> ~ targetsMet targetBER (currentBER st) (currentEyeMargin st).
Proof.
  rewrite <- checkConvergence_true.
  destruct (checkConvergence targetBER st); split; intros H;
    try discriminate; try reflexivity.
  exfalso. apply H. reflexivity.
Qed.

Lemma nth_error_map_seq (A : Type) (f : nat -> A) (n k : nat) :
  (k < n)%nat -> nth_error (map f (seq 0 n)) k = Some (f k).
Proof.
  intros Hk. rewrite nth_error_map, nth_error_seq.
  destruct (Nat.ltb_spec k n); [reflexivity | lia].
Qed.

Section Profiles.

Variable src : nat -> R.
Variable h : HELIOPASSSimulator.
Variable profile : AmbientProfile.
Variable targetBER dt : R.

Local Abbreviation run := (iterN src h profile targetBER dt).

(** The profiles record the measurements of each iteration, in order. *)
Lemma iterN_profiles (n i : nat) (st : LoopState) (c : nat) :
  berProfile (fst (run n i st c))
  = berProfile st
      ++ map (fun k => {| BPTime := INR (i + k) * dt;
                          BER := currentBER (fst (run (S k) i st c)) |})
           (seq 0 n)
  /\ eyeMarginProfile (fst (run n i st c))
     = eyeMarginProfile st
         ++ map (fun k => {| EPTime := INR (i + k) * dt;
                             EyeMargin :=
                               currentEyeMargin (fst (run (S k) i st c)) |})
              (seq 0 n).
Proof.
  induction n as [| n [IHb IHe]].
  - simpl. rewrite !app_nil_r. split; reflexivity.
  - pose proof (iteration_post src h profile targetBER dt (i + n)%nat
                  (fst (run n i st c)) (snd (run n i st c))) as P.
    rewrite <- iterN_snoc in P.
    destruct P as [_ _ _ _ _ _ _ _ Pb Pe _ _].
    rewrite Pb, Pe, IHb, IHe, seq_S, !map_app, <- !app_assoc.
    split; reflexivity.
Qed.

End Profiles.

(** C4 (amended): a response says converged exactly when both final
    conditions hold, final BER <= target * 1.1 and final eye margin >= 0.7;
    the loop went on after every earlier iteration because the two did not
    hold together there; a run that is not converged has used all 50
    iterations and carries status partial_convergence; and in either case
    the BER and eye margin returned are those of the last iteration, the
    last entries of the two profiles. *)
Theorem convergence_is_reported_faithfully (src : nat -> R)
    (req : SimulationRequest) (c : nat) (resp : SimulationResponse) (c' : nat) :
  Simulate src NewHELIOPASSSimulator req c = (Returned resp, c') ->
  (Converged resp = true
   <-> targetsMet (TargetBER req) (FinalBER resp) (FinalEyeMargin resp))
  /\ Status resp
     = (if Converged resp then "converged" else "partial_convergence")
  /\ (Converged resp = false -> Iterations resp = 50%Z)
  /\ (exists front t,
        BERProfile resp = front ++ [{| BPTime := t; BER := FinalBER resp |}])
  /\ (exists front t,
        EyeMarginProfile resp
        = front ++ [{| EPTime := t; EyeMargin := FinalEyeMargin resp |}])
  /\ (forall k ber eye,
        (Z.of_nat k + 1 < Iterations resp)%Z ->
        nth_error (map BER (BERProfile resp)) k = Some ber ->
        nth_error (map EyeMargin (EyeMarginProfile resp)) k = Some eye ->
        ~ targetsMet (TargetBER req) ber eye).
Proof.
  intros Hsim.
  destruct (Simulate_returned src req c Hsim) as (profile & st0 & n & Hshape).
  cbv zeta in Hshape.
  destruct Hshape as (_ & _ & _ & _ & _ & BP0 & EP0 & _ & C0 & I0 & _ & _ & Hn
                      & Hbefore & _ & Hend).
  set (dt := IZR (Duration (setDefaults req profile))
             / IZR (MaxIterations NewHELIOPASSSimulator)) in *.
  set (c0 := (c + 3 * Z.to_nat (LambdaCount (setDefaults req profile)))%nat) in *.
  set (run := iterN src NewHELIOPASSSimulator profile (TargetBER req) dt) in *.
  destruct n as [| m]; [lia |].
  pose proof (iterN_facts src NewHELIOPASSSimulator profile (TargetBER req) dt
                (S m) O st0 c0) as F.
  cbv zeta in F. fold run in F.
  destruct F as (_ & _ & _ & _ & Fc & Fi & _).
  rewrite C0 in Fc. rewrite I0, Nat.add_0_l in Fi.
  pose proof (iterN_clamped src NewHELIOPASSSimulator profile (TargetBER req) dt
                m O st0 c0) as C.
  cbv zeta in C. fold run in C.
  destruct C as (_ & _ & _ & [fb Hfb] & [fe Hfe]).
  destruct (iterN_profiles src NewHELIOPASSSimulator profile (TargetBER req) dt
              (S m) O st0 c0) as [Pb Pe].
  fold run in Pb, Pe. rewrite BP0 in Pb. rewrite EP0 in Pe.
  rewrite app_nil_l in Pb, Pe.
  assert (Hearlier : forall k ber eye,
             (k + 1 < S m)%nat ->
             nth_error (map BER (berProfile (fst (run (S m) O st0 c0)))) k
             = Some ber ->
             nth_error (map EyeMargin
                          (eyeMarginProfile (fst (run (S m) O st0 c0)))) k
             = Some eye ->
             ~ targetsMet (TargetBER req) ber eye).
  { intros k ber eye Hk Hb He.
    rewrite Pb, map_map in Hb. rewrite Pe, map_map in He.
    rewrite nth_error_map_seq in Hb by lia.
    rewrite nth_error_map_seq in He by lia.
    cbn [BER EyeMargin] in Hb, He.
    injection Hb as <-. injection He as <-.
    apply checkConvergence_false. apply (Hbefore (S k)). lia. }
  destruct Hend as [(Hfull & Hlast & Hr) | (Hlast & Hr)]; rewrite Hr;
    unfold finalResponse;
    cbn [Converged Status FinalBER FinalEyeMargin Iterations BERProfile
         EyeMarginProfile setConverged converged currentBER currentEyeMargin
         iterations berProfile eyeMarginProfile].
  - rewrite Fc. split.
    { split; [discriminate |]. intros Hmet.
      apply checkConvergence_false in Hlast. contradiction. }
    split; [reflexivity |].
    split; [intros _; rewrite Fi, Hfull; reflexivity |].
    split; [exists fb; eexists; exact Hfb |].
    split; [exists fe; eexists; exact Hfe |].
    intros k ber eye Hk. apply Hearlier. rewrite Fi in Hk. lia.
  - split.
    { split; [intros _; apply checkConvergence_true; exact Hlast | reflexivity]. }
    split; [reflexivity |].
    split; [discriminate |].
    split; [exists fb; eexists; exact Hfb |].
    split; [exists fe; eexists; exact Hfe |].
    intros k ber eye Hk. apply Hearlier. rewrite Fi in Hk. lia.
Qed.

Lemma convergence_is_reported_faithfully_witness :
  exists resp c',
    Simulate midSource NewHELIOPASSSimulator sampleRequest O = (Returned resp, c')
    /\ (Converged resp = true
        <-> targetsMet (TargetBER sampleRequest) (FinalBER resp)
              (FinalEyeMargin resp))
    /\ Status resp
       = (if Converged resp then "converged" else "partial_convergence").
Proof.
  destruct (sampleRequest_returns midSource O) as (resp & c' & Hsim).
  exists resp, c'. split; [exact Hsim |].
  destruct (convergence_is_reported_faithfully _ _ _ Hsim) as (H1 & H2 & _).
  split; assumption.
Defined.

(** With a target below the BER floor the check can never succeed, and the
    loop runs all its iterations. *)
Lemma loop_never_converges (src : nat -> R) (h : HELIOPASSSimulator)
    (profile : AmbientProfile) (targetBER dt : R) (fuel i : nat)
    (st : LoopState) (c : nat) :
  targetBER * 1.1 < 1e-15 ->
  loop src h profile targetBER dt fuel i st c
  = iterN src h profile targetBER dt fuel i st c.
Proof.
  intros Ht.
  destruct (loop_iterN src h profile targetBER dt fuel i st c)
    as (n & Hn & _ & [(-> & _ & Heq) | (Hpos & Hlast & _)]).
  - exact Heq.
  - exfalso. destruct n as [| m]; [lia |].
    apply checkConvergence_true in Hlast. destruct Hlast as [Hb _].
    pose proof (iterN_clamped src h profile targetBER dt m i st c) as C.
    cbv zeta in C. destruct C as (Cb & _). lra.
Qed.

Lemma exp_neg_384_small : exp (- INR 48 * 0.8) < 0.025.
Proof.
  assert (E : - INR 48 * 0.8 = - (19.2 + 19.2)).
  { rewrite INR_IZR_INZ. simpl Z.of_nat. lra. }
  rewrite E, exp_Ropp, exp_plus.
  assert (H : 20.2 < exp 19.2).
  { pose proof (exp_ineq1 19.2 ltac:(lra)). lra. }
  assert (Hsq : 400 < exp 19.2 * exp 19.2) by nra.
  assert (Hinv : / (exp 19.2 * exp 19.2) < / 400).
  { apply Rinv_lt_contravar; [nra | exact Hsq]. }
  lra.
Qed.

Lemma sin_049_nonneg (dt : R) :
  dt = 1 / 50 -> 0 <= sin (INR 49 * dt * 0.5).
Proof.
  intros ->. rewrite INR_IZR_INZ. simpl Z.of_nat.
  pose proof PI2_1. apply sin_ge_0; lra.
Qed.

(** The last two iterations of the run of [stuckRequest] on
    [lateNoiseSource]: iteration 48 lands on the BER floor, iteration 49
    moves away from it. *)
Lemma late_noise_run (profile : AmbientProfile) (dt : R) (st0 : LoopState) :
  NoiseLevel profile = 0.05 ->
  dt = 1 / 50 ->
  List.length (biasVoltages st0) = 1%nat ->
  List.length (lambdaShifts st0) = 1%nat ->
  List.length (laserPowerAdjust st0) = 1%nat ->
  berProfile st0 = [] ->
  let final :=
    fst (iterN lateNoiseSource NewHELIOPASSSimulator profile 0 dt 50 O st0 3%nat) in
  exists earlier,
    nth_error (berProfile final) 48%nat = Some earlier
    /\ BER earlier = 1e-15
    /\ 2e-14 <= currentBER final.
Proof.
  intros Hnl Hdt Lb Ll Lp BP0. cbv zeta.
  set (run := iterN lateNoiseSource NewHELIOPASSSimulator profile 0 dt).
  pose proof (iterN_snoc lateNoiseSource NewHELIOPASSSimulator profile 0 dt
                49%nat O st0 3%nat) as E50.
  pose proof (iterN_snoc lateNoiseSource NewHELIOPASSSimulator profile 0 dt
                48%nat O st0 3%nat) as E49.
  fold run in E50, E49. simpl Nat.add in E50, E49.
  pose proof (iterN_facts lateNoiseSource NewHELIOPASSSimulator profile 0 dt
                48%nat O st0 3%nat) as F48.
  pose proof (iterN_facts lateNoiseSource NewHELIOPASSSimulator profile 0 dt
                49%nat O st0 3%nat) as F49.
  pose proof (iterN_clamped lateNoiseSource NewHELIOPASSSimulator profile 0 dt
                47%nat O st0 3%nat) as C48.
  cbv zeta in F48, F49, C48. fold run in F48, F49, C48.
  rewrite Lb, Ll, Lp, BP0 in F48, F49.
  destruct F48 as (_ & _ & _ & K48 & _ & _ & LB48 & _).
  destruct F49 as (_ & _ & _ & K49 & _ & _ & LB49 & _).
  destruct C48 as (B48 & _).
  set (s48 := fst (run 48%nat O st0 3%nat)) in *.
  set (s49 := fst (run 49%nat O st0 3%nat)) in *.
  pose proof (iteration_measurements lateNoiseSource NewHELIOPASSSimulator
                profile 0 dt 48%nat s48 (snd (run 48%nat O st0 3%nat))) as M49.
  pose proof (iteration_post lateNoiseSource NewHELIOPASSSimulator
                profile 0 dt 48%nat s48 (snd (run 48%nat O st0 3%nat))) as P49.
  rewrite <- E49 in M49, P49. fold s49 in M49, P49.
  pose proof (iteration_measurements lateNoiseSource NewHELIOPASSSimulator
                profile 0 dt 49%nat s49 (snd (run 49%nat O st0 3%nat))) as M50.
  pose proof (iteration_post lateNoiseSource NewHELIOPASSSimulator
                profile 0 dt 49%nat s49 (snd (run 49%nat O st0 3%nat))) as P50.
  rewrite <- E50 in M50, P50.
  set (s50 := fst (run 50%nat O st0 3%nat)) in *.
  cbv zeta in M49, M50. destruct M49 as [_ M49]. destruct M50 as [_ M50].
  destruct P49 as [_ _ _ _ _ _ _ _ PB49 _ _ _].
  destruct P50 as [_ _ _ _ _ _ _ _ PB50 _ _ _].
  rewrite K48 in M49. rewrite K49 in M50.
  assert (D388 : lateNoiseSource (S (3 + 48 * (5 + 1 + 1 + 1))) = 0)
    by reflexivity.
  assert (D389 : lateNoiseSource (S (S (3 + 48 * (5 + 1 + 1 + 1)))) = 0)
    by reflexivity.
  assert (D396 : lateNoiseSource (S (3 + 49 * (5 + 1 + 1 + 1))) = 0.5)
    by reflexivity.
  assert (D397 : lateNoiseSource (S (S (3 + 49 * (5 + 1 + 1 + 1)))) = 0.9)
    by reflexivity.
  rewrite D388, D389, Hnl in M49. rewrite D396, D397, Hnl in M50.
  change (ConvergenceRate NewHELIOPASSSimulator) with 0.8 in M49, M50.
  assert (B49 : currentBER s49 = 1e-15).
  { rewrite M49. apply Rmax_right.
    pose proof exp_neg_384_small as He.
    pose proof (SIN_bound (INR 48 * dt * 0.5)) as [_ Hs].
    set (e := exp (- INR 48 * 0.8)) in *.
    set (sn := sin (INR 48 * dt * 0.5)) in *.
    set (b := currentBER s48) in *.
    assert (Hprod : b * (e + (0 - 0.5) * 0.05) <= 0) by nra.
    lra. }
  assert (B50 : 2e-14 <= currentBER s50).
  { rewrite M50, B49.
    pose proof (exp_pos (- INR 49 * 0.8)) as He.
    pose proof (sin_049_nonneg Hdt) as Hs.
    set (e := exp (- INR 49 * 0.8)) in *.
    set (sn := sin (INR 49 * dt * 0.5)) in *.
    eapply Rle_trans; [| apply Rmax_l]. nra. }
  exists {| BPTime := INR 48 * dt; BER := currentBER s49 |}.
  split; [| split; [exact B49 | exact B50]].
  rewrite PB50, PB49.
  rewrite nth_error_app1 by (rewrite length_app, LB48; simpl; lia).
  rewrite nth_error_app2 by (rewrite LB48; simpl; lia).
  rewrite LB48. reflexivity.
Qed.

(** C4 (as stated) fails in its "best-achieved" part: on this run, which
    never meets a target BER of 0 and ends as partial_convergence after 50
    iterations, iteration 48 measured a BER of 1e-15, yet the response
    carries the larger BER of iteration 49. *)
Lemma last_iteration_is_not_the_best :
  exists resp c',
    Simulate lateNoiseSource NewHELIOPASSSimulator stuckRequest O
    = (Returned resp, c')
    /\ Converged resp = false
    /\ Status resp = "partial_convergence"
    /\ Iterations resp = 50%Z
    /\ exists earlier,
         nth_error (BERProfile resp) 48 = Some earlier
         /\ BER earlier < FinalBER resp.
Proof.
  destruct (Simulate_runs lateNoiseSource NewHELIOPASSSimulator stuckRequest O
              (profile := _) eq_refl
              ltac:(rewrite maxSliceLen_value; simpl; lia)) as (st0 & Hrun).
  cbv zeta in Hrun.
  match type of Hrun with
  | context [loop _ _ ?p _ _ _ _ _ _] => set (profile := p) in *
  end.
  match type of Hrun with
  | context [loop _ _ _ _ ?d _ _ _ _] => set (dt := d) in *
  end.
  change (Z.to_nat (LambdaCount (setDefaults stuckRequest profile)))
    with 1%nat in Hrun.
  change (Z.to_nat (MaxIterations NewHELIOPASSSimulator)) with 50%nat in Hrun.
  change (TargetBER stuckRequest) with 0 in Hrun.
  change (0 + 3 * 1)%nat with 3%nat in Hrun.
  destruct Hrun as (Lb & Ll & Lp & _ & _ & _ & BP0 & _ & C0 & I0 & Hsim).
  rewrite (loop_never_converges lateNoiseSource NewHELIOPASSSimulator profile
             dt 50 O st0 3 (targetBER := 0) ltac:(lra)) in Hsim.
  assert (Hdt : dt = 1 / 50) by reflexivity.
  destruct (late_noise_run profile st0 eq_refl Hdt Lb Ll Lp BP0)
    as (earlier & Hnth & Hearly & Hfinal).
  pose proof (iterN_facts lateNoiseSource NewHELIOPASSSimulator profile 0 dt
                50 O st0 3) as F.
  cbv zeta in F. destruct F as (_ & _ & _ & _ & Fc & Fi & _).
  rewrite C0 in Fc. rewrite I0 in Fi.
  eexists. eexists. split; [exact Hsim |].
  unfold finalResponse.
  cbn [Converged Status Iterations BERProfile FinalBER].
  rewrite Fc, Fi.
  split; [reflexivity |]. split; [reflexivity |]. split; [reflexivity |].
  exists earlier. split; [exact Hnth |]. lra.
Qed.
End HeliopassProps.

(* ================================================================= *)
(** * Further properties of the memqosd skeleton and of its callers *)
(* ================================================================= *)

Module MemqosdMore.
Import Memqosd.

Local Open Scope string_scope.
Local Open Scope list_scope.
Local Open Scope Z_scope.

Lemma serve_cases (r : Request) :
  (URLPath r = "/v1/ffm/alloc"
   /\ ((exists req, Body r = DecodeOK req /\ serve r = theGrant)
       \/ (exists err, Body r = DecodeError err
                       /\ serve r = HttpError 400 err)))
  \/ (URLPath r <> "/v1/ffm/alloc"
      /\ serve r = HttpError 404 "404 page not found").
Proof.
  unfold serve, handlers, findHandler.
  destruct (String.eqb_spec "/v1/ffm/alloc" (URLPath r)) as [E | N].
  - left. split; [symmetry; exact E |]. unfold ffmAlloc.
    destruct (Body r) as [err | req].
    + right. exists err. split; reflexivity.
    + left. exists req. split; reflexivity.
  - right. split; [| reflexivity]. intros E. apply N. symmetry. exact E.
Qed.

(** X1: the skeleton grants exactly the requests whose URL path is
    /v1/ffm/alloc and whose body decodes.  On that path the HTTP method
    plays no part: a GET or a DELETE is answered like a POST, with the
    fixed grant, or with status 400 and the decoder's error. *)
Theorem skeleton_answers (r : Request) :
  (isGrant (serve r) = true
   <-> URLPath r = "/v1/ffm/alloc" /\ exists req, Body r = DecodeOK req)
  /\ forall (m : string) (body : Decoded),
       serve {| Method := m; URLPath := "/v1/ffm/alloc"; Body := body |}
       = match body with
         | DecodeOK _ => theGrant
         | DecodeError err => HttpError 400 err
         end.
Proof.
  split.
  - destruct (serve_cases r)
      as [(Hp & [(req & Hb & Hs) | (err & Hb & Hs)]) | (Hp & Hs)];
      rewrite Hs; simpl; split; intros H; try discriminate.
    + split; [exact Hp | exists req; exact Hb].
    + reflexivity.
    + destruct H as (_ & req & Hreq). rewrite Hb in Hreq. discriminate.
    + destruct H as (Hp' & _). contradiction.
  - intros m body. destruct body; reflexivity.
Qed.

End MemqosdMore.

Module FFMClientProps.
Import FFMClient.

Local Open Scope string_scope.
Local Open Scope list_scope.
Local Open Scope Z_scope.

(** X2: [Allocate] of the SDK never succeeds against the skeleton.  The daemon
    answers 200 where the client expects 201 Created, so even a granted
    allocation comes back as an HTTP status error carrying the grant; a
    request the daemon cannot decode comes back as the 400. *)
Theorem Allocate_fails_on_skeleton
    (wire : AllocateRequest -> Memqosd.Decoded)
    (decodeHandle : Memqosd.Response -> Handle * option string)
    (req : AllocateRequest) :
  (exists q,
     wire req = Memqosd.DecodeOK q
     /\ Allocate (skeletonPost wire) decodeHandle req
        = (None, Some (HTTPStatusError 200 Memqosd.theGrant)))
  \/ (exists err,
        wire req = Memqosd.DecodeError err
        /\ Allocate (skeletonPost wire) decodeHandle req
           = (None, Some (HTTPStatusError 400 (Memqosd.HttpError 400 err)))).
Proof.
  unfold Allocate, skeletonPost.
  destruct (wire req) as [err | q] eqn:Hw.
  - right. exists err. split; [reflexivity |].
    reflexivity.
  - left. exists q. split; [reflexivity |].
    reflexivity.
Qed.

Lemma plainSegments_id (id rest : string) (segment : bool) :
  allPlain id = true ->
  plainSegments segment (id ++ rest)
  = plainSegments (segment || negb (String.eqb id "")) rest.
Proof.
  revert segment. induction id as [| a id IH]; intros segment Hid.
  - simpl. rewrite orb_false_r. reflexivity.
  - simpl in Hid. apply andb_prop in Hid. destruct Hid as [Ha Hid].
    cbn [append plainSegments].
    assert (Hs : Ascii.eqb a "/"%char = false).
    { destruct (Ascii.eqb_spec a "/"%char) as [-> |]; [discriminate Ha |].
      reflexivity. }
    rewrite Hs, Ha, (IH true Hid). cbn [andb orb]. rewrite orb_true_r.
    reflexivity.
Qed.

Lemma append_empty_r (s : string) : (s ++ "")%string = s.
Proof.
  induction s as [| a s IH]; simpl; [reflexivity | rewrite IH; reflexivity].
Qed.

Lemma plainID_path (id : string) :
  plainID id = true -> plainPath ("/v1/ffm/" ++ id) = true.
Proof.
  unfold plainID. intros H. apply andb_prop in H. destruct H as [Hne Hid].
  change (plainPath ("/v1/ffm/" ++ id)) with (plainSegments false id).
  rewrite <- (append_empty_r id) at 1.
  rewrite (@plainSegments_id id "" false Hid), Hne. reflexivity.
Qed.

Lemma plainID_telemetry_path (id : string) :
  plainID id = true -> plainPath ("/v1/ffm/" ++ id ++ "/telemetry") = true.
Proof.
  unfold plainID. intros H. apply andb_prop in H. destruct H as [Hne Hid].
  change (plainPath ("/v1/ffm/" ++ id ++ "/telemetry"))
    with (plainSegments false (id ++ "/telemetry")).
  rewrite (@plainSegments_id id "/telemetry" false Hid), Hne. reflexivity.
Qed.

Lemma length_append (s1 s2 : string) :
  String.length (s1 ++ s2) = (String.length s1 + String.length s2)%nat.
Proof.
  induction s1 as [| a s1 IH]; simpl; [reflexivity | rewrite IH; reflexivity].
Qed.

(** What the skeleton answers to the two GETs of the client. *)
Lemma serve_handle_path (m : string) (body : Memqosd.Decoded) (id : string) :
  Memqosd.serve {| Memqosd.Method := m; Memqosd.URLPath := "/v1/ffm/" ++ id;
                   Memqosd.Body := body |}
  = if String.eqb id "alloc"
    then Memqosd.ffmAlloc {| Memqosd.Method := m;
                             Memqosd.URLPath := "/v1/ffm/" ++ id;
                             Memqosd.Body := body |}
    else Memqosd.HttpError 404 "404 page not found".
Proof.
  destruct (String.eqb_spec id "alloc") as [-> | Hne].
  - reflexivity.
  - apply MemqosdProps.serve_other_path. cbn [Memqosd.URLPath].
    intros E. apply Hne. cbn [append] in E. injection E as E. exact E.
Qed.

Lemma serve_telemetry_path (m : string) (body : Memqosd.Decoded) (id : string) :
  Memqosd.serve {| Memqosd.Method := m;
                   Memqosd.URLPath := "/v1/ffm/" ++ id ++ "/telemetry";
                   Memqosd.Body := body |}
  = Memqosd.HttpError 404 "404 page not found".
Proof.
  apply MemqosdProps.serve_other_path. cbn [Memqosd.URLPath].
  intros E. cbn [append] in E. injection E as E.
  apply (f_equal String.length) in E. rewrite length_append in E.
  simpl in E. lia.
Qed.

(** X3: [Get] and [Telemetry] of the SDK never succeed against the
    skeleton, for any id that is a plain path segment (letters, digits, '-'
    and '_', as the handle ffm-9c2e that the skeleton grants): the daemon
    registers no pattern for either URL, so [Telemetry] comes back as the
    HTTP status error 404, and so does [Get], except for the id "alloc",
    whose URL is the allocation path: its handler finds no body to decode
    and answers 400. *)
Theorem Get_and_Telemetry_fail_on_skeleton
    (get : string -> RoundTrip)
    (decodeHandle : Memqosd.Response -> Handle * option string)
    (decodeTelemetry : Memqosd.Response -> Telemetry * option string)
    (id : string) :
  reachesSkeleton get ->
  plainID id = true ->
  Get get decodeHandle id
  = (None,
     Some (if String.eqb id "alloc"
           then HTTPStatusError 400 (Memqosd.HttpError 400 "EOF")
           else HTTPStatusError 404
                  (Memqosd.HttpError 404 "404 page not found")))
  /\ GetTelemetry get decodeTelemetry id
     = (None, Some (HTTPStatusError 404
                      (Memqosd.HttpError 404 "404 page not found"))).
Proof.
  intros Hget Hid. split.
  - unfold Get. erewrite Hget.
    2:{ unfold skeletonGet. rewrite (plainID_path id Hid). reflexivity. }
    rewrite serve_handle_path.
    destruct (String.eqb id "alloc"); reflexivity.
  - unfold GetTelemetry. erewrite Hget.
    2:{ unfold skeletonGet. rewrite (plainID_telemetry_path id Hid).
        reflexivity. }
    rewrite serve_telemetry_path. reflexivity.
Qed.

Lemma Get_and_Telemetry_fail_on_skeleton_witness :
  Get plainTransport (fun _ => ({| ID := ""; HandleBytes := 0 |}, None))
    "ffm-9c2e"
  = (None,
     Some (if String.eqb "ffm-9c2e" "alloc"
           then HTTPStatusError 400 (Memqosd.HttpError 400 "EOF")
           else HTTPStatusError 404
                  (Memqosd.HttpError 404 "404 page not found")))
  /\ GetTelemetry plainTransport (fun _ => ({| AchievedGBs := 0 |}, None))
       "ffm-9c2e"
     = (None, Some (HTTPStatusError 404
                      (Memqosd.HttpError 404 "404 page not found"))).
Proof.
  apply (@Get_and_Telemetry_fail_on_skeleton plainTransport
           (fun _ => ({| ID := ""; HandleBytes := 0 |}, None))
           (fun _ => ({| AchievedGBs := 0 |}, None)) "ffm-9c2e").
  - intros path rt H. unfold plainTransport. rewrite H. reflexivity.
  - reflexivity.
Defined.

End FFMClientProps.

Module FFMDemoProps.
Import FFMDemo.

Local Open Scope string_scope.
Local Open Scope list_scope.
Local Open Scope Z_scope.

Lemma pow1024_pos (j : Z) : 0 <= j -> 0 < 1024 ^ j.
Proof. intros Hj. apply Z.pow_pos_nonneg; lia. Qed.

Lemma pow1024_succ (j : Z) : 0 <= j -> 1024 ^ (j + 1) = 1024 ^ j * 1024.
Proof. intros Hj. rewrite Z.pow_add_r by lia. reflexivity. Qed.

(** A power of 1024 that fits under a [uint64] has exponent at most 6. *)
Lemma pow1024_uint64 (j bytes : Z) :
  0 <= j -> 1024 ^ j <= bytes -> bytes < 2 ^ 64 -> j <= 6.
Proof.
  intros Hj Hlo Hhi.
  destruct (Z.le_gt_cases j 6) as [H | H]; [exact H | exfalso].
  assert (Hm : 1024 ^ 7 <= 1024 ^ j) by (apply Z.pow_le_mono_r; lia).
  change (1024 ^ 7) with 1180591620717411303424 in Hm.
  change (2 ^ 64) with 18446744073709551616 in Hhi. lia.
Qed.

Lemma wrap_int64_small (z : Z) :
  - 2 ^ 63 <= z < 2 ^ 63 -> wrap_int64 z = z.
Proof.
  intros Hz. unfold wrap_int64.
  change (2 ^ 64) with (2 * 2 ^ 63).
  rewrite Z.mod_small; lia.
Qed.

Lemma div_ge_1024 (a d : Z) : 0 < d -> 1024 <= a / d -> d * 1024 <= a.
Proof.
  intros Hd Hq. pose proof (Z.mul_div_le a d Hd). nia.
Qed.

Lemma div_lt_1024 (a d : Z) : 0 < d -> a / d < 1024 -> a < d * 1024.
Proof.
  intros Hd Hq. pose proof (Z.mul_succ_div_gt a d Hd). nia.
Qed.

Section Scale.

Variable bytes : Z.
Hypothesis bytes_uint64 : 0 <= bytes < 2 ^ 64.

Lemma scaleLoop_spec (fuel : nat) (k : Z) :
  0 <= k ->
  1024 ^ (k + 1) <= bytes ->
  6 - k <= Z.of_nat fuel ->
  exists e,
    k <= e <= 5
    /\ 1024 ^ (e + 1) <= bytes < 1024 ^ (e + 2)
    /\ scaleLoop fuel (bytes / 1024 ^ (k + 1)) (1024 ^ (k + 1)) k
       = Some (1024 ^ (e + 1), e).
Proof.
  revert k. induction fuel as [| fuel IH]; intros k Hk Hlo Hfuel.
  - exfalso.
    pose proof (pow1024_uint64 (j := k + 1) ltac:(lia) Hlo
                  (proj2 bytes_uint64)) as Hk5.
    change (Z.of_nat 0) with 0 in Hfuel. clear - Hfuel Hk5. lia.
  - pose proof (pow1024_uint64 (j := k + 1) ltac:(lia) Hlo
                  (proj2 bytes_uint64)) as Hk5.
    pose proof (pow1024_pos (j := k + 1) ltac:(lia)) as Hpos.
    simpl scaleLoop.
    destruct (Z.geb_spec (bytes / 1024 ^ (k + 1)) 1024) as [Hge | Hlt].
    + assert (Hnext : 1024 ^ (k + 1 + 1) <= bytes).
      { rewrite pow1024_succ by lia. apply div_ge_1024; assumption. }
      pose proof (pow1024_uint64 (j := k + 1 + 1) ltac:(lia) Hnext
                    (proj2 bytes_uint64)) as Hk4.
      pose proof (pow1024_pos (j := k + 1 + 1) ltac:(lia)) as Hpos'.
      assert (Hsmall : 1024 ^ (k + 1 + 1) <= 1024 ^ 6)
        by (apply Z.pow_le_mono_r; lia).
      rewrite Z.div_div by lia.
      rewrite <- pow1024_succ by lia.
      rewrite wrap_int64_small.
      2:{ change (1024 ^ 6) with 1152921504606846976 in Hsmall.
          change (2 ^ 63) with 9223372036854775808.
          clear - Hsmall Hpos'. lia. }
      assert (Hfuel' : 6 - (k + 1) <= Z.of_nat fuel)
        by (clear - Hfuel; lia).
      destruct (IH (k + 1) ltac:(lia) Hnext Hfuel')
        as (e & He & Hb & Heq).
      exists e. split; [clear - He; lia |]. split; [exact Hb | exact Heq].
    + exists k. split; [clear - Hk Hk5; lia |]. split; [| reflexivity].
      split; [exact Hlo |].
      replace (k + 2) with (k + 1 + 1) by lia.
      rewrite pow1024_succ by lia. apply div_lt_1024; assumption.
Qed.

End Scale.

Lemma unit_letter (e : Z) :
  0 <= e <= 5 -> exists unit, String.get (Z.to_nat e) "KMGTPE" = Some unit.
Proof.
  intros He.
  assert (H : e = 0 \/ e = 1 \/ e = 2 \/ e = 3 \/ e = 4 \/ e = 5) by lia.
  destruct H as [-> | [-> | [-> | [-> | [-> | ->]]]]];
    eexists; reflexivity.
Qed.

(** ** Rounding *)

Lemma roundHalfEven_between (a b lo hi : Z) :
  0 < b -> lo * b <= a <= hi * b -> lo <= roundHalfEven a b <= hi.
Proof.
  intros Hb [Hlo Hhi].
  assert (Hq : lo <= a / b) by (apply Z.div_le_lower_bound; lia).
  pose proof (Z.mod_pos_bound a b Hb) as Hr.
  pose proof (Z.div_mod a b ltac:(lia)) as Hdm.
  unfold roundHalfEven.
  destruct (Z.eq_dec a (hi * b)) as [E | N].
  - assert (Hm : a mod b = 0) by (rewrite E; apply Z.mod_mul; lia).
    assert (Hd : a / b = hi) by (rewrite E; apply Z.div_mul; lia).
    rewrite Hm. destruct (Z.ltb_spec (2 * 0) b); lia.
  - assert (Hlt : a / b < hi) by (apply Z.div_lt_upper_bound; lia).
    destruct (Z.ltb_spec (2 * (a mod b)) b); [lia |].
    destruct (Z.ltb_spec b (2 * (a mod b))); [lia |].
    destruct (Z.even (a / b)); lia.
Qed.

(** The conversion keeps a number between the powers of two around it. *)
Lemma float64_of_uint64_between (n j : Z) :
  0 < n -> 0 <= j ->
  (2 ^ j <= n -> 2 ^ j <= float64_of_uint64 n)
  /\ (n <= 2 ^ j -> float64_of_uint64 n <= 2 ^ j).
Proof.
  intros Hn Hj.
  pose proof (Z.log2_spec n Hn) as [HL1 HL2].
  pose proof (Z.log2_nonneg n) as HL0.
  set (L := Z.log2 n) in *.
  unfold float64_of_uint64. fold L. cbv zeta.
  set (k := Z.max 0 (L - 52)).
  assert (Hk : 0 <= k <= L) by (unfold k; lia).
  assert (Hpk : 0 < 2 ^ k) by (apply Z.pow_pos_nonneg; lia).
  assert (EL : 2 ^ L = 2 ^ (L - k) * 2 ^ k)
    by (rewrite <- Z.pow_add_r by lia; f_equal; lia).
  assert (ES : 2 ^ Z.succ L = 2 ^ (L + 1 - k) * 2 ^ k)
    by (rewrite <- Z.pow_add_r by lia; f_equal; lia).
  split.
  - intros Hlo.
    assert (HjL : j <= L).
    { destruct (Z.le_gt_cases j L) as [H | H]; [exact H | exfalso].
      assert (2 ^ Z.succ L <= 2 ^ j) by (apply Z.pow_le_mono_r; lia). lia. }
    assert (Hb : 2 ^ (L - k) <= roundHalfEven n (2 ^ k) <= 2 ^ (L + 1 - k))
      by (apply roundHalfEven_between; lia).
    assert (H2 : 2 ^ j <= 2 ^ L) by (apply Z.pow_le_mono_r; lia).
    nia.
  - intros Hhi.
    destruct (Z.eq_dec n (2 ^ j)) as [E | N].
    + assert (HLj : L = j).
      { apply (Z.log2_unique n j Hj). rewrite E. split; [lia |].
        apply Z.pow_lt_mono_r; lia. }
      assert (Hb : 2 ^ (L - k) <= roundHalfEven n (2 ^ k) <= 2 ^ (L - k)).
      { apply roundHalfEven_between; [lia |]. rewrite <- EL, E, HLj. lia. }
      rewrite <- HLj, EL. nia.
    + assert (HLj : Z.succ L <= j).
      { destruct (Z.le_gt_cases (Z.succ L) j) as [H | H]; [exact H | exfalso].
        assert (2 ^ j <= 2 ^ L) by (apply Z.pow_le_mono_r; lia). lia. }
      assert (Hb : 2 ^ (L - k) <= roundHalfEven n (2 ^ k) <= 2 ^ (L + 1 - k))
        by (apply roundHalfEven_between; lia).
      assert (H2 : 2 ^ Z.succ L <= 2 ^ j) by (apply Z.pow_le_mono_r; lia).
      nia.
Qed.

Lemma pow1024_pow2 (j : Z) : 0 <= j -> 1024 ^ j = 2 ^ (10 * j).
Proof. intros Hj. rewrite Z.pow_mul_r by lia. reflexivity. Qed.

(** The tenths printed for a count between two powers of 1024. *)
Lemma tenthsOf_range (bytes e : Z) :
  0 <= e ->
  1024 ^ (e + 1) <= bytes < 1024 ^ (e + 2) ->
  10 <= tenthsOf bytes (1024 ^ (e + 1)) <= 10240.
Proof.
  intros He [Hlo Hhi].
  pose proof (pow1024_pos (j := e + 1) ltac:(lia)) as Hpos.
  assert (Hn : 0 < bytes) by lia.
  destruct (@float64_of_uint64_between bytes (10 * (e + 1)) Hn ltac:(lia))
    as [F1 _].
  destruct (@float64_of_uint64_between bytes (10 * (e + 2)) Hn ltac:(lia))
    as [_ F2].
  rewrite <- pow1024_pow2 in F1, F2 by lia.
  specialize (F1 Hlo). specialize (F2 ltac:(lia)).
  replace (e + 2) with (e + 1 + 1) in F2 by lia.
  rewrite pow1024_succ in F2 by lia.
  unfold tenthsOf. apply roundHalfEven_between; [exact Hpos |].
  set (d := 1024 ^ (e + 1)) in *. set (f := float64_of_uint64 bytes) in *.
  clear - F1 F2 Hpos. lia.
Qed.

(** X4: what [formatBytes] prints for a [uint64].  Below 1024 it is the
    count and " B".  Otherwise the loop stops at the exponent [e] with
    1024^(e+1) <= bytes < 1024^(e+2), which is at most 5, so the index into
    "KMGTPE" is in range (no panic) and the divisor 1024^(e+1) has not
    wrapped around; the number printed, the quotient rounded to one
    decimal, lies between 1.0 and 1024.0, both included: one byte less
    than a mebibyte is printed as 1024.0 KB. *)
Theorem formatBytes_scales (bytes : Z) :
  0 <= bytes < 2 ^ 64 ->
  ((bytes < 1024 /\ formatBytes bytes = Printed (decimal bytes ++ " B"))
   \/ (exists e unit tenths,
         0 <= e <= 5
         /\ 1024 ^ (e + 1) <= bytes < 1024 ^ (e + 2)
         /\ String.get (Z.to_nat e) "KMGTPE" = Some unit
         /\ tenths = tenthsOf bytes (1024 ^ (e + 1))
         /\ 10 <= tenths <= 10240
         /\ formatBytes bytes = Printed (sprintf_1f_cB tenths unit)))
  /\ formatBytes 1048575 = Printed "1024.0 KB"
  /\ formatBytes 1048576 = Printed "1.0 MB".
Proof.
  intros Hb. split; [| split; reflexivity]. unfold formatBytes.
  destruct (Z.ltb_spec bytes 1024) as [Hlt | Hge].
  - left. split; [exact Hlt | reflexivity].
  - right.
    destruct (@scaleLoop_spec bytes Hb 64 0 ltac:(lia)
                ltac:(change (1024 ^ (0 + 1)) with 1024; lia)
                ltac:(simpl; lia))
      as (e & He & Hrange & Heq).
    change (1024 ^ (0 + 1)) with 1024 in Heq. rewrite Heq.
    destruct (unit_letter (e := e) ltac:(lia)) as [unit Hu].
    exists e, unit, (tenthsOf bytes (1024 ^ (e + 1))).
    split; [lia |]. split; [exact Hrange |].
    split; [exact Hu |]. split; [reflexivity |].
    split; [apply tenthsOf_range; [lia | exact Hrange] |].
    destruct (Z.ltb_spec e 0); [lia |]. rewrite Hu. reflexivity.
Qed.

Lemma formatBytes_scales_witness :
  let bytes := 16 * 1024 * 1024 * 1024 in
  ((bytes < 1024 /\ formatBytes bytes = Printed (decimal bytes ++ " B"))
   \/ (exists e unit tenths,
         0 <= e <= 5
         /\ 1024 ^ (e + 1) <= bytes < 1024 ^ (e + 2)
         /\ String.get (Z.to_nat e) "KMGTPE" = Some unit
         /\ tenths = tenthsOf bytes (1024 ^ (e + 1))
         /\ 10 <= tenths <= 10240
         /\ formatBytes bytes = Printed (sprintf_1f_cB tenths unit)))
  /\ formatBytes 1048575 = Printed "1024.0 KB"
  /\ formatBytes 1048576 = Printed "1.0 MB".
Proof.
  apply (@formatBytes_scales (16 * 1024 * 1024 * 1024)).
  split; [discriminate | reflexivity].
Defined.

End FFMDemoProps.

(* ================================================================= *)
(** * Further properties of the HELIOPASS simulator *)
(* ================================================================= *)

Module HeliopassMore.
Import Heliopass HeliopassProps.

Local Open Scope string_scope.
Local Open Scope list_scope.
Local Open Scope R_scope.

Local Abbreviation h0 := NewHELIOPASSSimulator.

(** ** The shape of a response *)

(** A response is read off the state after [n] iterations, 1 <= n <= 50,
    of the loop started on the lanes that [initLanes] filled. *)
Lemma Simulate_shape (src : nat -> R) (req : SimulationRequest) (c : nat)
    (resp : SimulationResponse) (c' : nat) :
  Simulate src h0 req c = (Returned resp, c') ->
  exists profile n,
    let req' := setDefaults req profile in
    let zeros := repeat 0 (effectiveLanes req) in
    let st0 := initialState req' (fst (initLanes src zeros zeros zeros c)) in
    let run k := iterN src h0 profile (TargetBER req) (timeStep req) k O st0
                   (c + 3 * effectiveLanes req)%nat in
    let s := fst (run n) in
    GetAmbientProfiles (AmbientProfileName req) = Some profile
    /\ (1 <= effectiveLanes req)%nat
    /\ (1 <= n <= 50)%nat
    /\ (forall k, (0 < k < n)%nat ->
          checkConvergence (TargetBER req) (fst (run k)) = false)
    /\ c' = snd (run n)
    /\ Converged resp = checkConvergence (TargetBER req) s
    /\ (Converged resp = false -> n = 50%nat)
    /\ Status resp
       = (if Converged resp then "converged" else "partial_convergence")
    /\ Iterations resp = Z.of_nat n
    /\ ConvergenceTime resp = INR n * timeStep req
    /\ FinalBER resp = currentBER s
    /\ FinalEyeMargin resp = currentEyeMargin s
    /\ BiasVoltages resp = biasVoltages s
    /\ LambdaShifts resp = lambdaShifts s
    /\ LaserPowerAdjust resp = laserPowerAdjust s
    /\ PowerSavings resp
       = calculatePowerSavings (biasVoltages s) (laserPowerAdjust s)
    /\ TemperatureProfile resp = temperatureProfile s
    /\ BERProfile resp = berProfile s
    /\ EyeMarginProfile resp = eyeMarginProfile s.
Proof.
  intros Hsim.
  destruct (GetAmbientProfiles (AmbientProfileName req)) as [profile |] eqn:Hp.
  2:{ rewrite (Simulate_unknown src h0 req c Hp) in Hsim. discriminate. }
  destruct (Z.lt_ge_cases (LambdaCount req) 0) as [Hneg | Hnn].
  { rewrite (Simulate_negative src h0 req c Hp Hneg) in Hsim. discriminate. }
  destruct (Z.lt_ge_cases maxSliceLen (LambdaCount req)) as [Hbig | Hmax].
  { rewrite (Simulate_out_of_range src h0 req c Hp (or_intror Hbig)) in Hsim.
    discriminate. }
  exists profile.
  unfold Simulate in Hsim. rewrite Hp in Hsim. cbv zeta in Hsim.
  pose proof (setDefaults_LambdaCount req profile Hnn) as Hpos.
  pose proof (setDefaults_LambdaCount_max req profile Hmax) as Hle.
  rewrite (@make_float64s_in_range (LambdaCount (setDefaults req profile)))
    in Hsim by lia.
  change (LambdaCount (setDefaults req profile))
    with (if (LambdaCount req =? 0)%Z then 8%Z else LambdaCount req)
    in Hsim, Hpos.
  fold (effectiveLanes req) in Hsim.
  assert (HL : (1 <= effectiveLanes req)%nat) by (unfold effectiveLanes; lia).
  set (zeros := repeat 0 (effectiveLanes req)) in *.
  assert (Hz : List.length zeros = effectiveLanes req) by apply repeat_length.
  pose proof (initLanes_spec src zeros zeros zeros c eq_refl eq_refl) as Hi.
  unfold bind at 1 in Hsim.
  destruct (initLanes src zeros zeros zeros c) as [[[b l] p] c1] eqn:Hinit.
  cbv beta iota zeta delta [fst snd] in Hi.
  destruct Hi as (_ & _ & _ & Hc1). rewrite Hz in Hc1. subst c1.
  cbv beta in Hsim.
  change (Z.to_nat (MaxIterations h0)) with 50%nat in Hsim.
  change (IZR (Duration (setDefaults req profile)) / IZR (MaxIterations h0))
    with (timeStep req) in Hsim.
  change (TargetBER (setDefaults req profile)) with (TargetBER req) in Hsim.
  cbv zeta. fold zeros. rewrite Hinit. cbn [fst].
  assert (C0 : converged (initialState (setDefaults req profile) (b, l, p))
               = false) by reflexivity.
  assert (I0 : iterations (initialState (setDefaults req profile) (b, l, p))
               = O) by reflexivity.
  remember (initialState (setDefaults req profile) (b, l, p)) as st0 eqn:Est0.
  set (c0 := (c + 3 * effectiveLanes req)%nat) in *.
  destruct (loop_iterN src h0 profile (TargetBER req) (timeStep req)
              50 O st0 c0) as (n & Hn & Hbefore & Hend).
  exists n.
  pose proof (iterN_facts src h0 profile (TargetBER req) (timeStep req)
                n O st0 c0) as F.
  cbv zeta in F. destruct F as (_ & _ & _ & _ & Fc & Fi & _).
  rewrite C0 in Fc. rewrite I0, Nat.add_0_l in Fi.
  assert (Hb : forall (m : Rand LoopState) (k : LoopState -> Rand Outcome) x,
             bind m k x = k (fst (m x)) (snd (m x))).
  { intros m k x. unfold bind. destruct (m x); reflexivity. }
  rewrite Hb in Hsim. unfold ret in Hsim.
  remember (loop src h0 profile (TargetBER req) (timeStep req) 50 O st0 c0)
    as lp eqn:Elp.
  injection Hsim as Hresp Hc'. subst resp c'.
  destruct Hend as [(Hfull & Hlast & Hloop) | (Hnpos & Hlast & Hloop)];
    rewrite Hloop; cbn [fst snd];
    unfold finalResponse;
    cbn [Converged Status FinalBER FinalEyeMargin Iterations ConvergenceTime
         BiasVoltages LambdaShifts LaserPowerAdjust PowerSavings
         TemperatureProfile BERProfile EyeMarginProfile
         setConverged converged currentBER currentEyeMargin iterations
         biasVoltages lambdaShifts laserPowerAdjust temperatureProfile
         berProfile eyeMarginProfile].
  - destruct Hlast as [Hz0 | Hlast]; [lia |].
    rewrite Fc, Fi, Hlast.
    repeat (split; [first [reflexivity | assumption | lia
                          | intros _; assumption] |]).
    reflexivity.
  - rewrite Fi, Hlast.
    repeat (split; [first [reflexivity | assumption | lia
                          | discriminate] |]).
    reflexivity.
Qed.

Lemma initialState_fields (req : SimulationRequest) (lanes : list R * list R * list R) :
  let st0 := initialState req lanes in
  biasVoltages st0 = fst (fst lanes)
  /\ lambdaShifts st0 = snd (fst lanes)
  /\ laserPowerAdjust st0 = snd lanes
  /\ temperatureProfile st0 = []
  /\ berProfile st0 = []
  /\ eyeMarginProfile st0 = []
  /\ currentBER st0 = InitialBER req
  /\ currentEyeMargin st0 = InitialEyeMargin req.
Proof. destruct lanes as [[b l] p]. cbv zeta. simpl. repeat split. Qed.

Lemma initLanes_lengths (src : nat -> R) (n c : nat) :
  let lanes := fst (initLanes src (repeat 0 n) (repeat 0 n) (repeat 0 n) c) in
  List.length (fst (fst lanes)) = n
  /\ List.length (snd (fst lanes)) = n
  /\ List.length (snd lanes) = n.
Proof.
  cbv zeta.
  pose proof (initLanes_spec src (repeat 0 n) (repeat 0 n) (repeat 0 n) c
                eq_refl eq_refl) as H.
  destruct (fst (initLanes src (repeat 0 n) (repeat 0 n) (repeat 0 n) c))
    as [[b l] p].
  rewrite repeat_length in H. simpl. destruct H as (H1 & H2 & H3 & _).
  repeat split; assumption.
Qed.

(** ** Traces *)

Section Traces.

Variable src : nat -> R.
Variable h : HELIOPASSSimulator.
Variable profile : AmbientProfile.
Variable targetBER dt : R.

Local Abbreviation run := (iterN src h profile targetBER dt).

Lemma iterN_temperature_times (n i : nat) (st : LoopState) (c : nat) :
  map TPTime (temperatureProfile (fst (run n i st c)))
  = map TPTime (temperatureProfile st)
      ++ map (fun k => INR (i + k) * dt) (seq 0 n).
Proof.
  induction n as [| n IH].
  - simpl. rewrite app_nil_r. reflexivity.
  - pose proof (iteration_post src h profile targetBER dt (i + n)%nat
                  (fst (run n i st c)) (snd (run n i st c))) as P.
    rewrite <- iterN_snoc in P.
    destruct P as [_ _ _ _ _ _ _ [t Pt] _ _ _ _].
    rewrite Pt, map_app, IH, seq_S, map_app, <- app_assoc. reflexivity.
Qed.

Lemma iterN_sample_times (n i : nat) (st : LoopState) (c : nat) :
  map BPTime (berProfile (fst (run n i st c)))
  = map BPTime (berProfile st) ++ map (fun k => INR (i + k) * dt) (seq 0 n)
  /\ map EPTime (eyeMarginProfile (fst (run n i st c)))
     = map EPTime (eyeMarginProfile st)
         ++ map (fun k => INR (i + k) * dt) (seq 0 n).
Proof.
  destruct (iterN_profiles src h profile targetBER dt n i st c) as [Pb Pe].
  rewrite Pb, Pe, !map_app, !map_map. split; reflexivity.
Qed.

End Traces.

(** X5: the three profiles of a response have one entry per iteration, and
    the entry of iteration [k] (from 0) is stamped [k * dt], where [dt] is
    the duration, 60 s when the request leaves it at zero, over 50; the
    convergence time is the number of iterations times [dt]. *)
Theorem response_time_stamps (src : nat -> R) (req : SimulationRequest)
    (c : nat) (resp : SimulationResponse) (c' : nat) :
  Simulate src NewHELIOPASSSimulator req c = (Returned resp, c') ->
  let n := Z.to_nat (Iterations resp) in
  (1 <= n <= 50)%nat
  /\ map TPTime (TemperatureProfile resp) = timeStamps req n
  /\ map BPTime (BERProfile resp) = timeStamps req n
  /\ map EPTime (EyeMarginProfile resp) = timeStamps req n
  /\ ConvergenceTime resp = INR n * timeStep req.
Proof.
  intros Hsim. cbv zeta.
  destruct (Simulate_shape src req c Hsim) as (profile & n & Hshape).
  cbv zeta in Hshape.
  destruct Hshape as (_ & _ & Hn & _ & _ & _ & _ & _ & Hit & Hct & _ & _ & _
                      & _ & _ & _ & Htp & Hbp & Hep).
  rewrite Hit, Nat2Z.id, Htp, Hbp, Hep, Hct.
  split; [exact Hn |].
  match goal with
  | |- context [iterN ?s ?h ?p ?t ?d n ?i ?st ?cc] =>
      pose proof (iterN_temperature_times s h p t d n i st cc) as Ht;
      pose proof (iterN_sample_times s h p t d n i st cc) as [Hb He];
      pose proof (initialState_fields
                    (setDefaults req profile)
                    (fst (initLanes src (repeat 0 (effectiveLanes req))
                            (repeat 0 (effectiveLanes req))
                            (repeat 0 (effectiveLanes req)) c))) as I
  end.
  cbv zeta in I. destruct I as (_ & _ & _ & I1 & I2 & I3 & _).
  rewrite I1 in Ht. rewrite I2 in Hb. rewrite I3 in He.
  rewrite Ht, Hb, He. unfold timeStamps. simpl.
  repeat split; reflexivity.
Qed.

Lemma response_time_stamps_witness :
  exists resp c',
    Simulate midSource NewHELIOPASSSimulator sampleRequest O = (Returned resp, c')
    /\ let n := Z.to_nat (Iterations resp) in
       (1 <= n <= 50)%nat
       /\ map TPTime (TemperatureProfile resp) = timeStamps sampleRequest n
       /\ map BPTime (BERProfile resp) = timeStamps sampleRequest n
       /\ map EPTime (EyeMarginProfile resp) = timeStamps sampleRequest n
       /\ ConvergenceTime resp = INR n * timeStep sampleRequest.
Proof.
  destruct (sampleRequest_returns midSource O) as (resp & c' & Hsim).
  exists resp, c'. split; [exact Hsim |].
  exact (response_time_stamps _ _ _ Hsim).
Defined.

(** ** Lanes *)

(** X7: the three vectors of a response have one entry per lane: the
    request's lambda_count, or 8 when it is left at zero. *)
Theorem lane_vectors_have_lambda_count (src : nat -> R)
    (req : SimulationRequest) (c : nat) (resp : SimulationResponse) (c' : nat) :
  Simulate src NewHELIOPASSSimulator req c = (Returned resp, c') ->
  (1 <= effectiveLanes req)%nat
  /\ List.length (BiasVoltages resp) = effectiveLanes req
  /\ List.length (LambdaShifts resp) = effectiveLanes req
  /\ List.length (LaserPowerAdjust resp) = effectiveLanes req.
Proof.
  intros Hsim.
  destruct (Simulate_shape src req c Hsim) as (profile & n & Hshape).
  cbv zeta in Hshape.
  destruct Hshape as (_ & HL & _ & _ & _ & _ & _ & _ & _ & _ & _ & _ & Hb
                      & Hl & Hp & _).
  rewrite Hb, Hl, Hp. split; [exact HL |].
  match goal with
  | |- context [iterN ?s ?h ?p ?t ?d n ?i ?st ?cc] =>
      pose proof (iterN_facts s h p t d n i st cc) as F
  end.
  cbv zeta in F. destruct F as (Fb & Fl & Fp & _).
  rewrite Fb, Fl, Fp.
  pose proof (initialState_fields
                (setDefaults req profile)
                (fst (initLanes src (repeat 0 (effectiveLanes req))
                        (repeat 0 (effectiveLanes req))
                        (repeat 0 (effectiveLanes req)) c))) as I.
  cbv zeta in I. destruct I as (I1 & I2 & I3 & _).
  rewrite I1, I2, I3.
  exact (initLanes_lengths src (effectiveLanes req) c).
Qed.

Lemma lane_vectors_have_lambda_count_witness :
  exists resp c',
    Simulate midSource NewHELIOPASSSimulator sampleRequest O = (Returned resp, c')
    /\ (1 <= effectiveLanes sampleRequest)%nat
    /\ List.length (BiasVoltages resp) = effectiveLanes sampleRequest
    /\ List.length (LambdaShifts resp) = effectiveLanes sampleRequest
    /\ List.length (LaserPowerAdjust resp) = effectiveLanes sampleRequest.
Proof.
  destruct (sampleRequest_returns midSource O) as (resp & c' & Hsim).
  exists resp, c'. split; [exact Hsim |].
  exact (lane_vectors_have_lambda_count _ _ _ Hsim).
Defined.

(** ** A target below the BER floor *)

(** X8: when the target BER times 1.1 is below the floor of 1e-15 that every
    iteration clamps the BER to -- as when target_ber is left at zero -- no
    run converges: every response is partial_convergence after all 50
    iterations, having taken every draw a run can take. *)
Theorem target_below_floor_never_converges (src : nat -> R)
    (req : SimulationRequest) (c : nat) (resp : SimulationResponse) (c' : nat) :
  TargetBER req * 1.1 < 1e-15 ->
  Simulate src NewHELIOPASSSimulator req c = (Returned resp, c') ->
  Converged resp = false
  /\ Status resp = "partial_convergence"
  /\ Iterations resp = 50%Z
  /\ c' = (c + drawsOfRun req 50)%nat.
Proof.
  intros Ht Hsim.
  destruct (Simulate_shape src req c Hsim) as (profile & n & Hshape).
  cbv zeta in Hshape.
  destruct Hshape as (_ & _ & Hn & _ & Hc' & Hcv & Hfull & Hst & Hit & _).
  assert (Hfalse : Converged resp = false).
  { rewrite Hcv. apply checkConvergence_false. intros [Hb _].
    destruct n as [| m]; [lia |].
    match type of Hb with
    | context [iterN ?s ?h ?p ?t ?d (S m) ?i ?st ?cc] =>
        pose proof (iterN_clamped s h p t d m i st cc) as C
    end.
    cbv zeta in C. destruct C as (Cb & _). lra. }
  specialize (Hfull Hfalse). subst n.
  split; [exact Hfalse |]. rewrite Hst, Hfalse, Hit.
  split; [reflexivity |]. split; [reflexivity |].
  rewrite Hc'.
  match goal with
  | |- context [iterN ?s ?h ?p ?t ?d 50%nat ?i ?st ?cc] =>
      pose proof (iterN_facts s h p t d 50%nat i st cc) as F
  end.
  cbv zeta in F. destruct F as (_ & _ & _ & Fc & _).
  rewrite Fc.
  pose proof (initialState_fields
                (setDefaults req profile)
                (fst (initLanes src (repeat 0 (effectiveLanes req))
                        (repeat 0 (effectiveLanes req))
                        (repeat 0 (effectiveLanes req)) c))) as I.
  cbv zeta in I. destruct I as (I1 & I2 & I3 & _).
  rewrite I1, I2, I3.
  destruct (initLanes_lengths src (effectiveLanes req) c) as (L1 & L2 & L3).
  rewrite L1, L2, L3. unfold drawsOfRun, drawsPerIteration. lia.
Qed.

Lemma target_below_floor_never_converges_witness :
  exists resp c',
    Simulate midSource NewHELIOPASSSimulator stuckRequest O = (Returned resp, c')
    /\ Converged resp = false
    /\ Status resp = "partial_convergence"
    /\ Iterations resp = 50%Z
    /\ c' = (0 + drawsOfRun stuckRequest 50)%nat.
Proof.
  destruct (Simulate_succeeds midSource stuckRequest O eq_refl
              ltac:(rewrite maxSliceLen_value; simpl; lia)) as (resp & c' & Hsim & _).
  exists resp, c'. split; [exact Hsim |].
  refine (@target_below_floor_never_converges
            midSource stuckRequest O resp c' _ Hsim).
  simpl. lra.
Defined.

(** ** Power savings of clamped lanes *)

Lemma sumVoltageSavings_bounds (vs : list R) (acc : R) :
  Forall biasOK vs ->
  acc - 3 * INR (List.length vs) <= sumVoltageSavings acc vs
  <= acc + 4 * INR (List.length vs).
Proof.
  intros H. revert acc. induction H as [| v vs Hv _ IH]; intros acc.
  - simpl. lra.
  - change (sumVoltageSavings acc (v :: vs))
      with (sumVoltageSavings (acc + (1.2 - v) * 10.0) vs).
    rewrite length_cons, S_INR.
    specialize (IH (acc + (1.2 - v) * 10.0)). unfold biasOK in Hv. lra.
Qed.

Lemma sumLaserSavings_bounds (ps : list R) (acc : R) :
  Forall powerOK ps ->
  acc <= sumLaserSavings acc ps <= acc + 10 * INR (List.length ps).
Proof.
  intros H. revert acc. induction H as [| p ps Hp _ IH]; intros acc.
  - simpl. lra.
  - change (sumLaserSavings acc (p :: ps))
      with (sumLaserSavings (if flt p 0 then acc + Rabs p * 5.0 else acc) ps).
    rewrite length_cons, S_INR.
    unfold powerOK in Hp. unfold flt.
    destruct (Rlt_dec p 0) as [Hn | Hn].
    + specialize (IH (acc + Rabs p * 5.0)).
      rewrite Rabs_left in IH |- * by assumption. lra.
    + specialize (IH acc). lra.
Qed.

Lemma sumVoltageSavings_nominal (vs : list R) (acc : R) :
  Forall (fun v => 1.2 <= v) vs -> sumVoltageSavings acc vs <= acc.
Proof.
  intros H. revert acc. induction H as [| v vs Hv _ IH]; intros acc.
  - simpl. lra.
  - change (sumVoltageSavings acc (v :: vs))
      with (sumVoltageSavings (acc + (1.2 - v) * 10.0) vs).
    specialize (IH (acc + (1.2 - v) * 10.0)). lra.
Qed.

Lemma sumLaserSavings_nominal (ps : list R) (acc : R) :
  Forall (fun p => 0 <= p) ps -> sumLaserSavings acc ps = acc.
Proof.
  intros H. revert acc. induction H as [| p ps Hp _ IH]; intros acc.
  - reflexivity.
  - change (sumLaserSavings acc (p :: ps))
      with (sumLaserSavings (if flt p 0 then acc + Rabs p * 5.0 else acc) ps).
    unfold flt. destruct (Rlt_dec p 0); [lra | apply IH].
Qed.

Lemma div_bounds (x lo hi len : R) :
  0 < len -> lo * len <= x <= hi * len -> lo <= x / len <= hi.
Proof.
  intros Hl [H1 H2]. unfold Rdiv.
  pose proof (Rinv_0_lt_compat len Hl) as Hi.
  assert (E : len * / len = 1) by (apply Rinv_r; lra).
  split.
  - apply Rmult_le_reg_r with len; [exact Hl |].
    rewrite Rmult_assoc, (Rmult_comm (/ len)), E. lra.
  - apply Rmult_le_reg_r with len; [exact Hl |].
    rewrite Rmult_assoc, (Rmult_comm (/ len)), E. lra.
Qed.

(** X9: for lanes within their clamping ranges the reported savings never
    reach the 20 % cap: the voltage part is at most 4 (bias at least 0.8
    V), the laser part at most 10 (adjustments at least -2 dB), so the
    savings lie in [0, 14]. *)
Theorem power_savings_of_clamped_lanes (bias laser : list R) :
  bias <> [] -> laser <> [] ->
  Forall biasOK bias -> Forall powerOK laser ->
  exists s, calculatePowerSavings bias laser = Some s /\ 0 <= s <= 14.
Proof.
  intros Hb Hl Fb Fl.
  rewrite (calculatePowerSavings_nonempty Hb Hl). eexists. split; [reflexivity |].
  pose proof (INR_length_pos Hb) as Pb. pose proof (INR_length_pos Hl) as Pl.
  pose proof (sumVoltageSavings_bounds 0.0 Fb) as Sv.
  pose proof (sumLaserSavings_bounds 0.0 Fl) as Sl.
  assert (Dv : -3 <= sumVoltageSavings 0.0 bias / INR (List.length bias) <= 4)
    by (apply div_bounds; [exact Pb | lra]).
  assert (Dl : 0 <= sumLaserSavings 0.0 laser / INR (List.length laser) <= 10)
    by (apply div_bounds; [exact Pl | lra]).
  split; [apply Rmax_l |].
  apply Rmax_lub; [lra |].
  eapply Rle_trans; [apply Rmin_r | lra].
Qed.

Lemma power_savings_of_clamped_lanes_witness :
  exists s, calculatePowerSavings [0.8; 1.2] [-2; 0.5] = Some s /\ 0 <= s <= 14.
Proof.
  apply (@power_savings_of_clamped_lanes [0.8; 1.2] [-2; 0.5]);
    try discriminate.
  - repeat constructor; unfold biasOK; lra.
  - repeat constructor; unfold powerOK; lra.
Defined.

(** X10: in every response the reported savings are a number between 0 and
    14. *)
Theorem response_power_savings_at_most_14 (src : nat -> R)
    (req : SimulationRequest) (c : nat) (resp : SimulationResponse) (c' : nat) :
  Simulate src NewHELIOPASSSimulator req c = (Returned resp, c') ->
  exists s, PowerSavings resp = Some s /\ 0 <= s <= 14.
Proof.
  intros Hsim.
  destruct (Simulate_final_state src req c Hsim)
    as (st & _ & _ & (Fb & _ & Fp) & _ & Hb & Hl & _ & _ & _ & _ & _ & _ & ->).
  rewrite (calculatePowerSavings_nonempty Hb Hl). eexists. split; [reflexivity |].
  pose proof (INR_length_pos Hb) as Pb. pose proof (INR_length_pos Hl) as Pl.
  pose proof (sumVoltageSavings_bounds 0.0 Fb) as Sv.
  pose proof (sumLaserSavings_bounds 0.0 Fp) as Sl.
  assert (Dv : -3 <= sumVoltageSavings 0.0 (biasVoltages st)
                     / INR (List.length (biasVoltages st)) <= 4)
    by (apply div_bounds; [exact Pb | lra]).
  assert (Dl : 0 <= sumLaserSavings 0.0 (laserPowerAdjust st)
                    / INR (List.length (laserPowerAdjust st)) <= 10)
    by (apply div_bounds; [exact Pl | lra]).
  split; [apply Rmax_l |].
  apply Rmax_lub; [lra |].
  eapply Rle_trans; [apply Rmin_r | lra].
Qed.

Lemma response_power_savings_at_most_14_witness :
  exists resp c',
    Simulate midSource NewHELIOPASSSimulator sampleRequest O = (Returned resp, c')
    /\ exists s, PowerSavings resp = Some s /\ 0 <= s <= 14.
Proof.
  destruct (sampleRequest_returns midSource O) as (resp & c' & Hsim).
  exists resp, c'. split; [exact Hsim |].
  exact (response_power_savings_at_most_14 _ _ _ Hsim).
Defined.

(** X11: no savings are reported when no lane is below its nominal 1.2 V and
    no laser power adjustment is negative. *)
Theorem no_savings_at_or_above_nominal (bias laser : list R) :
  bias <> [] -> laser <> [] ->
  Forall (fun v => 1.2 <= v) bias -> Forall (fun p => 0 <= p) laser ->
  calculatePowerSavings bias laser = Some 0.
Proof.
  intros Hb Hl Fb Fl.
  rewrite (calculatePowerSavings_nonempty Hb Hl). f_equal.
  pose proof (INR_length_pos Hb) as Pb. pose proof (INR_length_pos Hl) as Pl.
  pose proof (sumVoltageSavings_nominal 0.0 Fb) as Sv.
  rewrite (sumLaserSavings_nominal 0.0 Fl).
  assert (Dv : sumVoltageSavings 0.0 bias / INR (List.length bias) <= 0).
  { unfold Rdiv. pose proof (Rinv_0_lt_compat _ Pb). nra. }
  assert (Dl : 0.0 / INR (List.length laser) = 0) by (unfold Rdiv; lra).
  rewrite Dl, Rplus_0_r.
  apply Rmax_left. eapply Rle_trans; [apply Rmin_r | exact Dv].
Qed.

Lemma no_savings_at_or_above_nominal_witness :
  calculatePowerSavings [1.2; 1.5] [0; 2] = Some 0.
Proof.
  apply (@no_savings_at_or_above_nominal [1.2; 1.5] [0; 2]);
    try discriminate; repeat constructor; lra.
Defined.

(** ** Defaults and ignored fields *)

Lemma fzero_true (x : R) : x = 0 -> fzero x = true.
Proof. intros ->. unfold fzero. destruct (Req_dec_T 0 0); [reflexivity | lra]. Qed.

Lemma fzero_false (x : R) : x <> 0 -> fzero x = false.
Proof.
  intros H. unfold fzero. destruct (Req_dec_T x 0); [contradiction | reflexivity].
Qed.

Lemma setDefaults_idempotent (req : SimulationRequest) (profile : AmbientProfile) :
  setDefaults (setDefaults req profile) profile = setDefaults req profile.
Proof.
  unfold setDefaults at 1.
  cbn [CorridorID TargetBER AmbientProfileName LambdaCount InitialBER
       InitialEyeMargin ReqTemperature Duration setDefaults].
  unfold setDefaults. f_equal.
  - destruct (Z.eqb_spec (LambdaCount req) 0) as [E | N]; [reflexivity |].
    destruct (Z.eqb_spec (LambdaCount req) 0); [contradiction | reflexivity].
  - destruct (Req_dec_T (InitialBER req) 0) as [E | N].
    + rewrite (fzero_true E). rewrite fzero_false by lra. reflexivity.
    + rewrite (fzero_false N). rewrite (fzero_false N). reflexivity.
  - destruct (Req_dec_T (InitialEyeMargin req) 0) as [E | N].
    + rewrite (fzero_true E). rewrite fzero_false by lra. reflexivity.
    + rewrite (fzero_false N). rewrite (fzero_false N). reflexivity.
  - destruct (Req_dec_T (ReqTemperature req) 0) as [E | N].
    + rewrite (fzero_true E).
      destruct (fzero (Temperature profile)); reflexivity.
    + rewrite (fzero_false N). rewrite (fzero_false N). reflexivity.
  - destruct (Z.eqb_spec (Duration req) 0) as [E | N]; [reflexivity |].
    destruct (Z.eqb_spec (Duration req) 0); [contradiction | reflexivity].
Qed.

(** X12: leaving a field at zero and sending its default are the same
    request: [Simulate] answers a request and the request with the defaults
    filled in (lambda_count 8, initial_ber 1e-9, initial_eye_margin 0.5,
    duration 60, the profile's temperature) alike, draw for draw.  (So a
    zero initial BER, eye margin, lane count or duration cannot be asked
    for.) *)
Theorem Simulate_of_defaulted_request (src : nat -> R) (h : HELIOPASSSimulator)
    (req : SimulationRequest) (profile : AmbientProfile) (c : nat) :
  GetAmbientProfiles (AmbientProfileName req) = Some profile ->
  Simulate src h (setDefaults req profile) c = Simulate src h req c.
Proof.
  intros Hp. unfold Simulate.
  change (AmbientProfileName (setDefaults req profile))
    with (AmbientProfileName req).
  rewrite Hp. cbv zeta. rewrite setDefaults_idempotent. reflexivity.
Qed.

Lemma Simulate_of_defaulted_request_witness :
  Simulate midSource NewHELIOPASSSimulator
    {| CorridorID := "cor-7af3"; TargetBER := 1e-12;
       AmbientProfileName := "lab_default"; LambdaCount := 8;
       InitialBER := 1e-9; InitialEyeMargin := 0.5;
       ReqTemperature := 22.0; Duration := 60 |} O
  = Simulate midSource NewHELIOPASSSimulator sampleRequest O.
Proof.
  assert (Hp : GetAmbientProfiles (AmbientProfileName sampleRequest)
               = Some {| Name := "Laboratory Default"; Temperature := 22.0;
                         Humidity := 45.0; VibrationRMS := 0.1;
                         EMINoise := -80.0; DriftRate := 0.001;
                         StabilityClass := "excellent"; NoiseLevel := 0.05 |})
    by reflexivity.
  rewrite <- (Simulate_of_defaulted_request midSource NewHELIOPASSSimulator
                sampleRequest O Hp).
  f_equal. unfold setDefaults, sampleRequest.
  cbn [CorridorID TargetBER AmbientProfileName LambdaCount InitialBER
       InitialEyeMargin ReqTemperature Duration Temperature].
  rewrite (fzero_true (x := 0) eq_refl). reflexivity.
Defined.

(** X13: the request's temperature_c plays no part: [Simulate] answers two
    requests that differ only in it alike.  (The temperature samples come
    from the ambient profile.) *)
Theorem temperature_field_is_ignored (src : nat -> R) (h : HELIOPASSSimulator)
    (req : SimulationRequest) (t : R) (c : nat) :
  Simulate src h (withTemperature req t) c = Simulate src h req c.
Proof.
  unfold Simulate.
  change (AmbientProfileName (withTemperature req t))
    with (AmbientProfileName req).
  destruct (GetAmbientProfiles (AmbientProfileName req)) as [profile |];
    [| reflexivity].
  cbv zeta.
  change (LambdaCount (setDefaults (withTemperature req t) profile))
    with (LambdaCount (setDefaults req profile)).
  destruct (make_float64s (LambdaCount (setDefaults req profile)));
    [| reflexivity].
  reflexivity.
Qed.

(** ** The profile table *)

Lemma known_profile_levels (key : string) (profile : AmbientProfile) :
  GetAmbientProfiles key = Some profile ->
  0 < NoiseLevel profile <= 0.2 /\ 0 < DriftRate profile <= 0.1.
Proof.
  unfold GetAmbientProfiles, ambientProfiles, lookupProfile.
  repeat (destruct (String.eqb _ key);
          [intros E; injection E as <-; simpl; lra |]).
  discriminate.
Qed.

(** ** Temperature samples *)

Section TemperatureBand.

Variable src : nat -> R.
Hypothesis src_unit : inUnit src.
Variable h : HELIOPASSSimulator.
Variable profile : AmbientProfile.
Hypothesis noise_nonneg : 0 <= NoiseLevel profile.
Variable targetBER dt : R.

Local Abbreviation near := (fun pt =>
  Rabs (TPTemperature pt - Temperature profile) <= 0.5 + NoiseLevel profile).

Lemma iterN_temperature_band (n i : nat) (st : LoopState) (c : nat) :
  Forall near (temperatureProfile st) ->
  Forall near
    (temperatureProfile (fst (iterN src h profile targetBER dt n i st c))).
Proof.
  intros Hst. induction n as [| n IH]; [exact Hst |].
  rewrite iterN_snoc.
  destruct (iteration_measurements src h profile targetBER dt (i + n)%nat
              (fst (iterN src h profile targetBER dt n i st c))
              (snd (iterN src h profile targetBER dt n i st c))) as [Ht _].
  rewrite Ht. apply Forall_app. split; [exact IH |].
  constructor; [| constructor]. cbn [TPTemperature].
  set (k := snd (iterN src h profile targetBER dt n i st c)).
  pose proof (src_unit k) as Hk.
  pose proof (SIN_bound (INR (i + n) * dt * 0.1)) as Hs.
  set (sn := sin (INR (i + n) * dt * 0.1)) in *.
  apply Rabs_le. split; nra.
Qed.

End TemperatureBand.

(** X15: with draws in [0, 1), as [rand.Float64] delivers them, every
    temperature sample of a response lies within 0.5 + NoiseLevel of the
    ambient profile's temperature, which is within 0.7 degrees for each of
    the five profiles. *)
Theorem temperature_samples_near_ambient (src : nat -> R)
    (req : SimulationRequest) (c : nat) (resp : SimulationResponse) (c' : nat)
    (profile : AmbientProfile) :
  inUnit src ->
  GetAmbientProfiles (AmbientProfileName req) = Some profile ->
  Simulate src NewHELIOPASSSimulator req c = (Returned resp, c') ->
  0.5 + NoiseLevel profile <= 0.7
  /\ Forall (fun pt =>
               Rabs (TPTemperature pt - Temperature profile)
               <= 0.5 + NoiseLevel profile)
       (TemperatureProfile resp).
Proof.
  intros Hu Hp Hsim.
  destruct (known_profile_levels _ Hp) as [Hn _].
  split; [lra |].
  destruct (Simulate_shape src req c Hsim) as (profile' & n & Hshape).
  cbv zeta in Hshape.
  destruct Hshape as (Hp' & _ & _ & _ & _ & _ & _ & _ & _ & _ & _ & _ & _
                      & _ & _ & _ & Htp & _).
  rewrite Hp in Hp'. injection Hp' as <-.
  rewrite Htp. apply iterN_temperature_band; [exact Hu | lra |].
  pose proof (initialState_fields
                (setDefaults req profile)
                (fst (initLanes src (repeat 0 (effectiveLanes req))
                        (repeat 0 (effectiveLanes req))
                        (repeat 0 (effectiveLanes req)) c))) as I.
  cbv zeta in I. destruct I as (_ & _ & _ & I1 & _).
  rewrite I1. constructor.
Qed.

Lemma midSource_inUnit : inUnit midSource.
Proof. intros k. unfold midSource. lra. Qed.

Lemma temperature_samples_near_ambient_witness :
  exists resp c' profile,
    Simulate midSource NewHELIOPASSSimulator sampleRequest O = (Returned resp, c')
    /\ 0.5 + NoiseLevel profile <= 0.7
    /\ Forall (fun pt =>
                 Rabs (TPTemperature pt - Temperature profile)
                 <= 0.5 + NoiseLevel profile)
         (TemperatureProfile resp).
Proof.
  destruct (sampleRequest_returns midSource O) as (resp & c' & Hsim).
  destruct (knownProfile_true (AmbientProfileName sampleRequest) eq_refl)
    as [profile Hp].
  exists resp, c', profile. split; [exact Hsim |].
  exact (@temperature_samples_near_ambient midSource sampleRequest O resp c'
           profile midSource_inUnit Hp Hsim).
Defined.

(** ** Wavelength shifts *)

Lemma forRange_Forall_step (f : R -> Rand R) (P Q : R -> Prop) (s : list R)
    (c : nat) :
  (forall x k, P x -> Q (fst (f x k))) ->
  Forall P s -> Forall Q (fst (forRange f s c)).
Proof.
  intros Hf Hs. revert c. induction Hs as [| x s Hx _ IH]; intros c; simpl.
  - constructor.
  - unfold bind. specialize (Hf x c Hx). destruct (f x c) as [y c1].
    specialize (IH c1). destruct (forRange f s c1) as [s' c2].
    simpl in *. constructor; assumption.
Qed.

Lemma clamp_shrinks (lo hi x b : R) :
  lo <= 0 <= hi -> - b <= x <= b -> - b <= Rmax lo (Rmin hi x) <= b.
Proof.
  intros Hlo Hx. unfold Rmax, Rmin.
  destruct (Rle_dec hi x); destruct (Rle_dec lo _); lra.
Qed.

Section ShiftDrift.

Variable src : nat -> R.
Hypothesis src_unit : inUnit src.
Variable h : HELIOPASSSimulator.
Variable profile : AmbientProfile.
Hypothesis drift_nonneg : 0 <= DriftRate profile.
Variable targetBER dt : R.

Local Abbreviation step := (0.0005 + 0.01 * DriftRate profile).

(** One update moves a wavelength shift by at most [step]. *)
Lemma updateLambdaShifts_step (ss : list R) (time b : R) (c : nat) :
  Forall (fun s => - b <= s <= b) ss ->
  Forall (fun s => - (b + step) <= s <= b + step)
    (fst (updateLambdaShifts src ss time profile c)).
Proof.
  unfold updateLambdaShifts. apply forRange_Forall_step.
  intros x k Hx. unfold bind, ret, rand_Float64. cbn [fst].
  pose proof (src_unit k) as Hk.
  pose proof (SIN_bound (time * 0.15)) as Hs.
  set (sn := sin (time * 0.15)) in *.
  apply clamp_shrinks; [lra |]. split; nra.
Qed.

Lemma iteration_lambdaShifts (i : nat) (st : LoopState) (c : nat) :
  exists k,
    lambdaShifts (fst (iteration src h profile targetBER dt i st c))
    = fst (updateLambdaShifts src (lambdaShifts st) (INR i * dt) profile k).
Proof.
  unfold_measurements.
  destruct (updateBiasVoltages src h _ _ _ _) as [b k1].
  exists k1.
  destruct (updateLambdaShifts src _ _ _ _) as [l k2].
  destruct (updateLaserPower src h _ _ _ _) as [p k3].
  reflexivity.
Qed.

Lemma iterN_lambdaShifts_bound (n i : nat) (st : LoopState) (c : nat) (b : R) :
  Forall (fun s => - b <= s <= b) (lambdaShifts st) ->
  Forall (fun s => - (b + INR n * step) <= s <= b + INR n * step)
    (lambdaShifts (fst (iterN src h profile targetBER dt n i st c))).
Proof.
  intros Hst. induction n as [| n IH].
  - simpl. eapply Forall_impl; [| exact Hst]. intros s Hs. simpl in Hs. lra.
  - rewrite iterN_snoc.
    destruct (iteration_lambdaShifts (i + n)%nat
                (fst (iterN src h profile targetBER dt n i st c))
                (snd (iterN src h profile targetBER dt n i st c)))
      as [k Hk].
    rewrite Hk.
    pose proof (updateLambdaShifts_step (INR (i + n) * dt) k IH) as Hstep.
    eapply Forall_impl; [| exact Hstep].
    intros s Hs. cbv beta in Hs. rewrite S_INR. lra.
Qed.

(** The initialisation leaves every wavelength shift within 0.01 nm. *)
Lemma initLanes_lambda_bound (bias lambda laser : list R) (c : nat) :
  List.length lambda = List.length bias ->
  List.length laser = List.length bias ->
  Forall (fun s => - (0.01) <= s <= 0.01)
    (snd (fst (fst (initLanes src bias lambda laser c)))).
Proof.
  revert lambda laser c.
  induction bias as [| x bias IH]; intros lambda laser c Hl Hp.
  - destruct lambda; [| discriminate]. simpl. constructor.
  - destruct lambda as [| y lambda]; [discriminate |].
    destruct laser as [| z laser]; [discriminate |].
    simpl in Hl, Hp. injection Hl as Hl. injection Hp as Hp.
    simpl initLanes. unfold bind, ret, rand_Float64.
    specialize (IH lambda laser (S (S (S c))) Hl Hp).
    destruct (initLanes src bias lambda laser (S (S (S c)))) as [[[b l] p] c1].
    cbn [fst snd] in *. constructor; [| exact IH].
    pose proof (src_unit (S c)). lra.
Qed.

End ShiftDrift.

(** X16: with draws in [0, 1), every wavelength shift of a response is within
    0.01 + Iterations * (0.0005 + 0.01 * DriftRate) nm of zero: 0.01 from
    the initialisation and at most 0.0005 + 0.01 * DriftRate per iteration.
    For each of the five profiles that is at most 0.085 nm, so the clamp to
    0.1 nm never takes effect. *)
Theorem lambda_shifts_drift_bound (src : nat -> R)
    (req : SimulationRequest) (c : nat) (resp : SimulationResponse) (c' : nat)
    (profile : AmbientProfile) :
  inUnit src ->
  GetAmbientProfiles (AmbientProfileName req) = Some profile ->
  Simulate src NewHELIOPASSSimulator req c = (Returned resp, c') ->
  let bound :=
    0.01 + IZR (Iterations resp) * (0.0005 + 0.01 * DriftRate profile) in
  bound <= 0.085
  /\ Forall (fun s => - bound <= s <= bound) (LambdaShifts resp).
Proof.
  intros Hu Hp Hsim. cbv zeta.
  destruct (known_profile_levels _ Hp) as [_ Hd].
  destruct (Simulate_shape src req c Hsim) as (profile' & n & Hshape).
  cbv zeta in Hshape.
  destruct Hshape as (Hp' & _ & Hn & _ & _ & _ & _ & _ & Hit & _ & _ & _ & _
                      & Hls & _).
  rewrite Hp in Hp'. injection Hp' as <-.
  rewrite Hit, <- INR_IZR_INZ, Hls.
  assert (Hn50 : INR n <= 50).
  { replace 50 with (INR 50) by (rewrite INR_IZR_INZ; reflexivity).
    apply le_INR. lia. }
  pose proof (pos_INR n) as Hn0.
  split; [nra |].
  apply iterN_lambdaShifts_bound; [exact Hu | lra |].
  pose proof (initialState_fields
                (setDefaults req profile)
                (fst (initLanes src (repeat 0 (effectiveLanes req))
                        (repeat 0 (effectiveLanes req))
                        (repeat 0 (effectiveLanes req)) c))) as I.
  cbv zeta in I. destruct I as (_ & I2 & _).
  rewrite I2. apply initLanes_lambda_bound; [exact Hu | reflexivity ..].
Qed.

Lemma lambda_shifts_drift_bound_witness :
  exists resp c' profile,
    Simulate midSource NewHELIOPASSSimulator sampleRequest O = (Returned resp, c')
    /\ let bound :=
         0.01 + IZR (Iterations resp) * (0.0005 + 0.01 * DriftRate profile) in
       bound <= 0.085
       /\ Forall (fun s => - bound <= s <= bound) (LambdaShifts resp).
Proof.
  destruct (sampleRequest_returns midSource O) as (resp & c' & Hsim).
  destruct (knownProfile_true (AmbientProfileName sampleRequest) eq_refl)
    as [profile Hp].
  exists resp, c', profile. split; [exact Hsim |].
  exact (@lambda_shifts_drift_bound midSource sampleRequest O resp c'
           profile midSource_inUnit Hp Hsim).
Defined.

End HeliopassMore.

(* ================================================================= *)
(** * Properties of the float64 model *)
(* ================================================================= *)

Module Float64Props.
Import Float64.

Local Open Scope R_scope.

(** ** The size of the largest finite value *)

Lemma pow2_1023_ge_1 : 1 <= 2 ^ 1023.
Proof. apply pow_R1_Rle. lra. Qed.

Lemma inv_pow2_52 : 0 < / 2 ^ 52 <= 0.01.
Proof.
  assert (H : 128 <= 2 ^ 52).
  { replace 128 with (2 ^ 7) by (simpl; lra).
    apply Rle_pow; [lra | lia]. }
  split.
  - apply Rinv_0_lt_compat. lra.
  - replace 0.01 with (/ 100) by lra.
    apply Rinv_le_contravar; lra.
Qed.

Lemma inv_pow2_53 : / 2 ^ 53 = / 2 ^ 52 / 2.
Proof.
  change (2 ^ 53) with (2 * 2 ^ 52).
  field.
Qed.

(** [MaxFloat64] lies just below twice 2^1023, and the overflow threshold
    between the two. *)
Lemma MaxFloat64_bounds :
  1.99 * 2 ^ 1023 <= MaxFloat64
  /\ MaxFloat64 < overflowThreshold
  /\ overflowThreshold <= 2 * 2 ^ 1023.
Proof.
  unfold MaxFloat64, overflowThreshold. rewrite inv_pow2_53.
  pose proof pow2_1023_ge_1 as HP. pose proof inv_pow2_52 as [He1 He2].
  set (P := 2 ^ 1023) in *. set (e := / 2 ^ 52) in *.
  repeat split; nra.
Qed.

Lemma overflowThreshold_large : 1.99 <= overflowThreshold.
Proof.
  pose proof MaxFloat64_bounds as (H1 & H2 & _).
  pose proof pow2_1023_ge_1. lra.
Qed.

(** ** Finite results *)

Lemma fromReal_small (x : R) :
  - overflowThreshold < x < overflowThreshold -> fromReal x = Finite x.
Proof.
  intros [Hlo Hhi]. unfold fromReal.
  destruct (Rle_dec overflowThreshold x); [lra |].
  destruct (Rle_dec x (- overflowThreshold)); [lra | reflexivity].
Qed.

Lemma fromReal_overflow (x : R) :
  overflowThreshold <= x -> fromReal x = PosInf.
Proof.
  intros H. unfold fromReal.
  destruct (Rle_dec overflowThreshold x); [reflexivity | lra].
Qed.

Lemma fromReal_not_NaN (x : R) : fromReal x <> NaN.
Proof.
  unfold fromReal.
  destruct (Rle_dec overflowThreshold x); [discriminate |].
  destruct (Rle_dec x (- overflowThreshold)); discriminate.
Qed.

(** ** NaN and +Inf in the operations *)

Lemma add_NaN_l (b : float64) : add NaN b = NaN.
Proof. reflexivity. Qed.

Lemma add_NaN_r (a : float64) : add a NaN = NaN.
Proof. destruct a; reflexivity. Qed.

Lemma mul_NaN_l (b : float64) : mul NaN b = NaN.
Proof. reflexivity. Qed.

Lemma sub_NaN_l (b : float64) : sub NaN b = NaN.
Proof. reflexivity. Qed.

Lemma Max_NaN_finite (y : R) : Max NaN (Finite y) = NaN.
Proof. reflexivity. Qed.

Lemma le_NaN_l (b : float64) : le NaN b = false.
Proof. reflexivity. Qed.

Lemma le_NaN_r (a : float64) : le a NaN = false.
Proof. destruct a; reflexivity. Qed.

Lemma sub_PosInf_finite (y : R) : sub PosInf (Finite y) = PosInf.
Proof. reflexivity. Qed.

Lemma mul_PosInf_positive (y : R) : 0 < y -> mul PosInf (Finite y) = PosInf.
Proof.
  intros Hy. simpl. destruct (Req_dec_T y 0); [lra |].
  destruct (Rlt_dec 0 y); [reflexivity | lra].
Qed.

Lemma mul_PosInf_zero : mul PosInf (Finite 0) = NaN.
Proof.
  simpl. destruct (Req_dec_T 0 0) as [_ | H]; [reflexivity |].
  exfalso. apply H. reflexivity.
Qed.

Lemma add_finite_PosInf (x : R) : add (Finite x) PosInf = PosInf.
Proof. reflexivity. Qed.

Lemma add_PosInf_finite (y : R) : add PosInf (Finite y) = PosInf.
Proof. reflexivity. Qed.

Lemma Max_PosInf_l (b : float64) : Max PosInf b = PosInf.
Proof. reflexivity. Qed.

Lemma le_PosInf_finite (y : R) : le PosInf (Finite y) = false.
Proof. reflexivity. Qed.

(** ** What [math.Max] against a finite floor leaves *)

Lemma Max_floor (a : float64) (floor : R) : atLeast floor (Max a (Finite floor)).
Proof.
  unfold atLeast. destruct a as [x | | |]; simpl.
  - right. destruct (Rle_dec floor (Rmax x floor)) as [_ | H];
      [reflexivity |]. exfalso. apply H. apply Rmax_r.
  - right. reflexivity.
  - right. destruct (Rle_dec floor floor) as [_ | H]; [reflexivity |].
    exfalso. apply H. lra.
  - left. reflexivity.
Qed.

(** A NaN is neither below nor at or above anything. *)
Lemma NaN_not_at_or_above (floor : R) : le (Finite floor) NaN = false.
Proof. reflexivity. Qed.

End Float64Props.

(* ================================================================= *)
(** * Properties of the HELIOPASS simulator with a float64 bit error rate *)
(* ================================================================= *)

Module HeliopassF64Props.
Import Float64 Float64Props HeliopassF64.

Local Open Scope string_scope.
Local Open Scope list_scope.
Local Open Scope R_scope.

Local Abbreviation h0 := Heliopass.NewHELIOPASSSimulator.

(** ** One iteration *)

Section Iteration.

Variable src : nat -> R.
Variable h : Heliopass.HELIOPASSSimulator.
Variable profile : Heliopass.AmbientProfile.
Variable targetBER dt : R.

Lemma iteration_post64 (i : nat) (st : LoopState) (c : nat) :
  IterationPost src h profile targetBER dt i st c
    (fst (iteration src h profile targetBER dt i st c))
    (snd (iteration src h profile targetBER dt i st c)).
Proof.
  unfold iteration, Heliopass.simulateTemperatureNoise,
    Heliopass.calculateImprovement, Heliopass.calculateBERNoise,
    Heliopass.calculateEyeImprovement, Heliopass.calculateEyeNoise,
    Heliopass.rand_Float64, Heliopass.bind, Heliopass.ret.
  pose proof (HeliopassProps.updateBiasVoltages_spec src h profile
                (biasVoltages st) (INR i * dt)
                (S (S (S (S (S c)))))) as (Hb1 & Hb2 & Hb3).
  destruct (Heliopass.updateBiasVoltages src h (biasVoltages st) (INR i * dt)
              profile (S (S (S (S (S c)))))) as [bias c1].
  simpl in Hb1, Hb2, Hb3.
  pose proof (HeliopassProps.updateLambdaShifts_spec src profile
                (lambdaShifts st) (INR i * dt) c1) as (Hl1 & Hl2 & Hl3).
  destruct (Heliopass.updateLambdaShifts src (lambdaShifts st) (INR i * dt)
              profile c1) as [lambda c2].
  simpl in Hl1, Hl2, Hl3.
  pose proof (HeliopassProps.updateLaserPower_spec src h profile
                (laserPowerAdjust st) (INR i * dt) c2) as (Hp1 & Hp2 & Hp3).
  destruct (Heliopass.updateLaserPower src h (laserPowerAdjust st)
              (INR i * dt) profile c2) as [laser c3].
  simpl in Hp1, Hp2, Hp3.
  constructor; cbn [fst snd currentBER currentEyeMargin biasVoltages
                    lambdaShifts laserPowerAdjust temperatureProfile
                    berProfile eyeMarginProfile converged iterations].
  - reflexivity.
  - apply HeliopassProps.clamp_range. lra.
  - repeat split; assumption.
  - exact Hb2.
  - exact Hl2.
  - exact Hp2.
  - lia.
  - eexists. reflexivity.
  - reflexivity.
  - reflexivity.
  - reflexivity.
  - reflexivity.
Qed.

(** The BER that an iteration leaves is NaN or at least the floor. *)
Lemma iteration_floor (i : nat) (st : LoopState) (c : nat) :
  atLeast 1e-15 (currentBER (fst (iteration src h profile targetBER dt i st c))).
Proof.
  rewrite (post_ber (iteration_post64 i st c)). apply Max_floor.
Qed.

(** NaN, once there, stays; and it fails the convergence check. *)
Lemma iteration_NaN (i : nat) (st : LoopState) (c : nat) :
  currentBER st = NaN ->
  currentBER (fst (iteration src h profile targetBER dt i st c)) = NaN.
Proof.
  intros H. rewrite (post_ber (iteration_post64 i st c)), H. reflexivity.
Qed.

Lemma checkConvergence_NaN (st : LoopState) :
  currentBER st = NaN -> checkConvergence targetBER st = false.
Proof. intros H. unfold checkConvergence. rewrite H. reflexivity. Qed.

(** +Inf stays as long as the improvement factor is positive, and turns
    into NaN when the factor is zero. *)
Lemma iteration_PosInf (i : nat) (st : LoopState) (c : nat) :
  currentBER st = PosInf ->
  0 < fst (Heliopass.calculateImprovement src h i
             (Heliopass.NoiseLevel profile) (S c)) ->
  currentBER (fst (iteration src h profile targetBER dt i st c)) = PosInf.
Proof.
  intros H Himp. rewrite (post_ber (iteration_post64 i st c)), H.
  rewrite sub_PosInf_finite, (mul_PosInf_positive Himp). reflexivity.
Qed.

Lemma iteration_PosInf_zero (i : nat) (st : LoopState) (c : nat) :
  currentBER st = PosInf ->
  fst (Heliopass.calculateImprovement src h i
         (Heliopass.NoiseLevel profile) (S c)) = 0 ->
  currentBER (fst (iteration src h profile targetBER dt i st c)) = NaN.
Proof.
  intros H Himp. rewrite (post_ber (iteration_post64 i st c)), H, Himp.
  rewrite sub_PosInf_finite, mul_PosInf_zero. reflexivity.
Qed.

(** ** The loop *)

Local Abbreviation berOK := (fun pt : BERPoint => atLeast 1e-15 (BER pt)).
Local Abbreviation eyeOK :=
  (fun pt : Heliopass.EyeMarginPoint => 0.1 <= Heliopass.EyeMargin pt <= 1.5).

Lemma loop_unroll (fuel i : nat) (st : LoopState) (c : nat) :
  loop src h profile targetBER dt (S fuel) i st c
  = if checkConvergence targetBER
         (fst (iteration src h profile targetBER dt i st c))
    then (setConverged (fst (iteration src h profile targetBER dt i st c)),
          snd (iteration src h profile targetBER dt i st c))
    else loop src h profile targetBER dt fuel (S i)
           (fst (iteration src h profile targetBER dt i st c))
           (snd (iteration src h profile targetBER dt i st c)).
Proof.
  simpl loop. unfold Heliopass.bind at 1.
  destruct (iteration src h profile targetBER dt i st c) as [st' c'].
  cbn [fst snd]. destruct (checkConvergence targetBER st'); reflexivity.
Qed.

(** What a run of the loop keeps and what it leaves. *)
Lemma loop_facts (fuel i : nat) (st : LoopState) (c : nat) :
  let st' := fst (loop src h profile targetBER dt fuel i st c) in
  List.length (biasVoltages st') = List.length (biasVoltages st)
  /\ List.length (lambdaShifts st') = List.length (lambdaShifts st)
  /\ List.length (laserPowerAdjust st') = List.length (laserPowerAdjust st)
  /\ (Forall berOK (berProfile st) -> Forall berOK (berProfile st'))
  /\ (Forall eyeOK (eyeMarginProfile st) -> Forall eyeOK (eyeMarginProfile st'))
  /\ (iterations st <= iterations st' <= iterations st + fuel)%nat
  /\ List.length (berProfile st')
     = (List.length (berProfile st) + (iterations st' - iterations st))%nat
  /\ ((0 < fuel)%nat ->
      (iterations st < iterations st')%nat
      /\ atLeast 1e-15 (currentBER st')
      /\ 0.1 <= currentEyeMargin st' <= 1.5
      /\ Heliopass.lanesOK (biasVoltages st') (lambdaShifts st')
           (laserPowerAdjust st')).
Proof.
  revert i st c. induction fuel as [| fuel IH]; intros i st c.
  - simpl. repeat split; try lia; try (intros H; exact H).
  - cbv zeta. rewrite loop_unroll.
    pose proof (iteration_post64 i st c) as P.
    pose proof (iteration_floor i st c) as Hfloor.
    set (st1 := fst (iteration src h profile targetBER dt i st c)) in *.
    set (c1 := snd (iteration src h profile targetBER dt i st c)) in *.
    assert (Hber : Forall berOK (berProfile st) -> Forall berOK (berProfile st1)).
    { intros H. rewrite (post_berProfile P). apply Forall_app. split; [exact H |].
      constructor; [exact Hfloor | constructor]. }
    assert (Heye : Forall eyeOK (eyeMarginProfile st)
                   -> Forall eyeOK (eyeMarginProfile st1)).
    { intros H. rewrite (post_eyeMarginProfile P). apply Forall_app.
      split; [exact H |]. constructor; [exact (post_eye P) | constructor]. }
    assert (Hlen : List.length (berProfile st1)
                   = S (List.length (berProfile st))).
    { rewrite (post_berProfile P), length_app. simpl. lia. }
    destruct (checkConvergence targetBER st1).
    + cbn [fst setConverged biasVoltages lambdaShifts laserPowerAdjust
           berProfile eyeMarginProfile iterations currentBER currentEyeMargin].
      rewrite (post_len_bias P), (post_len_lambda P), (post_len_laser P),
        (post_iterations P), Hlen.
      pose proof (post_eye P) as [E1 E2].
      pose proof (post_lanes P) as (L1 & L2 & L3).
      repeat split; try lia; assumption.
    + specialize (IH (S i) st1 c1). cbv zeta in IH.
      destruct IH as (I1 & I2 & I3 & I4 & I5 & I6 & I7 & I8).
      rewrite I1, I2, I3, I7, Hlen.
      rewrite (post_len_bias P), (post_len_lambda P), (post_len_laser P).
      rewrite (post_iterations P) in I6 |- *.
      split; [reflexivity |]. split; [reflexivity |]. split; [reflexivity |].
      split; [intros H; apply I4, Hber, H |].
      split; [intros H; apply I5, Heye, H |].
      split; [lia |]. split; [lia |].
      intros _. destruct fuel as [| fuel'].
      * simpl. split; [rewrite (post_iterations P); lia |].
        split; [exact Hfloor |]. split; [exact (post_eye P) |].
        exact (post_lanes P).
      * destruct (I8 ltac:(lia)) as (J1 & J2 & J3 & J4).
        split; [lia |]. split; [exact J2 |]. split; [exact J3 | exact J4].
Qed.

(** From NaN the loop runs to the end of its fuel and ends in NaN. *)
Lemma loop_NaN (fuel i : nat) (st : LoopState) (c : nat) :
  currentBER st = NaN ->
  let st' := fst (loop src h profile targetBER dt fuel i st c) in
  currentBER st' = NaN
  /\ converged st' = converged st
  /\ iterations st' = (iterations st + fuel)%nat.
Proof.
  revert i st c. induction fuel as [| fuel IH]; intros i st c Hnan.
  - simpl. repeat split; [exact Hnan | lia].
  - cbv zeta. rewrite loop_unroll.
    pose proof (iteration_NaN i st c Hnan) as H1.
    rewrite (checkConvergence_NaN _ H1).
    destruct (IH (S i) _ (snd (iteration src h profile targetBER dt i st c)) H1)
      as (J1 & J2 & J3).
    pose proof (iteration_post64 i st c) as P.
    split; [exact J1 |]. split.
    + rewrite J2. apply P.
    + rewrite J3, (post_iterations P). lia.
Qed.

End Iteration.

(** ** Simulate *)

Section SimulateFacts.

Variable src : nat -> R.
Variable h : Heliopass.HELIOPASSSimulator.

Lemma Simulate_unknown64 (req : Heliopass.SimulationRequest) (c : nat) :
  Heliopass.GetAmbientProfiles (Heliopass.AmbientProfileName req) = None ->
  Simulate src h req c
  = (Failed ("unknown ambient profile: "
             ++ Heliopass.AmbientProfileName req)%string, c).
Proof. intros Hp. unfold Simulate. rewrite Hp. reflexivity. Qed.

Lemma Simulate_out_of_range64 (req : Heliopass.SimulationRequest)
    (profile : Heliopass.AmbientProfile) (c : nat) :
  Heliopass.GetAmbientProfiles (Heliopass.AmbientProfileName req)
  = Some profile ->
  (Heliopass.LambdaCount req < 0
   \/ Heliopass.maxSliceLen < Heliopass.LambdaCount req)%Z ->
  Simulate src h req c = (Panicked "makeslice: len out of range", c).
Proof.
  intros Hp Hn. unfold Simulate. rewrite Hp. cbv zeta.
  rewrite HeliopassProps.setDefaults_LambdaCount_nonzero.
  - rewrite (HeliopassProps.make_float64s_out_of_range Hn). reflexivity.
  - rewrite HeliopassProps.maxSliceLen_value in Hn. lia.
Qed.

Lemma Simulate_runs64 (req : Heliopass.SimulationRequest)
    (profile : Heliopass.AmbientProfile) (c : nat) :
  Heliopass.GetAmbientProfiles (Heliopass.AmbientProfileName req)
  = Some profile ->
  (0 <= Heliopass.LambdaCount req <= Heliopass.maxSliceLen)%Z ->
  let req' := Heliopass.setDefaults req profile in
  let lanes := Heliopass.effectiveLanes req in
  let dt :=
    IZR (Heliopass.Duration req') / IZR (Heliopass.MaxIterations h) in
  exists st0,
    (1 <= lanes)%nat
    /\ List.length (biasVoltages st0) = lanes
    /\ List.length (lambdaShifts st0) = lanes
    /\ List.length (laserPowerAdjust st0) = lanes
    /\ currentBER st0 = Finite (Heliopass.InitialBER req')
    /\ berProfile st0 = []
    /\ eyeMarginProfile st0 = []
    /\ converged st0 = false
    /\ iterations st0 = O
    /\ Simulate src h req c
       = (Returned
            (finalResponse req' dt
               (fst (loop src h profile (Heliopass.TargetBER req) dt
                       (Z.to_nat (Heliopass.MaxIterations h)) O st0
                       (c + 3 * lanes)%nat))),
          snd (loop src h profile (Heliopass.TargetBER req) dt
                 (Z.to_nat (Heliopass.MaxIterations h)) O st0
                 (c + 3 * lanes)%nat)).
Proof.
  intros Hp [Hn Hmax]. cbv zeta.
  pose proof (HeliopassProps.setDefaults_LambdaCount req profile Hn) as Hpos.
  pose proof (HeliopassProps.setDefaults_LambdaCount_max req profile Hmax)
    as Hle.
  unfold Simulate. rewrite Hp. cbv zeta.
  set (req' := Heliopass.setDefaults req profile) in *.
  rewrite (@HeliopassProps.make_float64s_in_range (Heliopass.LambdaCount req'))
    by lia.
  assert (HL : Z.to_nat (Heliopass.LambdaCount req')
               = Heliopass.effectiveLanes req) by reflexivity.
  rewrite HL.
  assert (H1 : (1 <= Heliopass.effectiveLanes req)%nat) by (rewrite <- HL; lia).
  set (zeros := repeat 0 (Heliopass.effectiveLanes req)).
  assert (Hz : List.length zeros = Heliopass.effectiveLanes req)
    by apply repeat_length.
  pose proof (HeliopassProps.initLanes_spec src zeros zeros zeros c
                eq_refl eq_refl) as Hi.
  unfold Heliopass.bind at 1.
  destruct (Heliopass.initLanes src zeros zeros zeros c) as [[[b l] p] c1].
  cbv beta iota zeta delta [fst snd] in Hi.
  destruct Hi as (L1 & L2 & L3 & L4). rewrite Hz in *.
  exists (initialState req' (b, l, p)).
  cbn [initialState biasVoltages lambdaShifts laserPowerAdjust currentBER
       berProfile eyeMarginProfile converged iterations].
  repeat (split; [first [assumption | reflexivity] |]).
  unfold Heliopass.bind, Heliopass.ret. subst c1.
  change (Heliopass.TargetBER req') with (Heliopass.TargetBER req).
  destruct (loop src h profile (Heliopass.TargetBER req) _ _ _ _ _) as [st c2].
  reflexivity.
Qed.

End SimulateFacts.

(** The values every response carries: the BER samples and the final BER
    are NaN or at least 1e-15, the eye margins lie in [0.1, 1.5], there is
    one BER sample per iteration, and the lanes are not empty. *)
Lemma Simulate_returned64 (src : nat -> R) (req : Heliopass.SimulationRequest)
    (c : nat) (resp : SimulationResponse) (c' : nat) :
  Simulate src h0 req c = (Returned resp, c') ->
  Heliopass.knownProfile (Heliopass.AmbientProfileName req) = true
  /\ (0 <= Heliopass.LambdaCount req <= Heliopass.maxSliceLen)%Z
  /\ (1 <= Iterations resp <= 50)%Z
  /\ atLeast 1e-15 (FinalBER resp)
  /\ 0.1 <= FinalEyeMargin resp <= 1.5
  /\ Forall (fun pt => atLeast 1e-15 (BER pt)) (BERProfile resp)
  /\ Forall (fun pt => 0.1 <= Heliopass.EyeMargin pt <= 1.5)
       (EyeMarginProfile resp)
  /\ List.length (BERProfile resp) = Z.to_nat (Iterations resp)
  /\ List.length (BiasVoltages resp) = Heliopass.effectiveLanes req
  /\ List.length (LaserPowerAdjust resp) = Heliopass.effectiveLanes req
  /\ (1 <= Heliopass.effectiveLanes req)%nat
  /\ PowerSavings resp
     = Heliopass.calculatePowerSavings (BiasVoltages resp)
         (LaserPowerAdjust resp).
Proof.
  intros Hsim. unfold Heliopass.knownProfile.
  destruct (Heliopass.GetAmbientProfiles (Heliopass.AmbientProfileName req))
    as [profile |] eqn:Hp.
  2:{ rewrite (Simulate_unknown64 src h0 req c Hp) in Hsim. discriminate. }
  destruct (Z.lt_ge_cases (Heliopass.LambdaCount req) 0) as [Hneg | Hnn].
  { rewrite (Simulate_out_of_range64 src h0 req c Hp (or_introl Hneg)) in Hsim.
    discriminate. }
  destruct (Z.lt_ge_cases Heliopass.maxSliceLen (Heliopass.LambdaCount req))
    as [Hbig | Hmax].
  { rewrite (Simulate_out_of_range64 src h0 req c Hp (or_intror Hbig)) in Hsim.
    discriminate. }
  destruct (Simulate_runs64 src h0 req c Hp (conj Hnn Hmax))
    as (st0 & HL & L1 & L2 & L3 & B0 & BP0 & EP0 & C0 & I0 & Heq).
  rewrite Heq in Hsim. clear Heq.
  change (Z.to_nat (Heliopass.MaxIterations h0)) with 50%nat in Hsim.
  match type of Hsim with
  | context [loop ?s ?hh ?p ?t ?d 50%nat O st0 ?cc] =>
      pose proof (loop_facts s hh p t d 50%nat O st0 cc) as F;
      remember (loop s hh p t d 50%nat O st0 cc) as lp eqn:Hlp
  end.
  clear Hlp. injection Hsim as Hresp _. subst resp.
  cbv zeta in F.
  destruct F as (F1 & F2 & F3 & F4 & F5 & F6 & F7 & F8).
  destruct (F8 ltac:(lia)) as (G1 & G2 & G3 & G4).
  rewrite BP0 in F4, F7. rewrite EP0 in F5. rewrite I0 in F6, F7, G1.
  unfold finalResponse.
  cbn [Iterations FinalBER FinalEyeMargin BERProfile EyeMarginProfile
       BiasVoltages LaserPowerAdjust PowerSavings].
  split; [reflexivity |]. split; [lia |]. split; [lia |].
  split; [exact G2 |]. split; [exact G3 |].
  split; [apply F4; constructor |]. split; [apply F5; constructor |].
  split; [rewrite F7, Nat2Z.id; simpl; lia |].
  split; [rewrite F1; exact L1 |]. split; [rewrite F3; exact L3 |].
  split; [exact HL | reflexivity].
Qed.

(** ** The overflowing run *)

Lemma overflowSource_4 : overflowSource 4 = 0.9.
Proof. reflexivity. Qed.

Lemma overflowSource_44 : overflowSource 44 = cancellingDraw.
Proof. reflexivity. Qed.

Lemma overflowSource_other (k : nat) :
  k <> 4%nat -> k <> 44%nat -> overflowSource k = 0.5.
Proof.
  intros H4 H44. unfold overflowSource.
  destruct (Nat.eqb_spec k 4); [contradiction |].
  destruct (Nat.eqb_spec k 44); [contradiction | reflexivity].
Qed.

Lemma exp_4_lower : 40 <= exp 4.
Proof.
  assert (Ha : 1.125 <= exp 0.125).
  { left. replace 1.125 with (1 + 0.125) by lra. apply exp_ineq1. lra. }
  assert (H1 : exp 0.25 = exp 0.125 * exp 0.125).
  { replace 0.25 with (0.125 + 0.125) at 1 by lra. apply exp_plus. }
  assert (H2 : exp 0.5 = exp 0.25 * exp 0.25).
  { replace 0.5 with (0.25 + 0.25) at 1 by lra. apply exp_plus. }
  assert (H3 : exp 1 = exp 0.5 * exp 0.5).
  { replace 1 with (0.5 + 0.5) at 1 by lra. apply exp_plus. }
  assert (H4 : exp 2 = exp 1 * exp 1).
  { replace 2 with (1 + 1) at 1 by lra. apply exp_plus. }
  assert (H5 : exp 4 = exp 2 * exp 2).
  { replace 4 with (2 + 2) at 1 by lra. apply exp_plus. }
  set (a := exp 0.125) in *.
  assert (B1 : 1.265 <= exp 0.25) by (rewrite H1; nra).
  assert (B2 : 1.6 <= exp 0.5) by (rewrite H2; nra).
  assert (B3 : 2.56 <= exp 1) by (rewrite H3; nra).
  assert (B4 : 6.55 <= exp 2) by (rewrite H4; nra).
  rewrite H5. nra.
Qed.

(** The cancelling draw is one that [rand.Float64] can return. *)
Lemma cancellingDraw_inUnit : 0 <= cancellingDraw < 1.
Proof.
  unfold cancellingDraw. cbn [Heliopass.ConvergenceRate h0].
  replace (- INR 5 * 0.8) with (- (4)) by (simpl; lra).
  rewrite exp_Ropp.
  pose proof exp_4_lower as H. pose proof (exp_pos 4) as Hpos.
  assert (Hinv : 0 < / exp 4 <= / 40).
  { split; [apply Rinv_0_lt_compat; exact Hpos |].
    apply Rinv_le_contravar; lra. }
  lra.
Qed.

Lemma overflowSource_inUnit : Heliopass.inUnit overflowSource.
Proof.
  intros k. unfold overflowSource.
  destruct (k =? 4)%nat; [lra |].
  destruct (k =? 44)%nat; [exact cancellingDraw_inUnit | lra].
Qed.

Lemma lab_default_profile :
  exists profile,
    Heliopass.GetAmbientProfiles "lab_default" = Some profile
    /\ Heliopass.NoiseLevel profile = 0.05.
Proof. eexists. split; reflexivity. Qed.

Section OverflowRun.

Variable profile : Heliopass.AmbientProfile.
Hypothesis noise_lab : Heliopass.NoiseLevel profile = 0.05.
Variable t dt : R.
Hypothesis target_small : 0 < t <= 1.

Local Abbreviation step := (iteration overflowSource h0 profile t dt).
Local Abbreviation oneLane := (fun st : LoopState =>
  List.length (biasVoltages st) = 1%nat
  /\ List.length (lambdaShifts st) = 1%nat
  /\ List.length (laserPowerAdjust st) = 1%nat).

Lemma improvement_value (src : nat -> R) (i : nat) (nl : R) (c : nat) :
  fst (Heliopass.calculateImprovement src h0 i nl c)
  = exp (- INR i * 0.8) + (src c - 0.5) * nl.
Proof. reflexivity. Qed.

(** With one lane a pass takes eight draws and keeps the lane. *)
Lemma step_one_lane (i : nat) (st : LoopState) :
  oneLane st ->
  oneLane (fst (step i st (3 + 8 * i)%nat))
  /\ snd (step i st (3 + 8 * i)%nat) = (3 + 8 * S i)%nat
  /\ converged (fst (step i st (3 + 8 * i)%nat)) = converged st
  /\ iterations (fst (step i st (3 + 8 * i)%nat)) = S (iterations st).
Proof.
  intros (L1 & L2 & L3).
  pose proof (iteration_post64 overflowSource h0 profile t dt i st
                (3 + 8 * i)%nat) as P.
  split; [| split; [| split]].
  - rewrite (post_len_bias P), (post_len_lambda P), (post_len_laser P).
    repeat split; assumption.
  - rewrite (post_cursor P), L1, L2, L3. lia.
  - apply P.
  - apply P.
Qed.

(** An infinite BER does not meet the target. *)
Lemma check_PosInf (st : LoopState) :
  currentBER st = PosInf -> checkConvergence t st = false.
Proof.
  intros H. unfold checkConvergence. rewrite H.
  assert (E : mul (Finite t) (Finite 1.1) = Finite (t * 1.1)).
  { unfold mul. apply fromReal_small.
    pose proof overflowThreshold_large. lra. }
  rewrite E. reflexivity.
Qed.

(** Loop index 0: the largest float64, taken further from the target by the
    improvement factor 1.02, overflows. *)
Lemma first_pass_overflows (st : LoopState) :
  currentBER st = Finite MaxFloat64 ->
  currentBER (fst (step 0 st 3%nat)) = PosInf.
Proof.
  intros H.
  rewrite (post_ber (iteration_post64 overflowSource h0 profile t dt 0 st 3)).
  rewrite H, improvement_value, overflowSource_4, noise_lab.
  replace (exp (- INR 0 * 0.8)) with 1
    by (simpl INR; replace (- 0 * 0.8) with 0 by lra; symmetry; apply exp_0).
  pose proof MaxFloat64_bounds as (M1 & M2 & M3).
  pose proof pow2_1023_ge_1 as HP.
  assert (E1 : sub (Finite MaxFloat64) (Finite t) = Finite (MaxFloat64 + - t)).
  { unfold sub, neg, add. apply fromReal_small. lra. }
  assert (E2 : mul (Finite (MaxFloat64 + - t)) (Finite (1 + (0.9 - 0.5) * 0.05))
               = PosInf).
  { unfold mul. apply fromReal_overflow. nra. }
  rewrite E1, E2. reflexivity.
Qed.

(** Loop indices 1 to 4: the draw is one half, the factor is positive and
    +Inf stays. *)
Lemma inf_phase (n : nat) :
  forall (i : nat) (st : LoopState) (fuel : nat),
    (1 <= i)%nat -> (i + n <= 5)%nat ->
    oneLane st -> currentBER st = PosInf ->
    exists st',
      loop overflowSource h0 profile t dt (n + fuel) i st (3 + 8 * i)%nat
      = loop overflowSource h0 profile t dt fuel (i + n) st'
          (3 + 8 * (i + n))%nat
      /\ oneLane st'
      /\ currentBER st' = PosInf
      /\ converged st' = converged st
      /\ iterations st' = (iterations st + n)%nat.
Proof.
  induction n as [| n IH]; intros i st fuel Hi Hin Hlane Hinf.
  - exists st. rewrite !Nat.add_0_r. repeat split; try apply Hlane; auto.
  - destruct (step_one_lane i Hlane) as (Hl1 & Hc1 & Hcv & Hit).
    assert (Hst1 : currentBER (fst (step i st (3 + 8 * i)%nat)) = PosInf).
    { apply iteration_PosInf; [exact Hinf |].
      rewrite improvement_value, noise_lab.
      rewrite overflowSource_other by lia.
      pose proof (exp_pos (- INR i * 0.8)). lra. }
    change (S n + fuel)%nat with (S (n + fuel)).
    rewrite loop_unroll, (check_PosInf _ Hst1), Hc1.
    destruct (IH (S i) _ fuel ltac:(lia) ltac:(lia) Hl1 Hst1)
      as (st' & E & Hl' & Hinf' & Hcv' & Hit').
    exists st'. replace (i + S n)%nat with (S i + n)%nat by lia.
    split; [exact E |]. split; [exact Hl' |]. split; [exact Hinf' |].
    split; [congruence | lia].
Qed.

(** Loop index 5: the cancelling draw makes the factor zero, and +Inf times
    zero is NaN. *)
Lemma sixth_pass_cancels (st : LoopState) :
  currentBER st = PosInf ->
  currentBER (fst (step 5 st (3 + 8 * 5)%nat)) = NaN.
Proof.
  intros H. apply iteration_PosInf_zero; [exact H |].
  rewrite improvement_value, noise_lab.
  change (S (3 + 8 * 5)) with 44%nat. rewrite overflowSource_44.
  unfold cancellingDraw. cbn [Heliopass.ConvergenceRate h0].
  set (e := exp (- INR 5 * 0.8)). lra.
Qed.

Lemma overflow_run (st0 : LoopState) :
  oneLane st0 ->
  currentBER st0 = Finite MaxFloat64 ->
  let st' := fst (loop overflowSource h0 profile t dt 50 0 st0 3%nat) in
  currentBER st' = NaN
  /\ converged st' = converged st0
  /\ iterations st' = (iterations st0 + 50)%nat.
Proof.
  intros Hlane H0. cbv zeta.
  destruct (@step_one_lane 0 st0 Hlane) as (Hl1 & Hc1 & Hcv1 & Hit1).
  pose proof (first_pass_overflows st0 H0) as Hinf1.
  change (3 + 8 * 0)%nat with 3%nat in Hl1, Hc1, Hcv1, Hit1.
  rewrite loop_unroll, (check_PosInf _ Hinf1), Hc1.
  destruct (@inf_phase 4 1 _ 45 ltac:(lia) ltac:(lia) Hl1 Hinf1)
    as (st5 & E & Hl5 & Hinf5 & Hcv5 & Hit5).
  change (4 + 45)%nat with 49%nat in E. rewrite E. clear E.
  change (1 + 4)%nat with 5%nat.
  destruct (@step_one_lane 5 st5 Hl5) as (Hl6 & Hc6 & Hcv6 & Hit6).
  pose proof (sixth_pass_cancels st5 Hinf5) as Hnan.
  rewrite loop_unroll.
  rewrite (checkConvergence_NaN t _ Hnan), Hc6.
  match goal with
  | |- context [loop ?s ?hh ?p ?tt ?d 44%nat ?i ?st ?cc] =>
      destruct (@loop_NaN s hh p tt d 44%nat i st cc Hnan) as (J1 & J2 & J3)
  end.
  split; [exact J1 |]. split; [congruence | lia].
Qed.

End OverflowRun.

(** The overflowing request is answered with a response whose final BER is
    NaN, after all 50 iterations. *)
Lemma overflow_response :
  exists resp c',
    Simulate overflowSource h0 overflowRequest O = (Returned resp, c')
    /\ FinalBER resp = NaN
    /\ Converged resp = false
    /\ Iterations resp = 50%Z.
Proof.
  destruct lab_default_profile as (profile & Hp & Hnoise).
  assert (Hn : (0 <= Heliopass.LambdaCount overflowRequest
                <= Heliopass.maxSliceLen)%Z)
    by (rewrite HeliopassProps.maxSliceLen_value; simpl; lia).
  destruct (Simulate_runs64 overflowSource h0 overflowRequest O Hp Hn)
    as (st0 & _ & L1 & L2 & L3 & B0 & _ & _ & C0 & I0 & Hsim).
  change (Heliopass.effectiveLanes overflowRequest) with 1%nat in *.
  change (Z.to_nat (Heliopass.MaxIterations h0)) with 50%nat in Hsim.
  change (Heliopass.TargetBER overflowRequest) with 1e-12 in Hsim.
  change (0 + 3 * 1)%nat with 3%nat in Hsim.
  change (Heliopass.InitialBER (Heliopass.setDefaults overflowRequest profile))
    with (if Heliopass.fzero MaxFloat64 then 1e-9 else MaxFloat64) in B0.
  assert (Hnz : Heliopass.fzero MaxFloat64 = false).
  { unfold Heliopass.fzero. destruct (Req_dec_T MaxFloat64 0) as [E |];
      [| reflexivity].
    pose proof MaxFloat64_bounds as (M1 & _). pose proof pow2_1023_ge_1.
    lra. }
  rewrite Hnz in B0.
  match type of Hsim with
  | context [loop _ _ _ _ ?d _ _ _ _] => set (dt := d) in *
  end.
  assert (Ht : 0 < 1e-12 <= 1) by lra.
  destruct (@overflow_run profile Hnoise 1e-12 dt Ht st0
              (conj L1 (conj L2 L3)) B0) as (R1 & R2 & R3).
  remember (loop overflowSource h0 profile 1e-12 dt 50 0 st0 3%nat) as lp eqn:Hlp.
  clear Hlp.
  eexists. eexists. split; [exact Hsim |].
  unfold finalResponse. cbn [FinalBER Converged Iterations].
  split; [exact R1 |]. split; [congruence |].
  rewrite R3, I0. reflexivity.
Qed.

(** C10, the failing input: for the request with initial_ber at the largest
    float64 and draws that [rand.Float64] can return, the response that
    [Simulate] returns has a final BER of NaN, which is not at least 1e-15:
    the first improvement factor, 1.02, takes the BER to +Inf, the factor
    zero at loop index 5 takes +Inf to NaN, and [math.Max(NaN, 1e-15)] is
    NaN in every later iteration.  The eye margin and the iteration count
    are as the claim says. *)
Theorem final_BER_can_be_NaN :
  Heliopass.inUnit overflowSource
  /\ Heliopass.knownProfile (Heliopass.AmbientProfileName overflowRequest)
     = true
  /\ exists resp c',
       Simulate overflowSource h0 overflowRequest O = (Returned resp, c')
       /\ FinalBER resp = NaN
       /\ le (Finite 1e-15) (FinalBER resp) = false
       /\ 0.1 <= FinalEyeMargin resp <= 1.5
       /\ (1 <= Iterations resp)%Z.
Proof.
  split; [exact overflowSource_inUnit |]. split; [reflexivity |].
  destruct overflow_response as (resp & c' & Hsim & Hnan & _ & Hit).
  exists resp, c'. split; [exact Hsim |]. split; [exact Hnan |].
  split; [rewrite Hnan; reflexivity |].
  destruct (Simulate_returned64 _ _ _ Hsim)
    as (_ & _ & _ & _ & He & _).
  split; [exact He | lia].
Qed.

(** ** Every sample *)

(** X6: no sample of a response is a number below its floor.  Every BER
    sample and the final BER are NaN or at least 1e-15 (+Inf included),
    every eye margin sample and the final eye margin lie in [0.1, 1.5], and
    there is one BER sample per iteration. *)
Theorem every_sample_clamped (src : nat -> R)
    (req : Heliopass.SimulationRequest) (c : nat)
    (resp : SimulationResponse) (c' : nat) :
  Simulate src h0 req c = (Returned resp, c') ->
  Forall (fun pt => atLeast 1e-15 (BER pt)) (BERProfile resp)
  /\ atLeast 1e-15 (FinalBER resp)
  /\ Forall (fun pt => 0.1 <= Heliopass.EyeMargin pt <= 1.5)
       (EyeMarginProfile resp)
  /\ 0.1 <= FinalEyeMargin resp <= 1.5
  /\ List.length (BERProfile resp) = Z.to_nat (Iterations resp).
Proof.
  intros Hsim.
  destruct (Simulate_returned64 _ _ _ Hsim)
    as (_ & _ & _ & Hf & He & Hb & Hes & Hlen & _).
  repeat split; assumption || apply He.
Qed.

Lemma every_sample_clamped_witness :
  exists resp c',
    Simulate overflowSource Heliopass.NewHELIOPASSSimulator overflowRequest O
    = (Returned resp, c')
    /\ Forall (fun pt => atLeast 1e-15 (BER pt)) (BERProfile resp)
    /\ atLeast 1e-15 (FinalBER resp)
    /\ Forall (fun pt => 0.1 <= Heliopass.EyeMargin pt <= 1.5)
         (EyeMarginProfile resp)
    /\ 0.1 <= FinalEyeMargin resp <= 1.5
    /\ List.length (BERProfile resp) = Z.to_nat (Iterations resp).
Proof.
  destruct overflow_response as (resp & c' & Hsim & _).
  exists resp, c'. split; [exact Hsim |].
  exact (@every_sample_clamped overflowSource overflowRequest O resp c' Hsim).
Defined.

(** ** The HTTP handler *)

Lemma calculatePowerSavings_of_lanes (bias laser : list R) :
  bias <> [] -> laser <> [] ->
  exists s, Heliopass.calculatePowerSavings bias laser = Some s.
Proof.
  intros Hb Hl. destruct bias as [| v bias]; [contradiction |].
  destruct laser as [| p laser]; [contradiction |].
  unfold Heliopass.calculatePowerSavings, Heliopass.divByLen.
  cbn [List.length]. eexists. reflexivity.
Qed.

Lemma forallb_false_Exists (A : Type) (f : A -> bool) (l : list A) :
  forallb f l = false -> Exists (fun x => f x = false) l.
Proof.
  induction l as [| x l IH]; simpl; [discriminate |].
  destruct (f x) eqn:E; simpl.
  - intros H. right. apply IH, H.
  - intros _. left. exact E.
Qed.

(** What the handler makes of a response. *)
Lemma encodable_cases (src : nat -> R) (req : Heliopass.SimulationRequest)
    (c : nat) (resp : SimulationResponse) (c' : nat) :
  Simulate src h0 req c = (Returned resp, c') ->
  (HeliopassHTTP.encodable resp = true
   /\ isFinite (FinalBER resp) = true
   /\ Forall (fun pt => isFinite (BER pt) = true) (BERProfile resp))
  \/ (HeliopassHTTP.encodable resp = false
      /\ (isFinite (FinalBER resp) = false
          \/ Exists (fun pt => isFinite (BER pt) = false) (BERProfile resp))).
Proof.
  intros Hsim.
  destruct (Simulate_returned64 _ _ _ Hsim)
    as (_ & _ & _ & _ & _ & _ & _ & _ & Lb & Ll & HL & Hps).
  assert (Hsome : exists s, PowerSavings resp = Some s).
  { rewrite Hps. apply calculatePowerSavings_of_lanes.
    - intros E. rewrite E in Lb. simpl in Lb. lia.
    - intros E. rewrite E in Ll. simpl in Ll. lia. }
  destruct Hsome as [s Hs]. unfold HeliopassHTTP.encodable. rewrite Hs.
  rewrite andb_true_r.
  destruct (isFinite (FinalBER resp)) eqn:Ef; cbn [andb].
  - destruct (forallb (fun pt => isFinite (BER pt)) (BERProfile resp)) eqn:Ep.
    + left. split; [reflexivity |]. split; [reflexivity |].
      apply Forall_forall. intros pt Hin.
      exact (proj1 (forallb_forall _ _) Ep pt Hin).
    + right. split; [reflexivity |]. right.
      apply forallb_false_Exists in Ep. exact Ep.
  - right. split; [reflexivity |]. left. reflexivity.
Qed.

(** X14: the answers of [handleSimulate].  A body that does not decode is
    answered 400; a decoded request naming an unknown ambient profile is
    answered 500 (not a 4xx) with the message of [Simulate]'s error, and in
    both cases no random number is drawn.  A known profile with a lane count
    that [make] refuses, negative or above [maxSliceLen], gets no answer:
    the handler panics.  Every other request is answered 200: with the
    response when all its BER values are finite, and with an empty body
    when one of them is NaN or an infinity, which [Encode] refuses -- as
    for the overflowing request. *)
Theorem handleSimulate_statuses (src : nat -> R)
    (body : HeliopassHTTP.DecodedBody) (c : nat) :
  match HeliopassHTTP.handleSimulate src h0 body c with
  | (HeliopassHTTP.ReplyError status msg, c') =>
      c' = c
      /\ ((status = 400%Z /\ msg = "Invalid request body"
           /\ exists err, body = HeliopassHTTP.BadBody err)
          \/ (status = 500%Z
              /\ exists req,
                   body = HeliopassHTTP.GoodBody req
                   /\ Heliopass.knownProfile (Heliopass.AmbientProfileName req)
                      = false
                   /\ msg = ("unknown ambient profile: "
                             ++ Heliopass.AmbientProfileName req)%string))
  | (HeliopassHTTP.ReplyJSON status resp, c') =>
      status = 200%Z
      /\ exists req,
           body = HeliopassHTTP.GoodBody req
           /\ Simulate src h0 req c = (Returned resp, c')
           /\ isFinite (FinalBER resp) = true
           /\ Forall (fun pt => isFinite (BER pt) = true) (BERProfile resp)
  | (HeliopassHTTP.ReplyEmpty status, c') =>
      status = 200%Z
      /\ exists req resp,
           body = HeliopassHTTP.GoodBody req
           /\ Simulate src h0 req c = (Returned resp, c')
           /\ (isFinite (FinalBER resp) = false
               \/ Exists (fun pt => isFinite (BER pt) = false)
                    (BERProfile resp))
  | (HeliopassHTTP.NoReply _, c') =>
      c' = c
      /\ exists req,
           body = HeliopassHTTP.GoodBody req
           /\ Heliopass.knownProfile (Heliopass.AmbientProfileName req) = true
           /\ (Heliopass.LambdaCount req < 0
               \/ Heliopass.maxSliceLen < Heliopass.LambdaCount req)%Z
  end
  /\ exists c',
       HeliopassHTTP.handleSimulate overflowSource h0
         (HeliopassHTTP.GoodBody overflowRequest) O
       = (HeliopassHTTP.ReplyEmpty 200, c').
Proof.
  split.
  - destruct body as [err | req]; cbn [HeliopassHTTP.handleSimulate].
    + unfold Heliopass.ret. split; [reflexivity |]. left.
      split; [reflexivity |]. split; [reflexivity |]. exists err. reflexivity.
    + unfold Heliopass.knownProfile.
      destruct (Heliopass.GetAmbientProfiles (Heliopass.AmbientProfileName req))
        as [profile |] eqn:Hp.
      * destruct (Z.lt_ge_cases (Heliopass.LambdaCount req) 0) as [Hneg | Hnn].
        { rewrite (Simulate_out_of_range64 src h0 req c Hp (or_introl Hneg)).
          split; [reflexivity |]. exists req. rewrite Hp.
          split; [reflexivity |]. split; [reflexivity |]. left. exact Hneg. }
        destruct (Z.lt_ge_cases Heliopass.maxSliceLen (Heliopass.LambdaCount req))
          as [Hbig | Hmax].
        { rewrite (Simulate_out_of_range64 src h0 req c Hp (or_intror Hbig)).
          split; [reflexivity |]. exists req. rewrite Hp.
          split; [reflexivity |]. split; [reflexivity |]. right. exact Hbig. }
        destruct (Simulate_runs64 src h0 req c Hp (conj Hnn Hmax))
          as (st0 & Hrest).
        do 9 (destruct Hrest as (_ & Hrest)).
        match type of Hrest with
        | _ = (Returned ?r, ?k) =>
            remember r as resp eqn:Hr; remember k as c' eqn:Hk
        end.
        clear Hr Hk. rewrite Hrest.
        destruct (encodable_cases _ _ _ Hrest)
          as [(E & Hf & Hs) | (E & Hbad)]; rewrite E.
        -- split; [reflexivity |]. exists req. repeat split; assumption.
        -- split; [reflexivity |]. exists req, resp. repeat split; assumption.
      * rewrite (Simulate_unknown64 src h0 req c Hp).
        split; [reflexivity |]. right. split; [reflexivity |].
        exists req. rewrite Hp. repeat split.
  - destruct overflow_response as (resp & c' & Hsim & Hnan & _).
    exists c'. cbn [HeliopassHTTP.handleSimulate]. rewrite Hsim.
    unfold HeliopassHTTP.encodable. rewrite Hnan. reflexivity.
Qed.

(** ** Runs that stay finite *)

Lemma pow10_306 : 10 ^ 306 = 1e306.
Proof.
  rewrite pow_IZR.
  change (10 ^ Z.of_nat 306)%Z with (Z.pow_pos 10 306).
  set (z := IZR (Z.pow_pos 10 306)). lra.
Qed.

Lemma overflowThreshold_huge : 1e306 <= overflowThreshold.
Proof.
  assert (H10 : 10 ^ 3 <= 2 ^ 10) by (simpl; lra).
  assert (H : (10 ^ 3) ^ 102 <= (2 ^ 10) ^ 102).
  { apply pow_incr. split; [simpl; lra | exact H10]. }
  rewrite <- !pow_mult in H.
  change (3 * 102)%nat with 306%nat in H.
  change (10 * 102)%nat with 1020%nat in H.
  assert (E : 2 ^ 1023 = 2 ^ 3 * 2 ^ 1020).
  { rewrite <- pow_add. reflexivity. }
  pose proof MaxFloat64_bounds as (M1 & M2 & _).
  rewrite E in M1. rewrite pow10_306 in H.
  assert (Hpos : 0 < 2 ^ 1020) by (apply pow_lt; lra).
  set (b := 2 ^ 1020) in *. simpl in M1. lra.
Qed.

Lemma pow_11_50 : 1.1 ^ 50 <= 118.
Proof. simpl. lra. Qed.

Lemma exp_nonpos (x : R) : x <= 0 -> 0 < exp x <= 1.
Proof.
  intros Hx. split; [apply exp_pos |].
  destruct Hx as [Hlt | ->]; [| rewrite exp_0; lra].
  left. rewrite <- exp_0. apply exp_increasing. exact Hlt.
Qed.

Lemma Finite_add (x y : R) :
  Rabs (x + y) < overflowThreshold -> add (Finite x) (Finite y) = Finite (x + y).
Proof.
  intros H. unfold add. apply fromReal_small.
  apply Rabs_def2 in H. lra.
Qed.

Lemma Finite_mul (x y : R) :
  Rabs (x * y) < overflowThreshold -> mul (Finite x) (Finite y) = Finite (x * y).
Proof.
  intros H. unfold mul. apply fromReal_small.
  apply Rabs_def2 in H. lra.
Qed.

Lemma Rabs_Rmax_floor (y : R) : Rabs (Rmax y 1e-15) <= Rabs y + 1.
Proof.
  unfold Rmax. destruct (Rle_dec y 1e-15).
  - rewrite Rabs_right by lra. pose proof (Rabs_pos y). lra.
  - lra.
Qed.

(** One BER update on finite values that are not huge: no operation
    overflows, the result is the real number, and the magnitude grows by
    at most a tenth. *)
Lemma ber_update_finite (t cur imp n : R) :
  Rabs cur + 21 * Rabs t + 30 <= 1e305 ->
  Rabs imp <= 1.1 -> Rabs n <= 1 ->
  Max (add (add (Finite t) (mul (sub (Finite cur) (Finite t)) (Finite imp)))
           (Finite n))
      (Finite 1e-15)
  = Finite (Rmax (t + (cur - t) * imp + n) 1e-15)
  /\ Rabs (Rmax (t + (cur - t) * imp + n) 1e-15) + 21 * Rabs t + 30
     <= 1.1 * (Rabs cur + 21 * Rabs t + 30).
Proof.
  intros HE Himp Hn.
  pose proof overflowThreshold_huge as HT.
  pose proof (Rabs_pos cur) as Pc. pose proof (Rabs_pos t) as Pt.
  pose proof (Rabs_pos imp) as Pi.
  assert (H1 : Rabs (cur + - t) <= Rabs cur + Rabs t).
  { eapply Rle_trans; [apply Rabs_triang |]. rewrite Rabs_Ropp. lra. }
  assert (H2 : Rabs ((cur + - t) * imp) <= (Rabs cur + Rabs t) * 1.1).
  { rewrite Rabs_mult. apply Rmult_le_compat; try assumption.
    apply Rabs_pos. }
  assert (H3 : Rabs (t + (cur + - t) * imp)
               <= Rabs t + (Rabs cur + Rabs t) * 1.1).
  { eapply Rle_trans; [apply Rabs_triang |]. lra. }
  assert (H4 : Rabs (t + (cur + - t) * imp + n)
               <= Rabs t + (Rabs cur + Rabs t) * 1.1 + 1).
  { eapply Rle_trans; [apply Rabs_triang |]. lra. }
  assert (E1 : sub (Finite cur) (Finite t) = Finite (cur + - t)).
  { unfold sub, neg. apply Finite_add. lra. }
  assert (E2 : mul (Finite (cur + - t)) (Finite imp)
               = Finite ((cur + - t) * imp)).
  { apply Finite_mul. lra. }
  assert (E3 : add (Finite t) (Finite ((cur + - t) * imp))
               = Finite (t + (cur + - t) * imp)).
  { apply Finite_add. lra. }
  assert (E4 : add (Finite (t + (cur + - t) * imp)) (Finite n)
               = Finite (t + (cur + - t) * imp + n)).
  { apply Finite_add. lra. }
  rewrite E1, E2, E3, E4. split; [reflexivity |].
  pose proof (Rabs_Rmax_floor (t + (cur + - t) * imp + n)) as H5.
  change (cur - t) with (cur + - t). lra.
Qed.

Section Refinement.

Variable src : nat -> R.
Hypothesis src_unit : Heliopass.inUnit src.
Variable profile : Heliopass.AmbientProfile.
Hypothesis noise_level : 0 <= Heliopass.NoiseLevel profile <= 0.2.
Variable t dt : R.
Hypothesis target_moderate : moderate t.

Local Abbreviation size := (fun st : Heliopass.LoopState =>
  Rabs (Heliopass.currentBER st) + 21 * Rabs t + 30).

Lemma improvement_bound (i c : nat) :
  Rabs (fst (Heliopass.calculateImprovement src h0 i
               (Heliopass.NoiseLevel profile) c)) <= 1.1.
Proof.
  rewrite improvement_value.
  assert (Hx : - INR i * 0.8 <= 0).
  { pose proof (pos_INR i). nra. }
  pose proof (exp_nonpos Hx) as He. pose proof (src_unit c) as Hs.
  set (e := exp (- INR i * 0.8)) in *.
  set (nl := Heliopass.NoiseLevel profile) in *.
  apply Rabs_le. split; nra.
Qed.

Lemma berNoise_bound (time : R) (c : nat) :
  Rabs (fst (Heliopass.calculateBERNoise src time profile c)) <= 1.
Proof.
  unfold Heliopass.calculateBERNoise, Heliopass.bind, Heliopass.ret,
    Heliopass.rand_Float64. cbn [fst].
  pose proof (SIN_bound (time * 0.5)) as Hsin. pose proof (src_unit c) as Hs.
  set (sn := sin (time * 0.5)) in *.
  set (nl := Heliopass.NoiseLevel profile) in *.
  apply Rabs_le. split; nra.
Qed.

(** One pass of the float64 loop from a real-number state is the pass of
    the real-number loop. *)
Lemma iteration_embed (i : nat) (st : Heliopass.LoopState) (c : nat) :
  size st <= 1e305 ->
  iteration src h0 profile t dt i (embedState st) c
  = (embedState (fst (Heliopass.iteration src h0 profile t dt i st c)),
     snd (Heliopass.iteration src h0 profile t dt i st c))
  /\ size (fst (Heliopass.iteration src h0 profile t dt i st c))
     <= 1.1 * size st.
Proof.
  intros Hsize.
  destruct (@ber_update_finite t (Heliopass.currentBER st)
              (fst (Heliopass.calculateImprovement src h0 i
                      (Heliopass.NoiseLevel profile) (S c)))
              (fst (Heliopass.calculateBERNoise src (INR i * dt) profile
                      (S (S c))))
              Hsize (improvement_bound i (S c))
              (berNoise_bound (INR i * dt) (S (S c)))) as [Eber Hgrow].
  unfold iteration, Heliopass.iteration,
    Heliopass.simulateTemperatureNoise, Heliopass.calculateEyeImprovement,
    Heliopass.calculateEyeNoise.
  unfold Heliopass.calculateImprovement, Heliopass.calculateBERNoise
    in Eber, Hgrow |- *.
  unfold Heliopass.rand_Float64, Heliopass.bind, Heliopass.ret
    in Eber, Hgrow |- *.
  cbn [fst snd embedState currentBER currentEyeMargin biasVoltages
       lambdaShifts laserPowerAdjust temperatureProfile berProfile
       eyeMarginProfile converged iterations] in Eber, Hgrow |- *.
  destruct (Heliopass.updateBiasVoltages src h0 (Heliopass.biasVoltages st)
              (INR i * dt) profile (S (S (S (S (S c)))))) as [bias c1].
  destruct (Heliopass.updateLambdaShifts src (Heliopass.lambdaShifts st)
              (INR i * dt) profile c1) as [lambda c2].
  destruct (Heliopass.updateLaserPower src h0 (Heliopass.laserPowerAdjust st)
              (INR i * dt) profile c2) as [laser c3].
  cbn [fst snd Heliopass.currentBER] in Hgrow |- *.
  split; [| exact Hgrow].
  rewrite Eber. unfold embedState.
  cbn [Heliopass.currentBER Heliopass.currentEyeMargin Heliopass.biasVoltages
       Heliopass.lambdaShifts Heliopass.laserPowerAdjust
       Heliopass.temperatureProfile Heliopass.berProfile
       Heliopass.eyeMarginProfile Heliopass.converged Heliopass.iterations].
  rewrite map_app. reflexivity.
Qed.

Lemma checkConvergence_embed (st : Heliopass.LoopState) :
  checkConvergence t (embedState st) = Heliopass.checkConvergence t st.
Proof.
  unfold checkConvergence, Heliopass.checkConvergence.
  cbn [embedState currentBER currentEyeMargin].
  assert (E : mul (Finite t) (Finite 1.1) = Finite (t * 1.1)).
  { apply Finite_mul. pose proof overflowThreshold_huge.
    unfold moderate in target_moderate.
    rewrite Rabs_mult, (Rabs_right 1.1) by lra. lra. }
  rewrite E. reflexivity.
Qed.

Lemma size_nonneg (st : Heliopass.LoopState) : 0 <= size st.
Proof.
  pose proof (Rabs_pos (Heliopass.currentBER st)). pose proof (Rabs_pos t).
  lra.
Qed.

(** The float64 loop from a real-number state is the real-number loop, as
    long as the state is small enough for the iterations still to come. *)
Lemma loop_embed (fuel : nat) :
  forall (i : nat) (st : Heliopass.LoopState) (c : nat),
    size st * 1.1 ^ fuel <= 1e305 ->
    loop src h0 profile t dt fuel i (embedState st) c
    = (embedState (fst (Heliopass.loop src h0 profile t dt fuel i st c)),
       snd (Heliopass.loop src h0 profile t dt fuel i st c)).
Proof.
  induction fuel as [| fuel IH]; intros i st c Hsize.
  - reflexivity.
  - pose proof (size_nonneg st) as Hpos.
    assert (Hp : 1 <= 1.1 ^ fuel) by (apply pow_R1_Rle; lra).
    assert (Hnow : size st <= 1e305).
    { simpl pow in Hsize. nra. }
    destruct (iteration_embed i c Hnow) as [Estep Hgrow].
    rewrite loop_unroll, Estep. cbn [fst snd].
    rewrite checkConvergence_embed.
    simpl Heliopass.loop. unfold Heliopass.bind at 1 2.
    destruct (Heliopass.iteration src h0 profile t dt i st c) as [st' c'].
    cbn [fst snd] in Hgrow |- *.
    destruct (Heliopass.checkConvergence t st').
    + reflexivity.
    + apply IH. simpl pow in Hsize. nra.
Qed.

End Refinement.

Lemma Forall_embedded (pts : list Heliopass.BERPoint) :
  Forall (fun pt => isFinite (BER pt) = true) (map embedBERPoint pts).
Proof.
  apply Forall_forall. intros pt Hin. apply in_map_iff in Hin.
  destruct Hin as (q & <- & _). reflexivity.
Qed.

(** The float64 run of a moderate request is its real-number run. *)
Lemma Simulate_embed (src : nat -> R) (req : Heliopass.SimulationRequest)
    (c : nat) :
  Heliopass.inUnit src ->
  moderate (Heliopass.InitialBER req) ->
  moderate (Heliopass.TargetBER req) ->
  Simulate src h0 req c
  = (embedOutcome (fst (Heliopass.Simulate src h0 req c)),
     snd (Heliopass.Simulate src h0 req c)).
Proof.
  intros Hsrc Hinit Htarget. unfold Simulate, Heliopass.Simulate.
  destruct (Heliopass.GetAmbientProfiles (Heliopass.AmbientProfileName req))
    as [profile |] eqn:Hp; [| reflexivity].
  cbv zeta.
  destruct (Heliopass.make_float64s
              (Heliopass.LambdaCount (Heliopass.setDefaults req profile)))
    as [zeros |]; [| reflexivity].
  assert (Hb : forall (A B : Type) (m : Heliopass.Rand A)
                 (k : A -> Heliopass.Rand B) (x : nat),
             Heliopass.bind m k x = k (fst (m x)) (snd (m x))).
  { intros A B m k x. unfold Heliopass.bind. destruct (m x). reflexivity. }
  rewrite !Hb.
  destruct (Heliopass.initLanes src zeros zeros zeros c) as [[[b l] p] c1].
  cbn [fst snd]. rewrite ?Hb.
  change (Z.to_nat (Heliopass.MaxIterations h0)) with 50%nat.
  set (req' := Heliopass.setDefaults req profile).
  set (dt := IZR (Heliopass.Duration req') / IZR (Heliopass.MaxIterations h0)).
  change (initialState req' (b, l, p))
    with (embedState (Heliopass.initialState req' (b, l, p))).
  destruct (HeliopassMore.known_profile_levels _ Hp) as [[Hn1 Hn2] _].
  assert (Hnoise : 0 <= Heliopass.NoiseLevel profile <= 0.2) by lra.
  assert (Hsize : (Rabs (Heliopass.currentBER
                           (Heliopass.initialState req' (b, l, p)))
                   + 21 * Rabs (Heliopass.TargetBER req') + 30) * 1.1 ^ 50
                  <= 1e305).
  { change (Heliopass.TargetBER req') with (Heliopass.TargetBER req).
    change (Heliopass.currentBER (Heliopass.initialState req' (b, l, p)))
      with (if Heliopass.fzero (Heliopass.InitialBER req) then 1e-9
            else Heliopass.InitialBER req).
    assert (Hcur : Rabs (if Heliopass.fzero (Heliopass.InitialBER req)
                         then 1e-9 else Heliopass.InitialBER req) <= 1e300).
    { destruct (Heliopass.fzero (Heliopass.InitialBER req)); [| exact Hinit].
      rewrite Rabs_right; lra. }
    unfold moderate in Htarget.
    pose proof pow_11_50 as H50.
    assert (H1 : 1 <= 1.1 ^ 50) by (apply pow_R1_Rle; lra).
    pose proof (Rabs_pos (if Heliopass.fzero (Heliopass.InitialBER req)
                          then 1e-9 else Heliopass.InitialBER req)).
    pose proof (Rabs_pos (Heliopass.TargetBER req)).
    set (k := 1.1 ^ 50) in *.
    set (x := Rabs (if Heliopass.fzero (Heliopass.InitialBER req)
                    then 1e-9 else Heliopass.InitialBER req)) in *.
    set (y := Rabs (Heliopass.TargetBER req)) in *.
    assert (x + 21 * y + 30 <= 23 * 1e300) by lra.
    assert ((x + 21 * y + 30) * k <= 23 * 1e300 * 118) by nra.
    lra. }
  rewrite (@loop_embed src Hsrc profile Hnoise (Heliopass.TargetBER req') dt
             Htarget 50 O _ c1 Hsize).
  unfold Heliopass.ret.
  destruct (Heliopass.loop src h0 profile (Heliopass.TargetBER req') dt 50 0
              (Heliopass.initialState req' (b, l, p)) c1) as [st c2].
  reflexivity.
Qed.

(** X17: far from the end of the float64 range the real-number run is the
    float64 run.  For a request whose initial and target BER are at most
    1e300 in magnitude, and draws in [0, 1), no BER computation overflows:
    the response with its BER kept as a float64 is the response of the
    real-number model, value for value and draw for draw.  So every BER
    value in it is finite, the final BER is a number of at least 1e-15, and
    the handler can encode it. *)
Theorem moderate_runs_stay_finite (src : nat -> R)
    (req : Heliopass.SimulationRequest) (c : nat) :
  Heliopass.inUnit src ->
  moderate (Heliopass.InitialBER req) ->
  moderate (Heliopass.TargetBER req) ->
  Simulate src h0 req c
  = (embedOutcome (fst (Heliopass.Simulate src h0 req c)),
     snd (Heliopass.Simulate src h0 req c))
  /\ forall resp c',
       Simulate src h0 req c = (Returned resp, c') ->
       (exists x, FinalBER resp = Finite x /\ 1e-15 <= x)
       /\ Forall (fun pt => isFinite (BER pt) = true) (BERProfile resp)
       /\ HeliopassHTTP.encodable resp = true.
Proof.
  intros Hsrc Hinit Htarget.
  pose proof (@Simulate_embed src req c Hsrc Hinit Htarget) as E.
  split; [exact E |]. intros resp c' Hsim.
  rewrite E in Hsim.
  destruct (Heliopass.Simulate src h0 req c) as [o k] eqn:HR.
  cbn [fst snd] in Hsim. destruct o as [r | err | msg]; try discriminate.
  cbn [embedOutcome] in Hsim. injection Hsim as <- <-.
  destruct (HeliopassProps.Simulate_final_state src req c HR)
    as (st & Hb & _ & _ & _ & _ & _ & Hf & _).
  assert (F1 : exists x, FinalBER (embedResponse r) = Finite x /\ 1e-15 <= x).
  { exists (Heliopass.FinalBER r). split; [reflexivity |].
    rewrite Hf. exact Hb. }
  assert (F2 : Forall (fun pt => isFinite (BER pt) = true)
                 (BERProfile (embedResponse r)))
    by apply Forall_embedded.
  split; [exact F1 |]. split; [exact F2 |].
  assert (Hsim : Simulate src h0 req c = (Returned (embedResponse r), k))
    by (rewrite E; reflexivity).
  destruct (encodable_cases _ _ _ Hsim) as [(Eok & _) | (_ & [Hbad | Hbad])].
  - exact Eok.
  - discriminate Hbad.
  - exfalso. apply Exists_exists in Hbad. destruct Hbad as (pt & Hin & Hpt).
    rewrite Forall_forall in F2. rewrite (F2 pt Hin) in Hpt. discriminate.
Qed.

Lemma moderate_runs_stay_finite_witness :
  Simulate Heliopass.midSource Heliopass.NewHELIOPASSSimulator
    Heliopass.sampleRequest O
  = (embedOutcome
       (fst (Heliopass.Simulate Heliopass.midSource
               Heliopass.NewHELIOPASSSimulator Heliopass.sampleRequest O)),
     snd (Heliopass.Simulate Heliopass.midSource
            Heliopass.NewHELIOPASSSimulator Heliopass.sampleRequest O))
  /\ forall resp c',
       Simulate Heliopass.midSource Heliopass.NewHELIOPASSSimulator
         Heliopass.sampleRequest O = (Returned resp, c') ->
       (exists x, FinalBER resp = Finite x /\ 1e-15 <= x)
       /\ Forall (fun pt => isFinite (BER pt) = true) (BERProfile resp)
       /\ HeliopassHTTP.encodable resp = true.
Proof.
  apply (@moderate_runs_stay_finite Heliopass.midSource
           Heliopass.sampleRequest O).
  - exact HeliopassMore.midSource_inUnit.
  - unfold moderate. cbn [Heliopass.InitialBER Heliopass.sampleRequest].
    rewrite Rabs_R0. lra.
  - unfold moderate. cbn [Heliopass.TargetBER Heliopass.sampleRequest].
    rewrite Rabs_right; lra.
Defined.

End HeliopassF64Props.
